(** * Browser video studio: the capture / record / export controller

    A shallow embedding of [src/app/page.tsx] (the [Home] component).

    The component keeps its data in three places, and the embedding keeps
    them apart in the same way:
    - React state cells ([useState]) and refs ([useRef]): record [Session];
    - objects owned by the browser that the component only holds handles
      to (media streams, recorders, interval timers, object URLs, pending
      promises): record [Browser];
    - the pair of both: record [Studio].

    Every function of the component is a function on [Studio].  Callbacks
    that the browser invokes later (promise continuations, recorder events,
    interval ticks) are the cases of [handle]; [dispatch] adds what React
    does after a handler has run (the effect clean-up keyed on
    [recordedUrl]).

    What is taken from the browser rather than from the component:
    - the component stays mounted, so [videoRef.current] is the video element;
    - handles returned by [setInterval] are truthy (they are positive), and
      so are object URLs;
    - what [MediaRecorder.isTypeSupported] answers is fixed for the life of
      the page: it is a parameter of [initial] that no event changes;
    - [new MediaRecorder] and [recorder.start()] do not throw for a type that
      [isTypeSupported] accepted;
    - a recorder fires [stop] once, after its [stop()] was called. *)

From Stdlib Require Import ZArith NArith List String Ascii Bool Lia.
From Stdlib.Strings Require Import Byte.
From Stdlib Require Import DecimalString.
From stdpp Require Import base list option.
Import ListNotations.

Open Scope string_scope.
Open Scope list_scope.
Open Scope Z_scope.

(** ** JavaScript strings

    A JavaScript string is a sequence of UTF-16 code units; the regular
    expression of [downloadRecording] has no [u] flag and so works on code
    units.  Titles are therefore lists of code units.  Messages are only
    stored and shown, never inspected: they stay byte strings. *)

Definition jsstring := list N.

Definition js (s : string) : jsstring :=
  map N_of_ascii (list_ascii_of_string s).

(** ** Enumerations and constants of the module *)

Inductive RecorderState := idle | recording | paused.
Inductive CaptureSource := camera | screen.

Definition COUNTDOWN_SECONDS : Z := 3.

#[global] Instance RecorderState_eq_dec : EqDecision RecorderState.
Proof. solve_decision. Defined.

#[global] Instance CaptureSource_eq_dec : EqDecision CaptureSource.
Proof. solve_decision. Defined.

(** ** Browser objects *)

(** Handles are positions in the browser's tables. *)
Abbreviation StreamId := nat (only parsing).
Abbreviation RecorderId := nat (only parsing).
Abbreviation IntervalId := nat (only parsing).
Abbreviation Url := nat (only parsing).

Inductive TrackKind := videoTrack | audioTrack.

(** [live = false] is [readyState === "ended"], the effect of [track.stop()]. *)
Record MediaStreamTrack := mkTrack { kind : TrackKind; live : bool }.

Definition MediaStream := list MediaStreamTrack.

Definition stopTrack (t : MediaStreamTrack) : MediaStreamTrack :=
  {| kind := kind t; live := false |}.

Definition isAudio (t : MediaStreamTrack) : bool :=
  match kind t with audioTrack => true | videoTrack => false end.

(** [stream.getAudioTracks()] *)
Definition getAudioTracks (s : MediaStream) : list MediaStreamTrack :=
  List.filter isAudio s.

Record Blob := mkBlob { blob_data : list byte; blob_type : string }.

(** [blob.size] *)
Definition blob_size (b : Blob) : Z := Z.of_nat (length (blob_data b)).

(** [new Blob(parts, { type })]: the parts, in order, one after the other. *)
Definition newBlob (parts : list Blob) (type : string) : Blob :=
  {| blob_data := concat (map blob_data parts); blob_type := type |}.

(** [MediaRecorder.state] *)
Inductive RecordingState := rs_inactive | rs_recording | rs_paused.

(** A recorder object.  [chunks] is the array that [startRecording]
    allocates next to the recorder and that only the recorder's two
    callbacks reach.  [stopQueued] holds while the browser owes the [stop]
    event that [recorder.stop()] queued. *)
Record MediaRecorder := mkRecorder {
  rec_stream : StreamId;
  mimeType : string;
  videoBitsPerSecond : Z;
  rec_state : RecordingState;
  stopQueued : bool;
  chunks : list Blob
}.

(** The callback given to [setInterval]: the elapsed-time callback of
    [startTimer], or the callback of [beginCountdown].  The latter closes over
    its local [remaining] and over the [startRecording] of the render in
    which the countdown began, hence over that render's [recordedUrl]. *)
Inductive IntervalCallback :=
  | ElapsedCallback
  | CountdownCallback (remaining : Z) (closure_recordedUrl : option Url).

Record Interval := mkInterval { iv_active : bool; iv_callback : IntervalCallback }.

(** A value caught by [catch (err)]. *)
Inductive Thrown :=
  | ErrorObject (message : string)   (* err instanceof Error *)
  | OtherValue.

Inductive Settled (A : Type) :=
  | Fulfilled (value : A)
  | Rejected (reason : Thrown).
Arguments Fulfilled {A} value.
Arguments Rejected {A} reason.

(** Where a call of [prepareStudio] is suspended: at the [await] of the
    camera request, of the screen request (remembering [mic]), or of the
    microphone request (remembering the screen stream). *)
Inductive Continuation :=
  | AwaitCamera
  | AwaitDisplay (mic : bool)
  | AwaitMicrophone (screenStream : StreamId).

Inductive ConsoleEntry :=
  | Warn (text : string) (value : Thrown).

(** ** The state *)

Record Session := mkSession {
  (* useState *)
  recorderState : RecorderState;
  recordedUrl : option Url;
  error : option string;
  isStudioReady : bool;
  countdown : option Z;
  elapsedSeconds : Z;
  overlayText : jsstring;
  projectTitle : jsstring;
  captureSource : CaptureSource;
  includeMicrophone : bool;
  showOverlay : bool;
  (* useRef *)
  recorderRef : option RecorderId;
  streamRef : option StreamId;
  timerRef : option IntervalId
}.

Record Browser := mkBrowser {
  streams : list MediaStream;
  recorders : list MediaRecorder;
  intervals : list Interval;
  objectUrls : list (option Blob);          (* [None]: revoked *)
  awaiting : list (option Continuation);    (* [None]: settled *)
  video_srcObject : option StreamId;        (* [videoRef.current.srcObject] *)
  pendingPlays : nat;                       (* unsettled [play()] promises *)
  console : list ConsoleEntry;
  downloads : list (Url * jsstring);        (* [anchor.click()]: href, download *)
  isTypeSupported : string -> bool          (* [MediaRecorder.isTypeSupported] *)
}.

Record Studio := mkStudio { session : Session; browser : Browser }.

(** *** State setters *)

Definition onSession (f : Session -> Session) (st : Studio) : Studio :=
  {| session := f (session st); browser := browser st |}.

Definition onBrowser (f : Browser -> Browser) (st : Studio) : Studio :=
  {| session := session st; browser := f (browser st) |}.

Definition setRecorderState (v : RecorderState) : Studio -> Studio :=
  onSession (fun s =>
    mkSession
      v (recordedUrl s) (error s) (isStudioReady s) (countdown s) (elapsedSeconds s)
      (overlayText s) (projectTitle s) (captureSource s) (includeMicrophone s)
      (showOverlay s) (recorderRef s) (streamRef s) (timerRef s)).

Definition setRecordedUrl (v : option Url) : Studio -> Studio :=
  onSession (fun s =>
    mkSession
      (recorderState s) v (error s) (isStudioReady s) (countdown s) (elapsedSeconds s)
      (overlayText s) (projectTitle s) (captureSource s) (includeMicrophone s)
      (showOverlay s) (recorderRef s) (streamRef s) (timerRef s)).

Definition setError (v : option string) : Studio -> Studio :=
  onSession (fun s =>
    mkSession
      (recorderState s) (recordedUrl s) v (isStudioReady s) (countdown s)
      (elapsedSeconds s) (overlayText s) (projectTitle s) (captureSource s)
      (includeMicrophone s) (showOverlay s) (recorderRef s) (streamRef s) (timerRef s)).

Definition setIsStudioReady (v : bool) : Studio -> Studio :=
  onSession (fun s =>
    mkSession
      (recorderState s) (recordedUrl s) (error s) v (countdown s) (elapsedSeconds s)
      (overlayText s) (projectTitle s) (captureSource s) (includeMicrophone s)
      (showOverlay s) (recorderRef s) (streamRef s) (timerRef s)).

Definition setCountdown (v : option Z) : Studio -> Studio :=
  onSession (fun s =>
    mkSession
      (recorderState s) (recordedUrl s) (error s) (isStudioReady s) v
      (elapsedSeconds s) (overlayText s) (projectTitle s) (captureSource s)
      (includeMicrophone s) (showOverlay s) (recorderRef s) (streamRef s) (timerRef s)).

Definition setElapsedSeconds (v : Z) : Studio -> Studio :=
  onSession (fun s =>
    mkSession
      (recorderState s) (recordedUrl s) (error s) (isStudioReady s) (countdown s) v
      (overlayText s) (projectTitle s) (captureSource s) (includeMicrophone s)
      (showOverlay s) (recorderRef s) (streamRef s) (timerRef s)).

Definition setOverlayText (v : jsstring) : Studio -> Studio :=
  onSession (fun s =>
    mkSession
      (recorderState s) (recordedUrl s) (error s) (isStudioReady s) (countdown s)
      (elapsedSeconds s) v (projectTitle s) (captureSource s) (includeMicrophone s)
      (showOverlay s) (recorderRef s) (streamRef s) (timerRef s)).

Definition setProjectTitle (v : jsstring) : Studio -> Studio :=
  onSession (fun s =>
    mkSession
      (recorderState s) (recordedUrl s) (error s) (isStudioReady s) (countdown s)
      (elapsedSeconds s) (overlayText s) v (captureSource s) (includeMicrophone s)
      (showOverlay s) (recorderRef s) (streamRef s) (timerRef s)).

Definition setCaptureSource (v : CaptureSource) : Studio -> Studio :=
  onSession (fun s =>
    mkSession
      (recorderState s) (recordedUrl s) (error s) (isStudioReady s) (countdown s)
      (elapsedSeconds s) (overlayText s) (projectTitle s) v (includeMicrophone s)
      (showOverlay s) (recorderRef s) (streamRef s) (timerRef s)).

Definition setIncludeMicrophone (v : bool) : Studio -> Studio :=
  onSession (fun s =>
    mkSession
      (recorderState s) (recordedUrl s) (error s) (isStudioReady s) (countdown s)
      (elapsedSeconds s) (overlayText s) (projectTitle s) (captureSource s) v
      (showOverlay s) (recorderRef s) (streamRef s) (timerRef s)).

Definition setShowOverlay (v : bool) : Studio -> Studio :=
  onSession (fun s =>
    mkSession
      (recorderState s) (recordedUrl s) (error s) (isStudioReady s) (countdown s)
      (elapsedSeconds s) (overlayText s) (projectTitle s) (captureSource s)
      (includeMicrophone s) v (recorderRef s) (streamRef s) (timerRef s)).

Definition setRecorderRef (v : option RecorderId) : Studio -> Studio :=
  onSession (fun s =>
    mkSession
      (recorderState s) (recordedUrl s) (error s) (isStudioReady s) (countdown s)
      (elapsedSeconds s) (overlayText s) (projectTitle s) (captureSource s)
      (includeMicrophone s) (showOverlay s) v (streamRef s) (timerRef s)).

Definition setStreamRef (v : option StreamId) : Studio -> Studio :=
  onSession (fun s =>
    mkSession
      (recorderState s) (recordedUrl s) (error s) (isStudioReady s) (countdown s)
      (elapsedSeconds s) (overlayText s) (projectTitle s) (captureSource s)
      (includeMicrophone s) (showOverlay s) (recorderRef s) v (timerRef s)).

Definition setTimerRef (v : option IntervalId) : Studio -> Studio :=
  onSession (fun s =>
    mkSession
      (recorderState s) (recordedUrl s) (error s) (isStudioReady s) (countdown s)
      (elapsedSeconds s) (overlayText s) (projectTitle s) (captureSource s)
      (includeMicrophone s) (showOverlay s) (recorderRef s) (streamRef s) v).

Definition setStreams (v : list MediaStream) : Studio -> Studio :=
  onBrowser (fun b =>
    mkBrowser
      v (recorders b) (intervals b) (objectUrls b) (awaiting b) (video_srcObject b)
      (pendingPlays b) (console b) (downloads b) (isTypeSupported b)).

Definition setRecorders (v : list MediaRecorder) : Studio -> Studio :=
  onBrowser (fun b =>
    mkBrowser
      (streams b) v (intervals b) (objectUrls b) (awaiting b) (video_srcObject b)
      (pendingPlays b) (console b) (downloads b) (isTypeSupported b)).

Definition setIntervals (v : list Interval) : Studio -> Studio :=
  onBrowser (fun b =>
    mkBrowser
      (streams b) (recorders b) v (objectUrls b) (awaiting b) (video_srcObject b)
      (pendingPlays b) (console b) (downloads b) (isTypeSupported b)).

Definition setObjectUrls (v : list (option Blob)) : Studio -> Studio :=
  onBrowser (fun b =>
    mkBrowser
      (streams b) (recorders b) (intervals b) v (awaiting b) (video_srcObject b)
      (pendingPlays b) (console b) (downloads b) (isTypeSupported b)).

Definition setAwaiting (v : list (option Continuation)) : Studio -> Studio :=
  onBrowser (fun b =>
    mkBrowser
      (streams b) (recorders b) (intervals b) (objectUrls b) v (video_srcObject b)
      (pendingPlays b) (console b) (downloads b) (isTypeSupported b)).

Definition setVideoSrcObject (v : option StreamId) : Studio -> Studio :=
  onBrowser (fun b =>
    mkBrowser
      (streams b) (recorders b) (intervals b) (objectUrls b) (awaiting b) v
      (pendingPlays b) (console b) (downloads b) (isTypeSupported b)).

Definition setPendingPlays (v : nat) : Studio -> Studio :=
  onBrowser (fun b =>
    mkBrowser
      (streams b) (recorders b) (intervals b) (objectUrls b) (awaiting b)
      (video_srcObject b) v (console b) (downloads b) (isTypeSupported b)).

Definition setConsole (v : list ConsoleEntry) : Studio -> Studio :=
  onBrowser (fun b =>
    mkBrowser
      (streams b) (recorders b) (intervals b) (objectUrls b) (awaiting b)
      (video_srcObject b) (pendingPlays b) v (downloads b) (isTypeSupported b)).

Definition setDownloads (v : list (Url * jsstring)) : Studio -> Studio :=
  onBrowser (fun b =>
    mkBrowser
      (streams b) (recorders b) (intervals b) (objectUrls b) (awaiting b)
      (video_srcObject b) (pendingPlays b) (console b) v (isTypeSupported b)).

(** Field access through the pair, under the source's names. *)
Notation "st '.[' f ']'" := (f (session st)) (at level 1, left associativity, format "st .[ f ]").
Notation "st '.{' f '}'" := (f (browser st)) (at level 1, left associativity, format "st .{ f }").

(** ** Browser primitives *)

(** [stream.getTracks().forEach((track) => track.stop())] on the stream
    object [sid]. *)
Definition stopAllTracks (sid : StreamId) (st : Studio) : Studio :=
  setStreams (alter (map stopTrack) sid st.{streams}) st.

(** A stream object the browser has just created; its handle is returned. *)
Definition allocStream (s : MediaStream) (st : Studio) : StreamId * Studio :=
  (length st.{streams}, setStreams (st.{streams} ++ [s]) st).

(** [screenStream.addTrack(track)] for each of [ts]. *)
Definition addTracks (sid : StreamId) (ts : list MediaStreamTrack) (st : Studio) : Studio :=
  setStreams (alter (fun s => s ++ ts) sid st.{streams}) st.

(** [URL.createObjectURL(blob)]: a URL that was never handed out before. *)
Definition createObjectURL (b : Blob) (st : Studio) : Url * Studio :=
  (length st.{objectUrls}, setObjectUrls (st.{objectUrls} ++ [Some b]) st).

(** [URL.revokeObjectURL(url)]; revoking twice, or an unknown URL, does nothing. *)
Definition revokeObjectURL (u : Url) (st : Studio) : Studio :=
  setObjectUrls (<[u := None]> st.{objectUrls}) st.

(** What a live object URL resolves to. *)
Definition resolveUrl (u : Url) (st : Studio) : option Blob :=
  mjoin (st.{objectUrls} !! u).

(** [setInterval(callback, 1000)] *)
Definition setInterval (cb : IntervalCallback) (st : Studio) : IntervalId * Studio :=
  (length st.{intervals},
   setIntervals (st.{intervals} ++ [{| iv_active := true; iv_callback := cb |}]) st).

(** [clearInterval(id)] *)
Definition cleared (iv : Interval) : Interval :=
  {| iv_active := false; iv_callback := iv_callback iv |}.

Definition clearInterval (h : IntervalId) (st : Studio) : Studio :=
  setIntervals (alter cleared h st.{intervals}) st.

(** Suspend at an [await]. *)
Definition suspend (k : Continuation) (st : Studio) : Studio :=
  setAwaiting (st.{awaiting} ++ [Some k]) st.

Definition updRecorder (r : RecorderId) (f : MediaRecorder -> MediaRecorder) (st : Studio)
    : Studio :=
  setRecorders (alter f r st.{recorders}) st.

Definition withRecState (s : RecordingState) (rec : MediaRecorder) : MediaRecorder :=
  {| rec_stream := rec_stream rec; mimeType := mimeType rec;
     videoBitsPerSecond := videoBitsPerSecond rec;
     rec_state := s; stopQueued := stopQueued rec; chunks := chunks rec |}.

Definition withStopQueued (q : bool) (rec : MediaRecorder) : MediaRecorder :=
  {| rec_stream := rec_stream rec; mimeType := mimeType rec;
     videoBitsPerSecond := videoBitsPerSecond rec;
     rec_state := rec_state rec; stopQueued := q; chunks := chunks rec |}.

Definition withChunks (cs : list Blob) (rec : MediaRecorder) : MediaRecorder :=
  {| rec_stream := rec_stream rec; mimeType := mimeType rec;
     videoBitsPerSecond := videoBitsPerSecond rec;
     rec_state := rec_state rec; stopQueued := stopQueued rec; chunks := cs |}.

(** [recorder.stop()]: nothing on an inactive recorder; otherwise the
    recorder becomes inactive and its [stop] event is queued. *)
Definition recorder_stop (rec : MediaRecorder) : MediaRecorder :=
  match rec_state rec with
  | rs_inactive => rec
  | _ => withStopQueued true (withRecState rs_inactive rec)
  end.

(** [recorder.pause()]: [None] is the [InvalidStateError] thrown on an
    inactive recorder. *)
Definition recorder_pause (rec : MediaRecorder) : option MediaRecorder :=
  match rec_state rec with
  | rs_inactive => None
  | _ => Some (withRecState rs_paused rec)
  end.

(** [recorder.resume()], likewise. *)
Definition recorder_resume (rec : MediaRecorder) : option MediaRecorder :=
  match rec_state rec with
  | rs_inactive => None
  | _ => Some (withRecState rs_recording rec)
  end.

(** ** The component's functions *)

Module Msg.
Definition autoplay : string :=
  "Не удалось автоматически воспроизвести предварительный просмотр.".
Definition cameraFallback : string := "Не удалось получить доступ к камере.".
Definition screenFallback : string := "Не удалось получить доступ к экрану.".
Definition noWebm : string := "Ваш браузер не поддерживает запись видео WebM.".
Definition noSource : string := "Нет активного источника для записи. Включите студию.".
(* the message for a thrown value that is not an [Error]; [createRecorder]
   throws an [Error], so [startRecording] never shows it *)
Definition startFallback : string := "Не удалось начать запись.".
Definition micWarning : string := "Microphone capture failed".
End Msg.

(** [if (timerRef.current)]: null or a handle. *)
Definition resetTimer (st : Studio) : Studio :=
  let st :=
    match st.[timerRef] with
    | Some h => setTimerRef None (clearInterval h st)
    | None => st
    end in
  setElapsedSeconds 0 st.

Definition teardownStream (st : Studio) : Studio :=
  let st :=
    match st.[streamRef] with
    | Some sid => stopAllTracks sid st
    | None => st
    end in
  setStreamRef None st.

(** The clean-up returned by the [useEffect] whose dependencies are
    [recordedUrl, resetTimer, teardownStream]; [url] is the [recordedUrl] of
    the render that installed it. *)
Definition effectCleanup (url : option Url) (st : Studio) : Studio :=
  let st := teardownStream st in
  let st :=
    match url with
    | Some u => revokeObjectURL u st
    | None => st
    end in
  resetTimer st.

(** The video element is mounted for as long as the component is; the
    [play()] promise is left pending, and its rejection is event
    [PlayRejected] below. *)
Definition attachStreamToVideo (sid : StreamId) (st : Studio) : Studio :=
  setPendingPlays (S st.{pendingPlays}) (setVideoSrcObject (Some sid) st).

(** [prepareStudio], up to its first [await]. *)
Definition prepareStudio (source : CaptureSource) (mic : bool) (st : Studio) : Studio :=
  let st := setError None st in
  let st := setIsStudioReady false st in
  let st := teardownStream st in
  match source with
  | camera => suspend AwaitCamera st
  | screen => suspend (AwaitDisplay mic) st
  end.

(** The last three statements of the [try] block of [prepareStudio]. *)
Definition prepareStudio_finish (sid : StreamId) (st : Studio) : Studio :=
  let st := setStreamRef (Some sid) st in
  let st := attachStreamToVideo sid st in
  setIsStudioReady true st.

(** The [catch] block of [prepareStudio]. *)
Definition prepareStudio_catch (source : CaptureSource) (err : Thrown) (st : Studio) : Studio :=
  let fallback :=
    match source with
    | camera => Msg.cameraFallback
    | screen => Msg.screenFallback
    end in
  let message :=
    match err with
    | ErrorObject m => if String.eqb m "" then fallback else m
    | OtherValue => fallback
    end in
  let st := setError (Some message) st in
  teardownStream st.

(** [prepareStudio], resumed at continuation [k] with the settled promise. *)
Definition prepareStudio_resume (k : Continuation) (r : Settled MediaStream) (st : Studio)
    : Studio :=
  match k, r with
  | AwaitCamera, Fulfilled s =>
      let '(sid, st) := allocStream s st in
      prepareStudio_finish sid st
  | AwaitCamera, Rejected err => prepareStudio_catch camera err st
  | AwaitDisplay mic, Fulfilled s =>
      let '(sid, st) := allocStream s st in
      if mic then suspend (AwaitMicrophone sid) st
      else prepareStudio_finish sid st
  | AwaitDisplay _, Rejected err => prepareStudio_catch screen err st
  | AwaitMicrophone sid, Fulfilled micStream =>
      let st := addTracks sid (getAudioTracks micStream) st in
      prepareStudio_finish sid st
  | AwaitMicrophone sid, Rejected micErr =>
      let st := setConsole (st.{console} ++ [Warn Msg.micWarning micErr]) st in
      prepareStudio_finish sid st
  end.

Definition handleEnableStudio (st : Studio) : Studio :=
  prepareStudio st.[captureSource] st.[includeMicrophone] st.

Definition handleSelectSource (source : CaptureSource) (st : Studio) : Studio :=
  let ready := st.[isStudioReady] in
  let mic := st.[includeMicrophone] in
  let st := setCaptureSource source st in
  if ready then prepareStudio source mic st else st.

Definition handleToggleMicrophone (nextValue : bool) (st : Studio) : Studio :=
  let ready := st.[isStudioReady] in
  let source := st.[captureSource] in
  let st := setIncludeMicrophone nextValue st in
  if ready then prepareStudio source nextValue st else st.

Definition supportedTypes : list string :=
  [ "video/webm;codecs=vp9,opus"; "video/webm;codecs=vp8,opus"; "video/webm" ].

(** [createRecorder]: [None] is the thrown [Error]; a recorder is returned
    inactive, before [start()]. *)
Definition createRecorder (stream : StreamId) (st : Studio) : option MediaRecorder :=
  match List.find st.{isTypeSupported} supportedTypes with
  | None => None
  | Some type =>
      Some {| rec_stream := stream; mimeType := type; videoBitsPerSecond := 4000000;
              rec_state := rs_inactive; stopQueued := false; chunks := [] |}
  end.

Definition startTimer (st : Studio) : Studio :=
  let st := resetTimer st in
  let '(h, st) := setInterval ElapsedCallback st in
  setTimerRef (Some h) st.

(** [startRecording] as created by a render whose [recordedUrl] was [url]. *)
Definition startRecording (url : option Url) (st : Studio) : Studio :=
  match st.[streamRef] with
  | None => setError (Some Msg.noSource) st
  | Some stream =>
      let st :=
        match url with
        | Some u => setRecordedUrl None (revokeObjectURL u st)
        | None => st
        end in
      match createRecorder stream st with
      | None => setError (Some Msg.noWebm) st
      | Some recorder =>
          (* recorder.start() *)
          let recorder := withRecState rs_recording recorder in
          let r := length st.{recorders} in
          let st := setRecorders (st.{recorders} ++ [recorder]) st in
          let st := setRecorderRef (Some r) st in
          let st := setRecorderState recording st in
          startTimer st
      end
  end.

(** [recorder.ondataavailable] of recorder [r]. *)
Definition ondataavailable (r : RecorderId) (data : Blob) (st : Studio) : Studio :=
  if (0 <? blob_size data)
  then updRecorder r (fun rec => withChunks (chunks rec ++ [data]) rec) st
  else st.

(** [recorder.onstop] of recorder [r]. *)
Definition onstop (r : RecorderId) (st : Studio) : Studio :=
  match st.{recorders} !! r with
  | None => st
  | Some rec =>
      let blob := newBlob (chunks rec) (mimeType rec) in
      let '(url, st) := createObjectURL blob st in
      let st := setRecordedUrl (Some url) st in
      let st := setRecorderState idle st in
      resetTimer st
  end.

Definition stopRecording (st : Studio) : Studio :=
  match st.[recorderRef] with
  | Some r =>
      if decide (st.[recorderState] <> idle) then
        let st := updRecorder r recorder_stop st in
        let st := setRecorderRef None st in
        let st := teardownStream st in
        let st := setIsStudioReady false st in
        setCountdown None st
      else st
  | None => st
  end.

Definition pauseRecording (st : Studio) : Studio :=
  match st.[recorderRef] with
  | Some r =>
      if decide (st.[recorderState] = recording) then
        match st.{recorders} !! r ≫= recorder_pause with
        | None => st   (* the exception leaves the handler before any update *)
        | Some rec =>
            let st := setRecorders (<[r := rec]> st.{recorders}) st in
            let st := setRecorderState paused st in
            match st.[timerRef] with
            | Some h => setTimerRef None (clearInterval h st)
            | None => st
            end
        end
      else st
  | None => st
  end.

Definition resumeRecording (st : Studio) : Studio :=
  match st.[recorderRef] with
  | Some r =>
      if decide (st.[recorderState] = paused) then
        match st.{recorders} !! r ≫= recorder_resume with
        | None => st
        | Some rec =>
            let st := setRecorders (<[r := rec]> st.{recorders}) st in
            let st := setRecorderState recording st in
            startTimer st
        end
      else st
  | None => st
  end.

Definition beginCountdown (st : Studio) : Studio :=
  if decide (st.[countdown] <> None \/ st.[recorderState] <> idle) then st
  else
    let remaining := COUNTDOWN_SECONDS in
    let captured := st.[recordedUrl] in
    let st := setCountdown (Some remaining) st in
    snd (setInterval (CountdownCallback remaining captured) st).

(** The callback of the interval [h] that [beginCountdown] installed, with
    its closure variables. *)
Definition countdownTick (h : IntervalId) (remaining : Z) (captured : option Url)
    (st : Studio) : Studio :=
  (* remaining -= 1, in the closure *)
  let remaining := remaining - 1 in
  let st := setIntervals
              (<[h := {| iv_active := true;
                         iv_callback := CountdownCallback remaining captured |}]>
                 st.{intervals}) st in
  if remaining <=? 0 then
    let st := clearInterval h st in
    let st := setCountdown None st in
    startRecording captured st
  else
    setCountdown (Some remaining) st.

(** The callback of the interval that [startTimer] installed. *)
Definition elapsedTick (st : Studio) : Studio :=
  setElapsedSeconds (st.[elapsedSeconds] + 1) st.

(** *** Export *)

(** The character class [[a-zA-Z0-9\-_]], on a code unit. *)
Definition allowedChar (c : N) : bool :=
  ((97 <=? c) && (c <=? 122) || (65 <=? c) && (c <=? 90)
   || (48 <=? c) && (c <=? 57) || (c =? 45) || (c =? 95))%N.

Definition underscore : N := 95%N.

(** [title.replace(/[^a-zA-Z0-9\-_]+/g, "_")].  The scan copies the code
    units of the class; at any other code unit the pattern [[^...]+] matches
    greedily, that is the whole run of code units outside the class
    ([skip]), and the match is replaced by one underscore. *)
Fixpoint replaceRuns (s : jsstring) : jsstring :=
  match s with
  | [] => []
  | c :: rest =>
      if allowedChar c then c :: replaceRuns rest
      else underscore ::
           (fix skip (r : jsstring) : jsstring :=
              match r with
              | [] => []
              | d :: r' => if allowedChar d then d :: replaceRuns r' else skip r'
              end) rest
  end.

(** The inner scan of [replaceRuns], under a name: what follows a code unit
    outside the class. *)
Definition skipRun : jsstring -> jsstring :=
  fix skip (r : jsstring) : jsstring :=
    match r with
    | [] => []
    | d :: r' => if allowedChar d then d :: replaceRuns r' else skip r'
    end.

Definition defaultBaseName : jsstring := js "video".

(** [sanitized || "video"]: the empty string is the only falsy string. *)
Definition baseName (title : jsstring) : jsstring :=
  match replaceRuns title with
  | [] => defaultBaseName
  | sanitized => sanitized
  end.

Definition fileName (title : jsstring) : jsstring := baseName title ++ js ".webm".

Definition downloadRecording (st : Studio) : Studio :=
  match st.[recordedUrl] with
  | None => st
  | Some url => setDownloads (st.{downloads} ++ [(url, fileName st.[projectTitle])]) st
  end.

(** ** Events and the event loop *)

Inductive Event :=
  (* the user, through the controls of the page *)
  | EnableStudio
  | SelectSource (source : CaptureSource)
  | ToggleMicrophone (nextValue : bool)
  | EditProjectTitle (value : jsstring)
  | EditOverlayText (value : jsstring)
  | ToggleOverlay (value : bool)
  | BeginCountdown
  | PauseRecording
  | ResumeRecording
  | StopRecording
  | DownloadRecording
  (* the browser *)
  | Settle (p : nat) (result : Settled MediaStream)
  | PlayRejected
  | DataAvailable (r : RecorderId) (data : Blob)
  | RecorderStopped (r : RecorderId)
  | Tick (h : IntervalId).

(** One turn of the event loop.  The browser delivers a promise result only
    to a suspended continuation, a [stop] event only to a recorder whose
    [stop()] queued it, and a tick only to an interval that is not cleared;
    an event that cannot occur leaves the state as it is. *)
Definition handle (e : Event) (st : Studio) : Studio :=
  match e with
  | EnableStudio => handleEnableStudio st
  | SelectSource source => handleSelectSource source st
  | ToggleMicrophone nextValue => handleToggleMicrophone nextValue st
  | EditProjectTitle v => setProjectTitle v st
  | EditOverlayText v => setOverlayText v st
  | ToggleOverlay v => setShowOverlay v st
  | BeginCountdown => beginCountdown st
  | PauseRecording => pauseRecording st
  | ResumeRecording => resumeRecording st
  | StopRecording => stopRecording st
  | DownloadRecording => downloadRecording st
  | Settle p result =>
      match st.{awaiting} !! p with
      | Some (Some k) =>
          prepareStudio_resume k result (setAwaiting (<[p := None]> st.{awaiting}) st)
      | _ => st
      end
  | PlayRejected =>
      match st.{pendingPlays} with
      | S n => setError (Some Msg.autoplay) (setPendingPlays n st)
      | O => st
      end
  | DataAvailable r data => ondataavailable r data st
  | RecorderStopped r =>
      match st.{recorders} !! r with
      | Some rec =>
          if stopQueued rec then onstop r (updRecorder r (withStopQueued false) st)
          else st
      | None => st
      end
  | Tick h =>
      match st.{intervals} !! h with
      | Some iv =>
          if iv_active iv then
            match iv_callback iv with
            | ElapsedCallback => elapsedTick st
            | CountdownCallback remaining captured => countdownTick h remaining captured st
            end
          else st
      | None => st
      end
  end.

(** After a handler has run React renders again; the effect's dependency
    [recordedUrl] is compared with the previous render's, and when it
    differs the previous render's clean-up runs. *)
Definition commit (before : option Url) (st : Studio) : Studio :=
  if decide (st.[recordedUrl] = before) then st else effectCleanup before st.

Definition dispatch (e : Event) (st : Studio) : Studio :=
  commit st.[recordedUrl] (handle e st).

(** Events are dispatched first to last. *)
Definition run (es : list Event) (st : Studio) : Studio :=
  fold_left (fun st e => dispatch e st) es st.

(** The first render, in a browser whose recorder supports [supported]. *)
Definition initial (supported : string -> bool) : Studio :=
  {| session :=
       {| recorderState := idle; recordedUrl := None; error := None;
          isStudioReady := false; countdown := None; elapsedSeconds := 0;
          (* "Здравствуйте! Готов записать ваше видео." *)
          overlayText :=
            [1047; 1076; 1088; 1072; 1074; 1089; 1090; 1074; 1091; 1081; 1090;
             1077; 33; 32; 1043; 1086; 1090; 1086; 1074; 32; 1079; 1072; 1087;
             1080; 1089; 1072; 1090; 1100; 32; 1074; 1072; 1096; 1077; 32; 1074;
             1080; 1076; 1077; 1086; 46]%N;
          (* "Мой проект" *)
          projectTitle := [1052; 1086; 1081; 32; 1087; 1088; 1086; 1077; 1082; 1090]%N;
          captureSource := camera; includeMicrophone := true; showOverlay := true;
          recorderRef := None; streamRef := None; timerRef := None |};
     browser :=
       {| streams := []; recorders := []; intervals := []; objectUrls := [];
          awaiting := []; video_srcObject := None; pendingPlays := 0%nat;
          console := []; downloads := []; isTypeSupported := supported |} |}.

Definition reachable (st : Studio) : Prop :=
  exists supported es, st = run es (initial supported).

(** ** Vocabulary of the statements *)

(** *** Export *)

(** Replacement of every single code unit outside the class, the reading
    under which each such code unit yields an underscore of its own.  It is
    kept only to be compared with [replaceRuns]. *)
Definition replaceEach (s : jsstring) : jsstring :=
  map (fun c => if allowedChar c then c else underscore) s.

Definition allAllowed (s : jsstring) : Prop := Forall (fun c => allowedChar c = true) s.
Definition noneAllowed (s : jsstring) : Prop := Forall (fun c => allowedChar c = false) s.

(** [s] is empty or begins with a code unit of the class: a run of other
    code units that is followed by [s] is maximal. *)
Definition runEnds (s : jsstring) : Prop :=
  match s with
  | [] => True
  | c :: _ => allowedChar c = true
  end.

(** *** Fragments *)

Definition nonEmpty (b : Blob) : bool := 0 <? blob_size b.

(** The fragments that the events [es] deliver to recorder [r], first to last. *)
Fixpoint fragmentsOf (r : RecorderId) (es : list Event) : list Blob :=
  match es with
  | [] => []
  | DataAvailable r' data :: es' =>
      if decide (r' = r) then data :: fragmentsOf r es' else fragmentsOf r es'
  | _ :: es' => fragmentsOf r es'
  end.

(** *** Countdown *)

(** In the table [ivs], interval [h] is a countdown that is still running,
    with [remaining] ticks to go and [captured] in its closure. *)
Definition countdownAt (ivs : list Interval) (h : IntervalId) (remaining : Z)
    (captured : option Url) : Prop :=
  ivs !! h = Some {| iv_active := true; iv_callback := CountdownCallback remaining captured |}.

Definition countingDown (st : Studio) (h : IntervalId) (remaining : Z)
    (captured : option Url) : Prop :=
  countdownAt st.{intervals} h remaining captured.

(** In the table [recs], recorder [r] has a [stop] event due. *)
Definition queuedIn (recs : list MediaRecorder) (r : RecorderId) : Prop :=
  exists rec, recs !! r = Some rec /\ stopQueued rec = true.

(** What holds of every state the event loop can reach, on the part of the
    state it is about: [recorderState], [countdown], [recordedUrl],
    [recorderRef], [timerRef], the intervals and the recorders. *)
Record CoreInvariant (rs : RecorderState) (cd : option Z) (url : option Url)
    (rref : option RecorderId) (tref : option IntervalId)
    (ivs : list Interval) (recs : list MediaRecorder) : Prop := {
  inv_countdown :
    forall h rem cap, countdownAt ivs h rem cap ->
      rs = idle /\ cd = Some rem /\ 1 <= rem <= COUNTDOWN_SECONDS /\ cap = url;
  inv_single :
    forall h rem cap h' rem' cap',
      countdownAt ivs h rem cap -> countdownAt ivs h' rem' cap' -> h' = h;
  inv_no_countdown :
    cd = None -> forall h rem cap, ~ countdownAt ivs h rem cap;
  inv_idle :
    rs = idle -> rref = None /\ forall r, ~ queuedIn recs r;
  inv_attached :
    forall r', rref = Some r' -> forall r, ~ queuedIn recs r;
  inv_one_queued :
    forall r1 r2, queuedIn recs r1 -> queuedIn recs r2 -> r1 = r2;
  inv_timerRef :
    forall h, tref = Some h ->
      exists a, ivs !! h = Some {| iv_active := a; iv_callback := ElapsedCallback |}
}.

Definition Invariant (st : Studio) : Prop :=
  CoreInvariant st.[recorderState] st.[countdown] st.[recordedUrl] st.[recorderRef]
    st.[timerRef] st.{intervals} st.{recorders}.

(** *** Fragments, one event at a time *)

(** What one turn of the event loop does to an existing recorder's
    fragments: it appends the fragment delivered to that recorder, when not
    empty, and nothing else; the recorder's type stays. *)
Definition arrival (r : RecorderId) (e : Event) : list Blob :=
  List.filter nonEmpty (fragmentsOf r [e]).

Definition sameRecording (rec rec' : MediaRecorder) (new : list Blob) : Prop :=
  mimeType rec' = mimeType rec /\ chunks rec' = chunks rec ++ new.

(** *** Ticks *)

(** The number of ticks of interval [h] among the events [es]. *)
Definition isTick (h : IntervalId) (e : Event) : bool :=
  match e with
  | Tick h' => Nat.eqb h' h
  | _ => false
  end.

Definition ticksOf (h : IntervalId) (es : list Event) : Z :=
  Z.of_nat (length (List.filter (isTick h) es)).

(** *** Sample data *)

Definition anyType (type : string) : bool := true.
Definition noType (type : string) : bool := false.

Definition cameraStream : MediaStream :=
  [ {| kind := videoTrack; live := true |}; {| kind := audioTrack; live := true |} ].

Definition screenOnly : MediaStream := [ {| kind := videoTrack; live := true |} ].

(** Enable the studio, let the camera request succeed, press record and let
    the countdown run out: a first recording is under way. *)
Definition toRecording : list Event :=
  [ EnableStudio; Settle 0%nat (Fulfilled cameraStream); BeginCountdown;
    Tick 0%nat; Tick 0%nat; Tick 0%nat ].

(** A first recording made and finalized, under an English title. *)
Definition exportReady : Studio :=
  setProjectTitle (js "My Project!! 2024")
    (run (toRecording ++ [StopRecording; RecorderStopped 0%nat]) (initial anyType)).

(** In a browser whose recorder supports none of the three formats: the
    studio enabled with the camera, record pressed and two of the three
    countdown ticks gone. *)
Definition noFormatBeforeStart : Studio :=
  run [ EnableStudio; Settle 0%nat (Fulfilled cameraStream);
        BeginCountdown; Tick 0%nat; Tick 0%nat ]
    (initial noType).

(** Stop was pressed during the first recording and the studio enabled
    again before the recorder's [stop] event arrived. *)
Definition stopPending : Studio :=
  run (toRecording ++ [StopRecording; EnableStudio; Settle 1%nat (Fulfilled cameraStream)])
    (initial anyType).

(** Screen capture with microphone: the screen is granted, the microphone
    request is pending. *)
Definition awaitingMicrophone : Studio :=
  run [SelectSource screen; EnableStudio; Settle 0%nat (Fulfilled screenOnly)]
    (initial anyType).

(** The studio enabled, the preview refused to play (a message is stored),
    record pressed and two of the three countdown ticks gone. *)
Definition staleErrorBeforeStart : Studio :=
  run [ EnableStudio; Settle 0%nat (Fulfilled cameraStream); PlayRejected;
        BeginCountdown; Tick 0%nat; Tick 0%nat ]
    (initial anyType).

(** A first recording, two seconds old. *)
Definition twoSecondsIn : Studio :=
  run (toRecording ++ [Tick 1%nat; Tick 1%nat]) (initial anyType).

(** Three fragments, an empty one among them, and the events of a short
    recording that delivers them: the last one after stop was pressed, as the
    recorder flushes what it still holds. *)
Definition fragA : Blob := {| blob_data := [x01; x02]%byte; blob_type := "video/webm" |}.
Definition fragB : Blob := {| blob_data := [x03]%byte; blob_type := "video/webm" |}.
Definition fragC : Blob := {| blob_data := [x04; x05]%byte; blob_type := "video/webm" |}.
Definition fragEmpty : Blob := {| blob_data := []; blob_type := "video/webm" |}.

Definition shortRecording : list Event :=
  [ DataAvailable 0%nat fragA; Tick 1%nat; DataAvailable 0%nat fragEmpty;
    PauseRecording; ResumeRecording; DataAvailable 0%nat fragB;
    StopRecording; DataAvailable 0%nat fragC ].

(** ** The rest of the component: display of the elapsed time *)

(** [n.toString()] for an integer [n]: decimal digits, with a minus sign
    below zero.  (The counter is an integer far inside the range in which
    JavaScript numbers are exact and printed without exponent.) *)
Definition toStringInt (n : Z) : jsstring :=
  js (NilZero.string_of_int (Z.to_int n)).

(** [s.padStart(targetLength, pad)] for a pad of one code unit: nothing is
    cut when [s] is already longer. *)
Definition padStart (targetLength : nat) (pad : N) (s : jsstring) : jsstring :=
  repeat pad (targetLength - length s) ++ s.

(** [Math.floor(seconds / 60)] is [seconds / 60], [seconds % 60] the
    remainder with the sign of [seconds]. *)
Definition formatDuration (seconds : Z) : jsstring :=
  let mins := padStart 2 48%N (toStringInt (seconds / 60)) in
  let secs := padStart 2 48%N (toStringInt (Z.rem seconds 60)) in
  mins ++ js ":" ++ secs.

(** *** Vocabulary of the further statements *)

(** The code unit of a decimal digit. *)
Definition digit (k : Z) : N := (48 + Z.to_N k)%N.

(** The intervals after [clearInterval] on what [timerRef] holds, if anything. *)
Definition cleanedUp (tref : option IntervalId) (ivs : list Interval) : list Interval :=
  match tref with
  | Some h => alter cleared h ivs
  | None => ivs
  end.

Definition elapsedAt (ivs : list Interval) (h : IntervalId) : Prop :=
  ivs !! h = Some {| iv_active := true; iv_callback := ElapsedCallback |}.

(** [recorderState] and the state of the attached recorder say the same. *)
Definition agree (rs : RecorderState) (s : RecordingState) : Prop :=
  (rs = recording /\ s = rs_recording) \/ (rs = paused /\ s = rs_paused).

(** The elapsed timer and the counter. *)
Record TimerInvariant (rs : RecorderState) (tref : option IntervalId) (el : Z)
    (ivs : list Interval) : Prop := {
  ti_ref : forall h, tref = Some h -> elapsedAt ivs h /\ rs = recording;
  ti_owner : forall h, elapsedAt ivs h -> tref = Some h;
  ti_nonneg : 0 <= el;
  ti_idle : rs = idle -> el = 0
}.

(** The attached recorder, and the recorder that was stopped. *)
Record RecorderInvariant (rs : RecorderState) (rref : option RecorderId)
    (recs : list MediaRecorder) : Prop := {
  ri_attached :
    forall r, rref = Some r ->
      exists rec, recs !! r = Some rec /\ stopQueued rec = false /\ agree rs (rec_state rec);
  ri_pending : rs <> idle -> rref = None -> exists r, queuedIn recs r
}.

(** The object URLs that are not revoked. *)
Record UrlInvariant (url : option Url) (urls : list (option Blob)) : Prop := {
  ui_live : forall u, url = Some u -> exists b, urls !! u = Some (Some b);
  ui_only : forall u b, urls !! u = Some (Some b) -> url = Some u
}.

Definition Steady (st : Studio) : Prop :=
  TimerInvariant st.[recorderState] st.[timerRef] st.[elapsedSeconds] st.{intervals}
  /\ RecorderInvariant st.[recorderState] st.[recorderRef] st.{recorders}
  /\ UrlInvariant st.[recordedUrl] st.{objectUrls}.

(** *** A browser without a supported format *)

(** The recorder of the browser supports none of the three formats. *)
Definition unsupported (st : Studio) : Prop :=
  forall type, In type supportedTypes -> st.{isTypeSupported} type = false.

(** No recorder was ever made, and there is no artifact. *)
Definition neverRecorded (st : Studio) : Prop :=
  st.{recorders} = [] /\ st.[recordedUrl] = None.

(** ** The rest of the component: the buttons of the recording and export panels *)

Inductive Control := recordButton | pauseButton | stopButton | downloadButton.

(** The [disabled] attribute of each button, as rendered in state [st];
    [!recordedUrl] is the test for null, a URL being a non-empty string. *)
Definition disabled (c : Control) (st : Studio) : bool :=
  match c with
  | recordButton =>
      negb st.[isStudioReady] || negb (bool_decide (st.[recorderState] = idle))
  | pauseButton => bool_decide (st.[recorderState] = idle)
  | stopButton => bool_decide (st.[recorderState] = idle)
  | downloadButton =>
      match st.[recordedUrl] with
      | Some _ => false
      | None => true
      end
  end.

(** The [onClick] of each button, as rendered in state [st]. *)
Definition onClick (c : Control) (st : Studio) : Event :=
  match c with
  | recordButton => BeginCountdown
  | pauseButton =>
      if decide (st.[recorderState] = paused) then ResumeRecording else PauseRecording
  | stopButton => StopRecording
  | downloadButton => DownloadRecording
  end.

(** ** Proof tactics *)

(** Split a state into its fields. *)
Ltac open_state st :=
  let ss := fresh "ss" in
  let bb := fresh "bb" in
  destruct st as [ss bb]; destruct ss, bb; cbn in *.

(** Compute the projections of setters and browser primitives, and nothing
    else. *)
Ltac fields :=
  cbn [session browser onSession onBrowser
       setRecorderState setRecordedUrl setError setIsStudioReady setCountdown
       setElapsedSeconds setOverlayText setProjectTitle setCaptureSource
       setIncludeMicrophone setShowOverlay setRecorderRef setStreamRef setTimerRef
       setStreams setRecorders setIntervals setObjectUrls setAwaiting
       setVideoSrcObject setPendingPlays setConsole setDownloads
       recorderState recordedUrl error isStudioReady countdown elapsedSeconds
       overlayText projectTitle captureSource includeMicrophone showOverlay
       recorderRef streamRef timerRef
       streams recorders intervals objectUrls awaiting video_srcObject pendingPlays
       console downloads isTypeSupported
       stopAllTracks addTracks clearInterval updRecorder suspend revokeObjectURL
       allocStream createObjectURL setInterval attachStreamToVideo fst snd] in *.

(* ===================================================================== *)
(** * Properties *)
(* ===================================================================== *)

(** ** Export file name *)

Lemma replaceRuns_cons c rest :
  replaceRuns (c :: rest) =
  if allowedChar c then c :: replaceRuns rest else underscore :: skipRun rest.
Proof. reflexivity. Qed.

Lemma skipRun_cons d r :
  skipRun (d :: r) = if allowedChar d then d :: replaceRuns r else skipRun r.
Proof. reflexivity. Qed.

Lemma skipRun_run r s :
  noneAllowed r -> runEnds s -> skipRun (r ++ s) = replaceRuns s.
Proof.
  intros Hr Hs. induction Hr as [|d r Hd Hr IH].
  - destruct s as [|e s]; [reflexivity|].
    cbn [app]. simpl in Hs. now rewrite skipRun_cons, replaceRuns_cons, Hs.
  - cbn [app]. now rewrite skipRun_cons, Hd.
Qed.

Lemma replaceRuns_word w s :
  allAllowed w -> replaceRuns (w ++ s) = w ++ replaceRuns s.
Proof.
  intros Hw. induction Hw as [|c w Hc Hw IH]; [reflexivity|].
  cbn [app]. now rewrite replaceRuns_cons, Hc, IH.
Qed.

Lemma replaceRuns_run r s :
  r <> [] -> noneAllowed r -> runEnds s ->
  replaceRuns (r ++ s) = underscore :: replaceRuns s.
Proof.
  intros Hne Hr Hs. destruct r as [|c r]; [congruence|].
  inversion Hr as [|? ? Hc Hr']; subst.
  cbn [app]. rewrite replaceRuns_cons, Hc. f_equal. now apply skipRun_run.
Qed.

Lemma replaceRuns_in_class s : allAllowed (replaceRuns s) /\ allAllowed (skipRun s).
Proof.
  unfold allAllowed. induction s as [|c rest [IH1 IH2]]; [split; constructor|].
  rewrite replaceRuns_cons, skipRun_cons.
  destruct (allowedChar c) eqn:Hc; split; auto.
Qed.

Lemma replaceRuns_nil_iff s : replaceRuns s = [] <-> s = [].
Proof.
  split; [|now intros ->].
  destruct s as [|c rest]; [reflexivity|].
  rewrite replaceRuns_cons. now destruct (allowedChar c).
Qed.

Lemma baseName_cases title :
  baseName title = if decide (title = []) then defaultBaseName else replaceRuns title.
Proof.
  unfold baseName. destruct (decide (title = [])) as [->|Hne]; [reflexivity|].
  destruct (replaceRuns title) eqn:E; [|reflexivity].
  exfalso. apply Hne. now apply replaceRuns_nil_iff.
Qed.

(** Claim C1, as amended.  The export operation saves the artifact under
    [baseName projectTitle] followed by [".webm"].  The base name is made of
    code units of the class [[A-Za-z0-9_-]] only; a stretch of the title
    inside the class is copied, and a maximal run of code units outside the
    class yields one underscore for the whole run.  The default base name
    ["video"] is used when the replaced title is empty, which is the case for
    the empty title and for no other. *)
Theorem C1_export_base_name (title : jsstring) :
  allAllowed (replaceRuns title)
  /\ (forall w r s,
        title = w ++ r ++ s -> allAllowed w -> r <> [] -> noneAllowed r -> runEnds s ->
        replaceRuns title = w ++ underscore :: replaceRuns s)
  /\ (allAllowed title -> replaceRuns title = title)
  /\ (replaceRuns title = [] <-> title = [])
  /\ baseName title = (if decide (title = []) then defaultBaseName else replaceRuns title)
  /\ (forall st url,
        st.[recordedUrl] = Some url -> st.[projectTitle] = title ->
        (downloadRecording st).{downloads}
        = st.{downloads} ++ [(url, baseName title ++ js ".webm")]).
Proof.
  split; [apply replaceRuns_in_class|].
  split.
  { intros w r s -> Hw Hne Hr Hs.
    rewrite replaceRuns_word by assumption. f_equal. now apply replaceRuns_run. }
  split.
  { intros H. rewrite <- (app_nil_r title) at 1.
    rewrite replaceRuns_word by assumption. apply app_nil_r. }
  split; [apply replaceRuns_nil_iff|].
  split; [apply baseName_cases|].
  intros st url Hu Ht. unfold downloadRecording. rewrite Hu, Ht.
  destruct st as [ss [? ? ? ? ? ? ? ? ? ?]]. reflexivity.
Qed.

Lemma C1_export_base_name_witness :
  replaceRuns (js "Project!! 2024") = js "Project" ++ underscore :: replaceRuns (js "2024")
  /\ (downloadRecording exportReady).{downloads} = [(0%nat, js "My_Project_2024.webm")].
Proof.
  split.
  - apply (proj1 (proj2 (C1_export_base_name (js "Project!! 2024")))
             (js "Project") (js "!! ") (js "2024")).
    + reflexivity.
    + unfold allAllowed. repeat constructor.
    + discriminate.
    + unfold noneAllowed. repeat constructor.
    + reflexivity.
  - apply (proj2 (proj2 (proj2 (proj2 (proj2
             (C1_export_base_name (js "My Project!! 2024")))))) exportReady 0%nat).
    + reflexivity.
    + reflexivity.
Defined.

(** Claim C1, as stated, fails: the two exclamation marks and the space of
    ["My Project!! 2024"] give one underscore, not one each, and ["???"]
    gives ["_"], which is not empty, so the default name is not used. *)
Lemma C1_counterexample :
  baseName (js "My Project!! 2024") = js "My_Project_2024"
  /\ baseName (js "My Project!! 2024") <> js "My_Project__2024"
  /\ replaceRuns (js "My Project!! 2024") <> replaceEach (js "My Project!! 2024")
  /\ baseName (js "???") = js "_"
  /\ baseName (js "???") <> defaultBaseName.
Proof. repeat split; try reflexivity; discriminate. Qed.

(** ** Projections of the composite functions *)

Lemma commit_unchanged u st : st.[recordedUrl] = u -> commit u st = st.
Proof. intros H. unfold commit. now rewrite decide_True. Qed.

Lemma dispatch_unchanged e st :
  (handle e st).[recordedUrl] = st.[recordedUrl] -> dispatch e st = handle e st.
Proof. intros H. unfold dispatch. now apply commit_unchanged. Qed.

Lemma find_none_unsupported st :
  (forall type, In type supportedTypes -> st.{isTypeSupported} type = false) ->
  List.find st.{isTypeSupported} supportedTypes = None.
Proof.
  intros H. unfold supportedTypes in *. cbn.
  rewrite !H; cbn; auto.
Qed.

Lemma session_teardownStream st :
  session (teardownStream st) = session (setStreamRef None st).
Proof. unfold teardownStream. now destruct st.[streamRef]. Qed.

Lemma browser_teardownStream st :
  browser (teardownStream st)
  = browser (setStreams
               match st.[streamRef] with
               | Some sid => alter (map stopTrack) sid st.{streams}
               | None => st.{streams}
               end st).
Proof.
  unfold teardownStream. destruct st.[streamRef]; [reflexivity|].
  fields. now destruct (browser st).
Qed.

Lemma session_resetTimer st :
  session (resetTimer st) = session (setElapsedSeconds 0 (setTimerRef None st)).
Proof.
  unfold resetTimer. destruct st.[timerRef] eqn:E; [reflexivity|].
  fields. destruct (session st). cbn in *. now subst.
Qed.

Lemma browser_resetTimer st :
  browser (resetTimer st)
  = browser (setIntervals
               match st.[timerRef] with
               | Some h => alter cleared h st.{intervals}
               | None => st.{intervals}
               end st).
Proof.
  unfold resetTimer. destruct st.[timerRef]; [reflexivity|].
  fields. now destruct (browser st).
Qed.

Lemma session_startTimer st :
  session (startTimer st)
  = session (setTimerRef (Some (length st.{intervals})) (setElapsedSeconds 0 st)).
Proof.
  unfold startTimer. fields. rewrite browser_resetTimer. fields.
  rewrite session_resetTimer. fields.
  destruct st.[timerRef]; [now rewrite length_alter|reflexivity].
Qed.

Lemma browser_startTimer st :
  browser (startTimer st)
  = browser (setIntervals
               (match st.[timerRef] with
                | Some h => alter cleared h st.{intervals}
                | None => st.{intervals}
                end ++ [{| iv_active := true; iv_callback := ElapsedCallback |}]) st).
Proof.
  unfold startTimer. fields. rewrite browser_resetTimer. reflexivity.
Qed.

(** ** The effect clean-up *)

Lemma session_effectCleanup u st :
  session (effectCleanup u st)
  = session (setElapsedSeconds 0 (setTimerRef None (setStreamRef None st))).
Proof.
  unfold effectCleanup. rewrite session_resetTimer. fields.
  destruct u; fields; now rewrite session_teardownStream.
Qed.

Lemma objectUrls_effectCleanup u st :
  (effectCleanup u st).{objectUrls}
  = match u with
    | Some u => <[u := None]> st.{objectUrls}
    | None => st.{objectUrls}
    end.
Proof.
  unfold effectCleanup. rewrite browser_resetTimer. fields.
  destruct u; fields; now rewrite browser_teardownStream.
Qed.

Lemma recorders_effectCleanup u st : (effectCleanup u st).{recorders} = st.{recorders}.
Proof.
  unfold effectCleanup. rewrite browser_resetTimer. fields.
  destruct u; fields; now rewrite browser_teardownStream.
Qed.

Lemma intervals_effectCleanup u st :
  (effectCleanup u st).{intervals}
  = match st.[timerRef] with
    | Some h => alter cleared h st.{intervals}
    | None => st.{intervals}
    end.
Proof.
  unfold effectCleanup. rewrite browser_resetTimer. fields.
  destruct u; fields; rewrite session_teardownStream, browser_teardownStream; reflexivity.
Qed.

Lemma resolveUrl_commit before st u :
  st.[recordedUrl] = Some u ->
  resolveUrl u (commit before st) = resolveUrl u st.
Proof.
  intros Hu. unfold commit. destruct (decide _) as [|Hne]; [reflexivity|].
  unfold resolveUrl. rewrite objectUrls_effectCleanup.
  destruct before as [b|]; [|reflexivity].
  rewrite list_lookup_insert_ne; [reflexivity|]. congruence.
Qed.

Lemma state_commit before st :
  (commit before st).[recorderState] = st.[recorderState]
  /\ (commit before st).[recordedUrl] = st.[recordedUrl]
  /\ (commit before st).[error] = st.[error]
  /\ (commit before st).[isStudioReady] = st.[isStudioReady]
  /\ (commit before st).[countdown] = st.[countdown]
  /\ (commit before st).[recorderRef] = st.[recorderRef].
Proof.
  unfold commit. destruct (decide _); [repeat split|].
  rewrite session_effectCleanup. repeat split.
Qed.

Lemma recorders_commit before st : (commit before st).{recorders} = st.{recorders}.
Proof.
  unfold commit. destruct (decide _); [reflexivity|apply recorders_effectCleanup].
Qed.

(** ** Start without a stream *)

(** Claim C7.  When no stream is active, start-recording only stores the
    "no active source" message: the state afterwards is the state before with
    [error] replaced.  So [recorderState] is as before (idle stays idle), no
    recorder object is made or attached, no interval is installed, and the
    render that follows runs no effect clean-up. *)
Theorem C7_start_without_stream (url : option Url) (st : Studio) :
  st.[streamRef] = None ->
  let st' := startRecording url st in
  st' = setError (Some Msg.noSource) st
  /\ st'.[error] = Some Msg.noSource
  /\ st'.[recorderState] = st.[recorderState]
  /\ (st.[recorderState] = idle -> st'.[recorderState] = idle)
  /\ st'.[recorderRef] = st.[recorderRef]
  /\ st'.{recorders} = st.{recorders}
  /\ st'.[timerRef] = st.[timerRef]
  /\ st'.{intervals} = st.{intervals}
  /\ st'.[elapsedSeconds] = st.[elapsedSeconds]
  /\ commit st.[recordedUrl] st' = st'.
Proof.
  intros H st'. subst st'. unfold startRecording. rewrite H.
  open_state st. unfold commit. cbn. rewrite decide_True by reflexivity.
  repeat split; auto.
Qed.

Lemma C7_start_without_stream_witness :
  startRecording None (initial anyType) = setError (Some Msg.noSource) (initial anyType).
Proof.
  apply (C7_start_without_stream None (initial anyType)). reflexivity.
Defined.

(** ** Start with no supported format *)

(** The function by itself, in any state and for any [recordedUrl] in its
    closure: with a stream held and no format supported it stores the "WebM
    not supported" message and leaves the recording, the references and the
    browser's recorders, intervals and streams as they were; an artifact in
    its closure, were there one, would be revoked before the failure. *)
Lemma startRecording_unsupported (url : option Url) (st : Studio) (stream : StreamId) :
  st.[streamRef] = Some stream ->
  (forall type, In type supportedTypes -> st.{isTypeSupported} type = false) ->
  let st' := startRecording url st in
  st'.[error] = Some Msg.noWebm
  /\ st'.[recorderState] = st.[recorderState]
  /\ st'.[elapsedSeconds] = st.[elapsedSeconds]
  /\ st'.[countdown] = st.[countdown]
  /\ st'.[isStudioReady] = st.[isStudioReady]
  /\ st'.[recorderRef] = st.[recorderRef]
  /\ st'.[streamRef] = st.[streamRef]
  /\ st'.[timerRef] = st.[timerRef]
  /\ st'.{recorders} = st.{recorders}
  /\ st'.{intervals} = st.{intervals}
  /\ st'.{streams} = st.{streams}
  /\ (url = None ->
        st' = setError (Some Msg.noWebm) st
        /\ commit st.[recordedUrl] st' = st')
  /\ (forall u, url = Some u ->
        st' = setError (Some Msg.noWebm) (setRecordedUrl None (revokeObjectURL u st))
        /\ st'.[recordedUrl] = None
        /\ resolveUrl u st' = None
        /\ (st.[recordedUrl] = Some u ->
              (commit st.[recordedUrl] st').[recorderState] = st.[recorderState]
              /\ (commit st.[recordedUrl] st').[error] = Some Msg.noWebm
              /\ (commit st.[recordedUrl] st').[recordedUrl] = None
              /\ (commit st.[recordedUrl] st').[streamRef] = None
              /\ (commit st.[recordedUrl] st').[timerRef] = None
              /\ (commit st.[recordedUrl] st').[elapsedSeconds] = 0)).
Proof.
  intros Hs Hn st'.
  assert (E : forall s, s.{isTypeSupported} = st.{isTypeSupported} ->
                        createRecorder stream s = None).
  { intros s Hf. unfold createRecorder. rewrite Hf.
    now rewrite (find_none_unsupported st Hn). }
  assert (E' : st' = setError (Some Msg.noWebm)
                       match url with
                       | Some u => setRecordedUrl None (revokeObjectURL u st)
                       | None => st
                       end).
  { subst st'. unfold startRecording. rewrite Hs.
    rewrite E by (destruct url; reflexivity). reflexivity. }
  rewrite E'. clear E'.
  do 11 (split; [destruct url; reflexivity|]).
  split.
  - intros ->. split; [reflexivity|]. apply commit_unchanged. reflexivity.
  - intros u ->. split; [reflexivity|]. split; [reflexivity|]. split.
    + unfold resolveUrl. fields.
      destruct (decide (u < length st.{objectUrls})%nat) as [Hlt|Hge].
      * now rewrite list_lookup_insert_eq.
      * rewrite list_insert_ge by lia. rewrite lookup_ge_None_2 by lia. reflexivity.
    + intros Hu. unfold commit. rewrite Hu.
      rewrite decide_False by discriminate.
      rewrite session_effectCleanup. repeat split.
Qed.

(** ** The error message across operations *)

(** Stream acquisition clears [error] before anything else, for both sources. *)
Lemma prepareStudio_clears_error (source : CaptureSource) (mic : bool) (st : Studio) :
  (prepareStudio source mic st).[error] = None.
Proof.
  unfold prepareStudio. destruct source; fields; now rewrite session_teardownStream.
Qed.

Lemma startRecording_success (url : option Url) (st : Studio) (stream : StreamId)
    (type : string) :
  st.[streamRef] = Some stream ->
  List.find st.{isTypeSupported} supportedTypes = Some type ->
  (startRecording url st).[recorderRef] = Some (length st.{recorders})
  /\ (startRecording url st).{recorders}
     = st.{recorders} ++ [ {| rec_stream := stream; mimeType := type;
                              videoBitsPerSecond := 4000000; rec_state := rs_recording;
                              stopQueued := false; chunks := [] |} ].
Proof.
  intros Hs Hf. unfold startRecording. rewrite Hs.
  destruct url as [u|]; unfold createRecorder; fields; rewrite Hf;
    rewrite session_startTimer, browser_startTimer; split; reflexivity.
Qed.

(** Start-recording writes [error] on its two failing paths and nowhere
    else: where it succeeds the message of an earlier operation stays. *)
Lemma startRecording_keeps_error (url : option Url) (st : Studio) (stream : StreamId)
    (type : string) :
  st.[streamRef] = Some stream ->
  List.find st.{isTypeSupported} supportedTypes = Some type ->
  (startRecording url st).[recorderState] = recording
  /\ (startRecording url st).[error] = st.[error].
Proof.
  intros Hs Hf. unfold startRecording. rewrite Hs.
  destruct url as [u|]; unfold createRecorder; fields; rewrite Hf;
    rewrite session_startTimer; split; reflexivity.
Qed.

(** Claim C3 fails on the code for start-recording.  The studio is enabled,
    the preview's [play()] is rejected, which stores a message, and the
    countdown runs out: the recording starts, a recorder is attached, and
    the message stored before the start is still there. *)
Theorem C3_stale_error_survives_start :
  staleErrorBeforeStart.[recorderState] = idle
  /\ staleErrorBeforeStart.[error] = Some Msg.autoplay
  /\ (dispatch (Tick 0%nat) staleErrorBeforeStart).[recorderState] = recording
  /\ (dispatch (Tick 0%nat) staleErrorBeforeStart).[recorderRef] = Some 0%nat
  /\ (dispatch (Tick 0%nat) staleErrorBeforeStart).[error] = Some Msg.autoplay.
Proof. repeat split; vm_compute; reflexivity. Qed.

(** ** Begin countdown, refused *)

(** Claim C9.  While a countdown is shown, or while [recorderState] is not
    idle, begin-countdown returns at once: the whole state, browser tables
    included (so no interval is installed and no message stored), is what it
    was, also after the render that follows. *)
Theorem C9_begin_countdown_ignored (st : Studio) :
  st.[countdown] <> None \/ st.[recorderState] <> idle ->
  beginCountdown st = st /\ dispatch BeginCountdown st = st.
Proof.
  intros H.
  assert (E : beginCountdown st = st).
  { unfold beginCountdown. now rewrite decide_True. }
  split; [exact E|].
  unfold dispatch. cbn [handle]. rewrite E. now apply commit_unchanged.
Qed.

Lemma C9_begin_countdown_ignored_witness :
  beginCountdown (run [BeginCountdown] (initial anyType))
  = run [BeginCountdown] (initial anyType)
  /\ dispatch BeginCountdown (run [BeginCountdown] (initial anyType))
     = run [BeginCountdown] (initial anyType).
Proof.
  apply (C9_begin_countdown_ignored (run [BeginCountdown] (initial anyType))).
  left. discriminate.
Defined.

(** ** Screen capture when the microphone is refused *)

(** The rejection of the microphone request alone, at any state in which it
    is awaited: the screen stream is adopted as it is, the studio is ready,
    the warning is logged and [error] is not written. *)
Lemma microphone_rejection_only_logged (st : Studio) (p : nat) (sid : StreamId)
    (micErr : Thrown) :
  st.{awaiting} !! p = Some (Some (AwaitMicrophone sid)) ->
  let st' := dispatch (Settle p (Rejected micErr)) st in
  st'.[streamRef] = Some sid
  /\ st'.[isStudioReady] = true
  /\ st'.[error] = st.[error]
  /\ st'.{streams} = st.{streams}
  /\ st'.{video_srcObject} = Some sid
  /\ st'.{console} = st.{console} ++ [Warn Msg.micWarning micErr].
Proof.
  intros Hp st'. subst st'.
  rewrite dispatch_unchanged; cbn [handle]; rewrite Hp; cbn [prepareStudio_resume];
    unfold prepareStudio_finish; fields; [|reflexivity].
  repeat split; reflexivity.
Qed.

(** Claim C6.  Enable the studio with the screen as source and the
    microphone requested; let the screen request succeed with
    [screenStream] and the microphone request fail with any [micErr].  Then
    the studio is ready, the active stream is the screen stream with the
    tracks it came with (none added), [error] is null, and the failure is
    what was written to the console. *)
Theorem C6_microphone_failure (st : Studio) (screenStream : MediaStream) (micErr : Thrown) :
  st.[captureSource] = screen -> st.[includeMicrophone] = true ->
  let p := length st.{awaiting} in
  let sid := length st.{streams} in
  let st1 := dispatch EnableStudio st in
  let st2 := dispatch (Settle p (Fulfilled screenStream)) st1 in
  let st3 := dispatch (Settle (S p) (Rejected micErr)) st2 in
  st2.{awaiting} !! S p = Some (Some (AwaitMicrophone sid))
  /\ st3.[isStudioReady] = true
  /\ st3.[error] = None
  /\ st3.[streamRef] = Some sid
  /\ st3.{streams} !! sid = Some screenStream
  /\ st3.{video_srcObject} = Some sid
  /\ st3.{console} = st.{console} ++ [Warn Msg.micWarning micErr].
Proof.
  intros Hc Hm p sid st1 st2 st3.
  assert (E1 : st1 = prepareStudio screen true st).
  { subst st1. unfold dispatch. cbn [handle]. unfold handleEnableStudio.
    rewrite Hc, Hm. apply commit_unchanged. cbn. now destruct st.[streamRef]. }
  assert (A1 : st1.{awaiting} = st.{awaiting} ++ [Some (AwaitDisplay true)]).
  { rewrite E1. cbn. now destruct st.[streamRef]. }
  assert (S1 : length st1.{streams} = sid).
  { rewrite E1. subst sid. cbn. destruct st.[streamRef]; cbn; [|reflexivity].
    apply length_alter. }
  assert (E2 : st2 = suspend (AwaitMicrophone sid)
                       (setStreams (st1.{streams} ++ [screenStream])
                          (setAwaiting (<[p := None]> st1.{awaiting}) st1))).
  { subst st2. unfold dispatch. cbn [handle].
    rewrite A1. subst p. rewrite lookup_app_r, Nat.sub_diag by lia. cbn [lookup list_lookup].
    cbn [prepareStudio_resume allocStream]. cbn. rewrite S1. apply commit_unchanged. reflexivity. }
  assert (A2 : st2.{awaiting} !! S p = Some (Some (AwaitMicrophone sid))).
  { rewrite E2. fields. rewrite A1. subst p.
    rewrite lookup_app_r; rewrite length_insert, length_app; cbn [length]; [|lia].
    replace (_ - _)%nat with 0%nat by lia. reflexivity. }
  split; [exact A2|].
  subst st3. unfold dispatch. cbn [handle]. rewrite A2. cbn [prepareStudio_resume].
  rewrite commit_unchanged by (rewrite E2; reflexivity).
  rewrite E2. unfold prepareStudio_finish. fields.
  repeat split.
  - rewrite E1. unfold prepareStudio. fields. now rewrite session_teardownStream.
  - rewrite lookup_app_r by lia. rewrite S1, Nat.sub_diag. reflexivity.
  - rewrite E1. unfold prepareStudio. fields. now rewrite browser_teardownStream.
Qed.

Lemma C6_microphone_failure_witness :
  (run [EnableStudio; Settle 0%nat (Fulfilled screenOnly); Settle 1%nat (Rejected OtherValue)]
     (setCaptureSource screen (initial anyType))).[isStudioReady] = true
  /\ (run [EnableStudio; Settle 0%nat (Fulfilled screenOnly); Settle 1%nat (Rejected OtherValue)]
        (setCaptureSource screen (initial anyType))).[error] = None.
Proof.
  pose proof (C6_microphone_failure (setCaptureSource screen (initial anyType))
                screenOnly OtherValue eq_refl eq_refl) as H.
  cbv zeta in H.
  split; [exact (proj1 (proj2 H)) | exact (proj1 (proj2 (proj2 H)))].
Defined.

(** ** Stop *)

(** The recorder's [stop] event, delivered: the fragments collected so far
    become one blob under a new URL, and the state is idle. *)
Lemma finalize_recording (st : Studio) (r : RecorderId) (rec : MediaRecorder) :
  st.{recorders} !! r = Some rec -> stopQueued rec = true ->
  (dispatch (RecorderStopped r) st).[recorderState] = idle
  /\ (dispatch (RecorderStopped r) st).[recordedUrl] = Some (length st.{objectUrls})
  /\ resolveUrl (length st.{objectUrls}) (dispatch (RecorderStopped r) st)
     = Some (newBlob (chunks rec) (mimeType rec)).
Proof.
  intros R Q.
  assert (H : handle (RecorderStopped r) st
              = resetTimer (setRecorderState idle (setRecordedUrl (Some (length st.{objectUrls}))
                  (setObjectUrls (st.{objectUrls} ++ [Some (newBlob (chunks rec) (mimeType rec))])
                     (updRecorder r (withStopQueued false) st))))).
  { cbn [handle]. rewrite R, Q. unfold onstop. fields.
    rewrite list_lookup_alter_eq, R. reflexivity. }
  destruct (state_commit st.[recordedUrl] (handle (RecorderStopped r) st))
    as (C1 & C2 & _).
  unfold dispatch.
  split; [rewrite C1, H, session_resetTimer; reflexivity|].
  split; [rewrite C2, H, session_resetTimer; reflexivity|].
  rewrite resolveUrl_commit by (rewrite H, session_resetTimer; reflexivity).
  rewrite H. unfold resolveUrl. rewrite browser_resetTimer. fields.
  rewrite lookup_app_r, Nat.sub_diag by lia. reflexivity.
Qed.

(** Without an attached recorder the guard of stop fails, whatever
    [recorderState] is. *)
Lemma stop_without_recorder (st : Studio) :
  st.[recorderRef] = None -> stopRecording st = st /\ dispatch StopRecording st = st.
Proof.
  intros H. assert (E : stopRecording st = st) by (unfold stopRecording; now rewrite H).
  split; [exact E|]. unfold dispatch. cbn [handle]. rewrite E. now apply commit_unchanged.
Qed.

(** Claim C8, as amended.  When stop is invoked while a recorder is
    attached ([recorderRef] not null) and [recorderState] is recording or
    paused, the stream reference is cleared and every track of the stream it
    named is stopped, studio-ready is false and the countdown null, in the
    same way from both states.  [recorderState] and [recordedUrl] are not
    changed by stop itself: when the recorder's [stop] event arrives the state
    becomes idle and [recordedUrl] a new URL that resolves to the recorder's
    fragments put together.  In any state with no recorder attached, such as
    the state stop leaves behind until that event arrives, stop changes
    nothing. *)
Theorem C8_stop_releases_stream (st : Studio) (r : RecorderId) :
  st.[recorderRef] = Some r ->
  st.[recorderState] = recording \/ st.[recorderState] = paused ->
  let st' := dispatch StopRecording st in
  st'.[streamRef] = None
  /\ (forall sid, st.[streamRef] = Some sid ->
        st'.{streams} !! sid = map stopTrack <$> st.{streams} !! sid)
  /\ (forall sid s, st.[streamRef] = Some sid -> st'.{streams} !! sid = Some s ->
        Forall (fun t => live t = false) s)
  /\ st'.[isStudioReady] = false
  /\ st'.[countdown] = None
  /\ st'.[recorderRef] = None
  /\ st'.[recorderState] = st.[recorderState]
  /\ st'.[recordedUrl] = st.[recordedUrl]
  /\ (forall rec, st.{recorders} !! r = Some rec -> rec_state rec <> rs_inactive ->
        let st'' := dispatch (RecorderStopped r) st' in
        st''.[recorderState] = idle
        /\ st''.[recordedUrl] = Some (length st.{objectUrls})
        /\ resolveUrl (length st.{objectUrls}) st''
           = Some (newBlob (chunks rec) (mimeType rec)))
  /\ dispatch StopRecording st' = st'
  /\ (forall st0, st0.[recorderRef] = None -> dispatch StopRecording st0 = st0).
Proof.
  intros Hr Hs st'.
  assert (Hne : st.[recorderState] <> idle) by (destruct Hs as [-> | ->]; discriminate).
  assert (E : st' = setCountdown None (setIsStudioReady false (teardownStream
                 (setRecorderRef None (updRecorder r recorder_stop st))))).
  { subst st'. unfold dispatch. cbn [handle]. unfold stopRecording.
    rewrite Hr, decide_True by assumption.
    apply commit_unchanged. fields. now rewrite session_teardownStream. }
  assert (St : forall sid, st.[streamRef] = Some sid ->
                 st'.{streams} !! sid = map stopTrack <$> st.{streams} !! sid).
  { intros sid Hsid. rewrite E. fields. rewrite browser_teardownStream. fields.
    rewrite Hsid. apply list_lookup_alter_eq. }
  split; [rewrite E; fields; now rewrite session_teardownStream|].
  split; [exact St|].
  split.
  { intros sid s Hsid Hl. rewrite (St sid Hsid) in Hl.
    destruct (st.{streams} !! sid) as [s0|]; [|discriminate].
    injection Hl as <-. apply Forall_forall. intros t Ht.
    apply in_map_iff in Ht as (t0 & <- & _). reflexivity. }
  do 5 (split; [rewrite E; fields; rewrite ?session_teardownStream; reflexivity|]).
  split; [|split; [|intros st0 H0; now apply stop_without_recorder]].
  2:{ apply stop_without_recorder. rewrite E. fields.
      now rewrite session_teardownStream. }
  intros rec Hrec Hact st''.
  assert (R : st'.{recorders} !! r = Some (recorder_stop rec)).
  { rewrite E. fields. rewrite browser_teardownStream. fields.
    rewrite list_lookup_alter_eq, Hrec. reflexivity. }
  assert (Q : stopQueued (recorder_stop rec) = true /\
              chunks (recorder_stop rec) = chunks rec /\
              mimeType (recorder_stop rec) = mimeType rec).
  { unfold recorder_stop. destruct (rec_state rec); [congruence| |]; repeat split. }
  destruct Q as (Q1 & Q2 & Q3).
  assert (U : st'.{objectUrls} = st.{objectUrls}).
  { rewrite E. fields. rewrite browser_teardownStream. reflexivity. }
  destruct (finalize_recording st' r (recorder_stop rec) R Q1) as (F1 & F2 & F3).
  rewrite U, Q2, Q3 in *. repeat split; assumption.
Qed.

Lemma C8_stop_releases_stream_witness :
  (dispatch StopRecording (run toRecording (initial anyType))).[streamRef] = None
  /\ (dispatch StopRecording (run toRecording (initial anyType))).[isStudioReady] = false.
Proof.
  assert (Hr : (run toRecording (initial anyType)).[recorderRef] = Some 0%nat)
    by (vm_compute; reflexivity).
  assert (Hs : (run toRecording (initial anyType)).[recorderState] = recording
               \/ (run toRecording (initial anyType)).[recorderState] = paused)
    by (left; vm_compute; reflexivity).
  pose proof (C8_stop_releases_stream (run toRecording (initial anyType)) 0%nat Hr Hs) as H.
  cbv zeta in H.
  split; [exact (proj1 H) | exact (proj1 (proj2 (proj2 (proj2 H))))].
Defined.

(** Claim C8, as stated, fails between stop and the recorder's [stop] event:
    [recorderState] is still recording, no recorder is attached, and a stop
    invoked then releases nothing. *)
Lemma C8_counterexample :
  stopPending.[recorderState] = recording
  /\ stopPending.[streamRef] = Some 1%nat
  /\ stopPending.{streams} !! 1%nat = Some cameraStream
  /\ stopPending.[isStudioReady] = true
  /\ dispatch StopRecording stopPending = stopPending
  /\ (dispatch StopRecording stopPending).[streamRef] <> None
  /\ (dispatch StopRecording stopPending).[isStudioReady] <> false.
Proof.
  assert (E : dispatch StopRecording stopPending = stopPending).
  { apply stop_without_recorder. vm_compute. reflexivity. }
  rewrite E. repeat split; try (vm_compute; reflexivity); vm_compute; discriminate.
Qed.

(** ** The elapsed-time counter *)

Lemma pauseRecording_keeps_elapsed (st : Studio) :
  (pauseRecording st).[elapsedSeconds] = st.[elapsedSeconds].
Proof.
  unfold pauseRecording.
  destruct st.[recorderRef] as [r|]; [|reflexivity].
  destruct (decide _); [|reflexivity].
  destruct (_ ≫= _); [|reflexivity].
  fields. now destruct st.[timerRef].
Qed.

Lemma elapsedTick_increments (st : Studio) :
  (elapsedTick st).[elapsedSeconds] = st.[elapsedSeconds] + 1.
Proof. reflexivity. Qed.

Lemma startRecording_resets_elapsed (url : option Url) (st : Studio) (stream : StreamId)
    (type : string) :
  st.[streamRef] = Some stream ->
  List.find st.{isTypeSupported} supportedTypes = Some type ->
  (startRecording url st).[elapsedSeconds] = 0.
Proof.
  intros Hs Hf. unfold startRecording. rewrite Hs.
  destruct url as [u|]; unfold createRecorder; fields; rewrite Hf;
    now rewrite session_startTimer.
Qed.

(** Resume goes through [startTimer], hence through [resetTimer]: whenever
    resume takes effect the counter is back at 0. *)
Lemma resumeRecording_resets_elapsed (st : Studio) (r : RecorderId) (rec : MediaRecorder) :
  st.[recorderRef] = Some r -> st.[recorderState] = paused ->
  st.{recorders} !! r = Some rec -> rec_state rec <> rs_inactive ->
  (resumeRecording st).[recorderState] = recording
  /\ (resumeRecording st).[elapsedSeconds] = 0.
Proof.
  intros Hr Hs Hrec Hact. unfold resumeRecording.
  rewrite Hr, decide_True, Hrec by assumption. cbn [mbind option_bind].
  unfold recorder_resume. destruct (rec_state rec); [congruence| |];
    rewrite session_startTimer; split; reflexivity.
Qed.

(** Claim C4 fails on the code at resume.  Two seconds into a recording the
    counter is 2; pause keeps it at 2 and stops the ticks; resume, in the
    same recording and on the same recorder, puts the counter back to 0. *)
Theorem C4_resume_resets_elapsed :
  twoSecondsIn.[recorderState] = recording
  /\ twoSecondsIn.[elapsedSeconds] = 2
  /\ (dispatch PauseRecording twoSecondsIn).[recorderState] = paused
  /\ (dispatch PauseRecording twoSecondsIn).[elapsedSeconds] = 2
  /\ (dispatch (Tick 1%nat) (dispatch PauseRecording twoSecondsIn)).[elapsedSeconds] = 2
  /\ (dispatch ResumeRecording (dispatch PauseRecording twoSecondsIn)).[recorderState]
     = recording
  /\ (dispatch ResumeRecording (dispatch PauseRecording twoSecondsIn)).[recorderRef]
     = twoSecondsIn.[recorderRef]
  /\ (dispatch ResumeRecording (dispatch PauseRecording twoSecondsIn)).[elapsedSeconds] = 0.
Proof. repeat split; vm_compute; reflexivity. Qed.

(** ** Fragments *)

Lemma recorders_prepareStudio source mic st :
  (prepareStudio source mic st).{recorders} = st.{recorders}.
Proof.
  unfold prepareStudio. destruct source; fields; now rewrite browser_teardownStream.
Qed.

Lemma recorders_prepareStudio_resume k result st :
  (prepareStudio_resume k result st).{recorders} = st.{recorders}.
Proof.
  unfold prepareStudio_resume, prepareStudio_finish, prepareStudio_catch.
  destruct k as [|mic|sid], result as [s|err]; fields;
    rewrite ?browser_teardownStream; try reflexivity.
  destruct mic; reflexivity.
Qed.

Lemma recorders_startRecording url st :
  exists extra, (startRecording url st).{recorders} = st.{recorders} ++ extra.
Proof.
  unfold startRecording.
  destruct st.[streamRef] as [stream|]; [|exists []; fields; now rewrite app_nil_r].
  unfold createRecorder.
  destruct url as [u|]; fields; destruct (List.find _ _);
    first [ rewrite browser_startTimer; fields; eexists; reflexivity
          | exists []; fields; now rewrite app_nil_r ].
Qed.

Lemma sameRecording_refl rec : sameRecording rec rec [].
Proof. split; [reflexivity|now rewrite app_nil_r]. Qed.

Lemma kept_alter (f : MediaRecorder -> MediaRecorder) (l : list MediaRecorder) r0 r rec :
  (forall x, mimeType (f x) = mimeType x /\ chunks (f x) = chunks x) ->
  l !! r = Some rec ->
  exists rec', alter f r0 l !! r = Some rec' /\ sameRecording rec rec' [].
Proof.
  intros Hf Hl. destruct (decide (r0 = r)) as [->|Hne].
  - rewrite list_lookup_alter_eq, Hl. eexists; split; [reflexivity|].
    destruct (Hf rec) as [H1 H2]. split; [exact H1|now rewrite app_nil_r].
  - rewrite list_lookup_alter_ne by assumption.
    exists rec; split; [assumption|apply sameRecording_refl].
Qed.

Lemma kept_app (l extra : list MediaRecorder) r rec :
  l !! r = Some rec ->
  exists rec', (l ++ extra) !! r = Some rec' /\ sameRecording rec rec' [].
Proof.
  intros Hl. exists rec. split; [now apply lookup_app_l_Some|apply sameRecording_refl].
Qed.

Lemma kept_insert (l : list MediaRecorder) r0 rec0 new r rec :
  l !! r0 = Some rec0 -> mimeType new = mimeType rec0 -> chunks new = chunks rec0 ->
  l !! r = Some rec ->
  exists rec', <[r0 := new]> l !! r = Some rec' /\ sameRecording rec rec' [].
Proof.
  intros H0 Hm Hc Hl. destruct (decide (r0 = r)) as [->|Hne].
  - rewrite list_lookup_insert_eq by (eapply lookup_lt_Some; eassumption).
    exists new. split; [reflexivity|]. rewrite Hl in H0. injection H0 as <-.
    split; [assumption|now rewrite app_nil_r].
  - rewrite list_lookup_insert_ne by assumption.
    exists rec; split; [assumption|apply sameRecording_refl].
Qed.

Lemma fragments_step (e : Event) (st : Studio) (r : RecorderId) (rec : MediaRecorder) :
  st.{recorders} !! r = Some rec ->
  exists rec', (dispatch e st).{recorders} !! r = Some rec'
               /\ sameRecording rec rec' (arrival r e).
Proof.
  intros Hl. unfold dispatch. rewrite recorders_commit.
  assert (K : exists rec', st.{recorders} !! r = Some rec' /\ sameRecording rec rec' [])
    by (exists rec; split; [assumption|apply sameRecording_refl]).
  destruct e; cbn [handle]; unfold arrival; cbn [fragmentsOf List.filter].
  - unfold handleEnableStudio. now rewrite recorders_prepareStudio.
  - unfold handleSelectSource. destruct st.[isStudioReady];
      [rewrite recorders_prepareStudio|]; exact K.
  - unfold handleToggleMicrophone. destruct st.[isStudioReady];
      [rewrite recorders_prepareStudio|]; exact K.
  - exact K.
  - exact K.
  - exact K.
  - unfold beginCountdown. destruct (decide _); exact K.
  - unfold pauseRecording.
    destruct st.[recorderRef] as [r0|]; [|exact K].
    destruct (decide _); [|exact K].
    destruct (st.{recorders} !! r0) as [rec0|] eqn:E0; [|exact K].
    cbn [mbind option_bind]. unfold recorder_pause.
    destruct (rec_state rec0) eqn:Es; [exact K| |]; fields;
      destruct st.[timerRef]; fields; eapply kept_insert; eauto.
  - unfold resumeRecording.
    destruct st.[recorderRef] as [r0|]; [|exact K].
    destruct (decide _); [|exact K].
    destruct (st.{recorders} !! r0) as [rec0|] eqn:E0; [|exact K].
    cbn [mbind option_bind]. unfold recorder_resume.
    destruct (rec_state rec0) eqn:Es; [exact K| |];
      rewrite browser_startTimer; fields; eapply kept_insert; eauto.
  - unfold stopRecording.
    destruct st.[recorderRef] as [r0|]; [|exact K].
    destruct (decide _); [|exact K].
    fields. rewrite browser_teardownStream. fields.
    apply kept_alter; [|assumption].
    intros x. unfold recorder_stop. destruct (rec_state x); split; reflexivity.
  - unfold downloadRecording. destruct st.[recordedUrl]; exact K.
  - destruct (st.{awaiting} !! p) as [[k|]|]; try exact K.
    rewrite recorders_prepareStudio_resume. exact K.
  - destruct st.{pendingPlays}; exact K.
  - unfold ondataavailable, nonEmpty.
    destruct (decide (r0 = r)) as [->|Hne].
    + cbn [List.filter]. unfold nonEmpty.
      destruct (0 <? blob_size data); [|exact K].
      fields. rewrite list_lookup_alter_eq, Hl. eexists. split; [reflexivity|].
      split; reflexivity.
    + destruct (0 <? blob_size data); [|exact K].
      fields. rewrite list_lookup_alter_ne by assumption. exact K.
  - destruct (st.{recorders} !! r0) as [rec0|] eqn:E0; [|exact K].
    destruct (stopQueued rec0); [|exact K].
    unfold onstop. fields. rewrite list_lookup_alter_eq, E0.
    cbn [fmap option_fmap option_map].
    rewrite browser_resetTimer. fields.
    apply kept_alter; [|assumption]. intros x; split; reflexivity.
  - destruct (st.{intervals} !! h) as [iv|]; [|exact K].
    destruct (iv_active iv); [|exact K].
    destruct (iv_callback iv) as [|remaining captured]; [exact K|].
    unfold countdownTick.
    destruct (_ <=? 0); [|exact K].
    match goal with
    | |- context [ (startRecording ?u ?s).{recorders} ] =>
        destruct (recorders_startRecording u s) as [extra ->]
    end.
    fields. now apply kept_app.
Qed.

Lemma fragmentsOf_cons r e es : fragmentsOf r (e :: es) = fragmentsOf r [e] ++ fragmentsOf r es.
Proof.
  destruct e; try reflexivity. cbn [fragmentsOf]. now destruct (decide _).
Qed.

(** Over any run of events, the fragments of a recorder grow by exactly the
    non-empty fragments delivered to it, in the order of delivery. *)
Lemma fragments_run (es : list Event) (st : Studio) (r : RecorderId) (rec : MediaRecorder) :
  st.{recorders} !! r = Some rec ->
  exists rec', (run es st).{recorders} !! r = Some rec'
               /\ sameRecording rec rec' (List.filter nonEmpty (fragmentsOf r es)).
Proof.
  revert st rec. induction es as [|e es IH]; intros st rec Hl.
  - exists rec. split; [assumption|apply sameRecording_refl].
  - destruct (fragments_step e st r rec Hl) as (rec1 & H1 & Hm1 & Hc1).
    destruct (IH (dispatch e st) rec1 H1) as (rec2 & H2 & Hm2 & Hc2).
    exists rec2. split; [exact H2|]. split; [congruence|].
    rewrite Hc2, Hc1, fragmentsOf_cons, List.filter_app, app_assoc. reflexivity.
Qed.

(** Empty fragments add nothing to the bytes. *)
Lemma concat_nonEmpty (fs : list Blob) :
  concat (map blob_data (List.filter nonEmpty fs)) = concat (map blob_data fs).
Proof.
  induction fs as [|f fs IH]; [reflexivity|].
  change (List.filter nonEmpty (f :: fs))
    with (if nonEmpty f then f :: List.filter nonEmpty fs else List.filter nonEmpty fs).
  change (concat (map blob_data (f :: fs)))
    with (blob_data f ++ concat (map blob_data fs)).
  unfold nonEmpty at 1, blob_size.
  destruct (blob_data f) as [|b bs] eqn:E.
  - change (0 <? Z.of_nat (length (@nil byte))) with false. cbv iota.
    rewrite IH. reflexivity.
  - replace (0 <? Z.of_nat (length (b :: bs))) with true
      by (symmetry; apply Z.ltb_lt; cbn [length]; lia).
    cbv iota.
    change (concat (map blob_data (f :: List.filter nonEmpty fs)))
      with (blob_data f ++ concat (map blob_data (List.filter nonEmpty fs))).
    rewrite IH, E. reflexivity.
Qed.

(** Claim C5.  Let the last tick of a countdown start a recording (a stream
    is active and a format supported): a recorder [r] is attached with no
    fragment yet.  After any events [es], the fragments held for [r] are the
    non-empty ones among those that [es] delivered to [r], in the order of
    delivery.  When the recorder's [stop] event is then due and delivered,
    [recordedUrl] resolves to a blob whose bytes are those fragments one
    after the other, which are also the bytes of all delivered fragments one
    after the other. *)
Theorem C5_fragments_in_arrival_order (st0 : Studio) (h : IntervalId)
    (captured : option Url) (stream : StreamId) (type : string) (es : list Event) :
  st0.{intervals} !! h
  = Some {| iv_active := true; iv_callback := CountdownCallback 1 captured |} ->
  st0.[streamRef] = Some stream ->
  List.find st0.{isTypeSupported} supportedTypes = Some type ->
  let r := length st0.{recorders} in
  let st1 := dispatch (Tick h) st0 in
  let st2 := run es st1 in
  let fs := fragmentsOf r es in
  st1.[recorderState] = recording
  /\ st1.[recorderRef] = Some r
  /\ (exists rec, st1.{recorders} !! r = Some rec /\ chunks rec = [])
  /\ (exists rec,
        st2.{recorders} !! r = Some rec
        /\ chunks rec = List.filter nonEmpty fs
        /\ (stopQueued rec = true ->
            exists url blob,
              (dispatch (RecorderStopped r) st2).[recordedUrl] = Some url
              /\ resolveUrl url (dispatch (RecorderStopped r) st2) = Some blob
              /\ blob_data blob = concat (map blob_data (List.filter nonEmpty fs))
              /\ blob_data blob = concat (map blob_data fs))).
Proof.
  intros Hh Hs Hf r st1 st2 fs.
  set (mid := setCountdown None (clearInterval h
                (setIntervals
                   (<[h := {| iv_active := true;
                              iv_callback := CountdownCallback (1 - 1) captured |}]>
                      st0.{intervals}) st0))).
  assert (H : handle (Tick h) st0 = startRecording captured mid).
  { cbn [handle]. rewrite Hh. reflexivity. }
  destruct (startRecording_keeps_error captured mid stream type Hs Hf) as [S1 _].
  destruct (startRecording_success captured mid stream type Hs Hf) as [S2 S3].
  destruct (state_commit st0.[recordedUrl] (handle (Tick h) st0))
    as (C1 & _ & _ & _ & _ & C6).
  assert (R1 : st1.{recorders} !! r
               = Some {| rec_stream := stream; mimeType := type;
                         videoBitsPerSecond := 4000000; rec_state := rs_recording;
                         stopQueued := false; chunks := [] |}).
  { subst st1. unfold dispatch. rewrite recorders_commit, H, S3.
    subst r mid. fields. rewrite lookup_app_r, Nat.sub_diag by lia. reflexivity. }
  split; [subst st1; unfold dispatch; rewrite C1, H; exact S1|].
  split; [subst st1; unfold dispatch; rewrite C6, H; exact S2|].
  split; [eexists; split; [exact R1|reflexivity]|].
  destruct (fragments_run es st1 r _ R1) as (rec & L & Hm & Hc).
  exists rec. split; [exact L|]. split; [exact Hc|].
  intros Q. destruct (finalize_recording st2 r rec L Q) as (_ & F2 & F3).
  eexists; eexists. split; [exact F2|]. split; [exact F3|].
  cbn [newBlob blob_data]. rewrite Hc. split; [reflexivity|apply concat_nonEmpty].
Qed.

Lemma C5_fragments_in_arrival_order_witness :
  exists rec,
    (run shortRecording (dispatch (Tick 0%nat) staleErrorBeforeStart)).{recorders} !! 0%nat
    = Some rec
    /\ chunks rec = [fragA; fragB; fragC].
Proof.
  assert (Hh : staleErrorBeforeStart.{intervals} !! 0%nat
               = Some {| iv_active := true; iv_callback := CountdownCallback 1 None |})
    by (vm_compute; reflexivity).
  assert (Hs : staleErrorBeforeStart.[streamRef] = Some 0%nat) by (vm_compute; reflexivity).
  assert (Hf : List.find staleErrorBeforeStart.{isTypeSupported} supportedTypes
               = Some "video/webm;codecs=vp9,opus") by (vm_compute; reflexivity).
  destruct (C5_fragments_in_arrival_order staleErrorBeforeStart 0%nat None 0%nat _
              shortRecording Hh Hs Hf) as (_ & _ & _ & rec & L & Hc & _).
  exists rec. split; [exact L | exact Hc].
Defined.

(** ** The invariant of the event loop *)

Section CoreInvariant.

Implicit Types (ivs : list Interval) (recs : list MediaRecorder).

Lemma countdownAt_cleared ivs h h' rem cap :
  countdownAt (alter cleared h ivs) h' rem cap -> countdownAt ivs h' rem cap /\ h' <> h.
Proof.
  unfold countdownAt. destruct (decide (h = h')) as [->|Hne].
  - rewrite list_lookup_alter_eq. destruct (ivs !! h'); cbn; discriminate.
  - rewrite list_lookup_alter_ne by assumption. auto.
Qed.

Lemma countdownAt_snoc ivs iv h rem cap :
  countdownAt (ivs ++ [iv]) h rem cap ->
  countdownAt ivs h rem cap
  \/ (h = length ivs /\ iv = {| iv_active := true; iv_callback := CountdownCallback rem cap |}).
Proof.
  unfold countdownAt. rewrite lookup_snoc_Some. intros [[_ H]|[H1 H2]]; auto.
Qed.

Lemma countdownAt_insert ivs h x h' rem cap :
  countdownAt (<[h := x]> ivs) h' rem cap ->
  (h' = h /\ x = {| iv_active := true; iv_callback := CountdownCallback rem cap |})
  \/ (h' <> h /\ countdownAt ivs h' rem cap).
Proof.
  unfold countdownAt. rewrite list_lookup_insert_Some.
  intros [(H1 & H2 & _)|[H1 H2]]; auto.
Qed.

Lemma queuedIn_alter (f : MediaRecorder -> MediaRecorder) recs r0 r :
  (forall x, stopQueued (f x) = stopQueued x) ->
  queuedIn (alter f r0 recs) r <-> queuedIn recs r.
Proof.
  intros Hf. unfold queuedIn. destruct (decide (r0 = r)) as [->|Hne].
  - rewrite list_lookup_alter_eq. destruct (recs !! r) as [x|]; cbn.
    + split; intros (rec & [= <-] & Hq); eexists; split; eauto; congruence.
    + split; intros (rec & ? & _); discriminate.
  - now rewrite list_lookup_alter_ne.
Qed.

Lemma queuedIn_insert recs r0 old new r :
  recs !! r0 = Some old -> stopQueued new = stopQueued old ->
  queuedIn (<[r0 := new]> recs) r <-> queuedIn recs r.
Proof.
  intros Ho Hq. unfold queuedIn. destruct (decide (r0 = r)) as [->|Hne].
  - rewrite list_lookup_insert_eq by (eapply lookup_lt_Some; eassumption).
    rewrite Ho. split; intros (rec & [= <-] & H); eexists; split; eauto; congruence.
  - now rewrite list_lookup_insert_ne.
Qed.

Lemma queuedIn_snoc recs new r :
  stopQueued new = false -> queuedIn (recs ++ [new]) r <-> queuedIn recs r.
Proof.
  intros Hn. unfold queuedIn. split.
  - intros (rec & Hl & Hq). apply lookup_snoc_Some in Hl as [[_ Hl]|[_ <-]];
      [eauto|congruence].
  - intros (rec & Hl & Hq). exists rec. split; [now apply lookup_app_l_Some|assumption].
Qed.

Lemma queuedIn_unqueue recs r0 r :
  queuedIn (alter (withStopQueued false) r0 recs) r -> queuedIn recs r /\ r <> r0.
Proof.
  unfold queuedIn. destruct (decide (r0 = r)) as [->|Hne].
  - rewrite list_lookup_alter_eq.
    destruct (recs !! r); cbn; [intros (rec & [= <-] & ?)|intros (rec & ? & _)];
      discriminate.
  - rewrite list_lookup_alter_ne by assumption. auto.
Qed.

Lemma queuedIn_stop recs r0 r :
  queuedIn (alter recorder_stop r0 recs) r -> queuedIn recs r \/ r = r0.
Proof.
  destruct (decide (r = r0)) as [->|Hne]; [auto|].
  unfold queuedIn. rewrite list_lookup_alter_ne by auto. auto.
Qed.

Lemma core_initial : CoreInvariant idle None None None None [] [].
Proof.
  split; unfold countdownAt, queuedIn; try discriminate.
  - intros _. split; [reflexivity|]. intros r (rec & H & _). discriminate.
  - intros r1 r2 (rec & H & _). discriminate.
Qed.

Variables (rs : RecorderState) (cd : option Z) (url : option Url)
  (rref : option RecorderId) (tref : option IntervalId).
Variables (ivs : list Interval) (recs : list MediaRecorder).
Hypothesis inv : CoreInvariant rs cd url rref tref ivs recs.

(** The recorders may change as long as the same ones have a [stop] event due. *)
Lemma core_recorders recs' :
  (forall r, queuedIn recs' r <-> queuedIn recs r) ->
  CoreInvariant rs cd url rref tref ivs recs'.
Proof.
  intros Hq. destruct inv. split; auto.
  - intros H. specialize (inv_idle0 H). split; [tauto|]. intros r. rewrite Hq. apply inv_idle0.
  - intros r' H r. rewrite Hq. eauto.
  - intros r1 r2. rewrite !Hq. auto.
Qed.

(** [clearInterval] on the elapsed-time interval, and the reference dropped. *)
Lemma core_clear_timer h :
  tref = Some h -> CoreInvariant rs cd url rref None (alter cleared h ivs) recs.
Proof.
  intros Ht. destruct inv. split; auto; try discriminate.
  - intros h1 rem cap H. apply countdownAt_cleared in H as [H _]. eauto.
  - intros h1 rem cap h2 rem' cap' H1 H2.
    apply countdownAt_cleared in H1 as [H1 _]. apply countdownAt_cleared in H2 as [H2 _].
    eauto.
  - intros Hc h1 rem cap H. apply countdownAt_cleared in H as [H _].
    eapply inv_no_countdown0; eauto.
Qed.

Lemma core_drop_timer : CoreInvariant rs cd url rref None ivs recs.
Proof. destruct inv. split; auto; discriminate. Qed.

(** [setInterval] with the elapsed-time callback, and the reference kept. *)
Lemma core_start_timer :
  CoreInvariant rs cd url rref (Some (length ivs))
    (ivs ++ [{| iv_active := true; iv_callback := ElapsedCallback |}]) recs.
Proof.
  destruct inv. split; auto.
  - intros h rem cap H. apply countdownAt_snoc in H as [H|[_ H]]; [eauto|discriminate].
  - intros h rem cap h' rem' cap' H1 H2.
    apply countdownAt_snoc in H1 as [H1|[_ H1]]; [|discriminate].
    apply countdownAt_snoc in H2 as [H2|[_ H2]]; [eauto|discriminate].
  - intros Hc h rem cap H. apply countdownAt_snoc in H as [H|[_ H]]; [|discriminate].
    eapply inv_no_countdown0; eauto.
  - intros h [= <-]. exists true. rewrite lookup_app_r, Nat.sub_diag by lia. reflexivity.
Qed.

(** [beginCountdown], past its guard. *)
Lemma core_begin :
  rs = idle -> cd = None ->
  CoreInvariant idle (Some COUNTDOWN_SECONDS) url rref tref
    (ivs ++ [{| iv_active := true; iv_callback := CountdownCallback COUNTDOWN_SECONDS url |}])
    recs.
Proof.
  intros Hi Hcd. destruct inv. unfold COUNTDOWN_SECONDS in *. split; auto; try discriminate.
  - intros h rem cap H. apply countdownAt_snoc in H as [H|[_ [= <- <-]]].
    + exfalso. eapply inv_no_countdown0; eauto.
    + unfold COUNTDOWN_SECONDS. repeat split; lia.
  - intros h rem cap h' rem' cap' H1 H2.
    apply countdownAt_snoc in H1 as [H1|[-> _]];
      [exfalso; eapply inv_no_countdown0; eauto|].
    apply countdownAt_snoc in H2 as [H2|[-> _]];
      [exfalso; eapply inv_no_countdown0; eauto|reflexivity].
  - intros h Ht. destruct (inv_timerRef0 h Ht) as [a Ha].
    exists a. now apply lookup_app_l_Some.
Qed.

(** A change of [recorderState] between two states other than idle. *)
Lemma core_not_idle rs' :
  rs <> idle -> rs' <> idle -> CoreInvariant rs' cd url rref tref ivs recs.
Proof.
  intros H H'. destruct inv. split; auto; try tauto.
  intros h rem cap Hc. destruct (inv_countdown0 h rem cap Hc) as [? _]. contradiction.
Qed.

(** [stopRecording], past its guard. *)
Lemma core_stop r :
  rs <> idle -> rref = Some r ->
  CoreInvariant rs None url None tref ivs (alter recorder_stop r recs).
Proof.
  intros H Hr. destruct inv.
  assert (N : forall h rem cap, ~ countdownAt ivs h rem cap).
  { intros h rem cap Hc. destruct (inv_countdown0 h rem cap Hc) as [? _]. contradiction. }
  split; auto; try tauto; try discriminate.
  - intros h rem cap Hc. destruct (N h rem cap Hc).
  - intros r1 r2 H1 H2.
    apply queuedIn_stop in H1 as [H1| ->]; [destruct (inv_attached0 r Hr _ H1)|].
    apply queuedIn_stop in H2 as [H2| ->]; [destruct (inv_attached0 r Hr _ H2)|].
    reflexivity.
Qed.

(** [onstop], for a recorder whose [stop] event is due. *)
Lemma core_finalize r url' :
  queuedIn recs r ->
  CoreInvariant idle cd url' rref tref ivs (alter (withStopQueued false) r recs).
Proof.
  intros Hq. destruct inv.
  assert (Hn : rs <> idle).
  { intros Hi. destruct (inv_idle0 Hi) as [_ Hn]. exact (Hn r Hq). }
  assert (N : forall h rem cap, ~ countdownAt ivs h rem cap).
  { intros h rem cap Hc. destruct (inv_countdown0 h rem cap Hc) as [? _]. contradiction. }
  assert (Q : forall r1, ~ queuedIn (alter (withStopQueued false) r recs) r1).
  { intros r1 H1. apply queuedIn_unqueue in H1 as [H1 Hne]. apply Hne. eauto. }
  split; auto.
  - intros h rem cap Hc. destruct (N h rem cap Hc).
  - intros _. split; [|exact Q].
    destruct rref as [r'|]; [|reflexivity]. destruct (inv_attached0 r' eq_refl r Hq).
  - intros r1 r2 H1. destruct (Q r1 H1).
Qed.

(** A countdown tick that is not the last. *)
Lemma core_tick h rem cap :
  countdownAt ivs h rem cap -> 0 < rem - 1 ->
  CoreInvariant rs (Some (rem - 1)) url rref tref
    (<[h := {| iv_active := true; iv_callback := CountdownCallback (rem - 1) cap |}]> ivs)
    recs.
Proof.
  intros Hc Hpos. destruct inv.
  destruct (inv_countdown0 h rem cap Hc) as (Hi & Hcd & Hb & Hu).
  split; auto; try discriminate.
  - intros h1 rem1 cap1 H1. apply countdownAt_insert in H1 as [[-> [= <- <-]]|[Hne H1]].
    + unfold COUNTDOWN_SECONDS in *. repeat split; auto; lia.
    + destruct Hne. eauto.
  - intros h1 rem1 cap1 h2 rem2 cap2 H1 H2.
    apply countdownAt_insert in H1 as [[-> _]|[Hne H1]]; [|destruct Hne; eauto].
    apply countdownAt_insert in H2 as [[-> _]|[Hne H2]]; [reflexivity|destruct Hne; eauto].
  - intros t Ht. destruct (inv_timerRef0 t Ht) as [a Ha]. exists a.
    rewrite list_lookup_insert_ne; [assumption|].
    intros ->. unfold countdownAt in Hc. congruence.
Qed.

(** The last countdown tick, before [startRecording]. *)
Lemma core_last_tick h rem cap x url' :
  countdownAt ivs h rem cap ->
  CoreInvariant rs None url' rref tref (alter cleared h (<[h := x]> ivs)) recs.
Proof.
  intros Hc. destruct inv.
  assert (N : forall h1 rem1 cap1,
             ~ countdownAt (alter cleared h (<[h := x]> ivs)) h1 rem1 cap1).
  { intros h1 rem1 cap1 H1. apply countdownAt_cleared in H1 as [H1 Hne].
    apply countdownAt_insert in H1 as [[-> _]|[_ H1]]; [congruence|].
    apply Hne. eauto. }
  split; auto.
  - intros h1 rem1 cap1 H1. destruct (N _ _ _ H1).
  - intros h1 rem1 cap1 h2 rem2 cap2 H1. destruct (N _ _ _ H1).
  - intros t Ht. destruct (inv_timerRef0 t Ht) as [a Ha]. exists a.
    assert (t <> h) by (intros ->; unfold countdownAt in Hc; congruence).
    rewrite list_lookup_alter_ne, list_lookup_insert_ne by auto. assumption.
Qed.

(** A new [recordedUrl], while no countdown is shown. *)
Lemma core_url url' : cd = None -> CoreInvariant rs cd url' rref tref ivs recs.
Proof.
  intros Hcd. destruct inv. split; auto.
  intros h rem cap Hc. destruct (inv_no_countdown0 Hcd h rem cap Hc).
Qed.

(** [startRecording], where it succeeds, up to [startTimer]. *)
Lemma core_attach new :
  rs = idle -> cd = None -> stopQueued new = false ->
  CoreInvariant recording cd url (Some (length recs)) tref ivs (recs ++ [new]).
Proof.
  intros Hi Hcd Hn. destruct inv. destruct (inv_idle0 Hi) as [_ Q].
  split; auto; try discriminate.
  - intros h rem cap Hc. destruct (inv_no_countdown0 Hcd h rem cap Hc).
  - intros _ _ r Hq. apply queuedIn_snoc in Hq; [|assumption]. exact (Q r Hq).
  - intros r1 r2 H1. apply queuedIn_snoc in H1; [|assumption]. destruct (Q r1 H1).
Qed.

End CoreInvariant.

(** *** The invariant on the states of the component *)

Create Rewrite HintDb studio.
#[local] Hint Rewrite session_teardownStream browser_teardownStream
  session_resetTimer browser_resetTimer session_startTimer browser_startTimer
  session_effectCleanup recorders_effectCleanup intervals_effectCleanup : studio.

Ltac rewrite_frames := autorewrite with studio in *.
Ltac norm := repeat first [ progress fields | progress rewrite_frames ].

Lemma invariant_commit (before : option Url) (st : Studio) :
  Invariant st -> Invariant (commit before st).
Proof.
  intros H. unfold commit. destruct (decide _); [assumption|].
  unfold Invariant in *. norm.
  destruct st.[timerRef] as [h|] eqn:Et.
  - eapply core_clear_timer; [eassumption|reflexivity].
  - eapply core_drop_timer; eassumption.
Qed.

Lemma invariant_prepareStudio source mic st :
  Invariant st -> Invariant (prepareStudio source mic st).
Proof.
  unfold Invariant, prepareStudio. destruct source; norm; auto.
Qed.

Lemma invariant_prepareStudio_resume k result st :
  Invariant st -> Invariant (prepareStudio_resume k result st).
Proof.
  unfold Invariant, prepareStudio_resume, prepareStudio_finish, prepareStudio_catch.
  destruct k as [|mic|sid], result as [s|err]; norm; auto.
  destruct mic; norm; auto.
Qed.

Lemma invariant_resetTimer st : Invariant st -> Invariant (resetTimer st).
Proof.
  unfold Invariant. intros H. norm.
  destruct st.[timerRef] as [h|] eqn:Et.
  - eapply core_clear_timer; [eassumption|reflexivity].
  - eapply core_drop_timer; eassumption.
Qed.

Lemma invariant_startTimer st : Invariant st -> Invariant (startTimer st).
Proof.
  unfold Invariant. intros H. norm.
  destruct st.[timerRef] as [h|] eqn:Et.
  - rewrite <- (length_alter cleared _ h) at 1.
    apply core_start_timer with (tref := None).
    eapply core_clear_timer; [eassumption|reflexivity].
  - now apply core_start_timer with (tref := None).
Qed.

Lemma invariant_startRecording (url : option Url) (st : Studio) :
  st.[recorderState] = idle -> st.[countdown] = None ->
  Invariant st -> Invariant (startRecording url st).
Proof.
  intros Hi Hcd H. unfold startRecording.
  destruct st.[streamRef] as [stream|]; [|exact H].
  set (st1 := match url with
              | Some u => setRecordedUrl None (revokeObjectURL u st)
              | None => st
              end).
  assert (H1 : Invariant st1 /\ st1.[recorderState] = idle /\ st1.[countdown] = None).
  { subst st1. destruct url as [u|]; [|auto]. split; [|auto].
    unfold Invariant in *. norm. eapply core_url; eassumption. }
  destruct H1 as (H1 & Hi1 & Hcd1).
  destruct (createRecorder stream st1) as [recorder|] eqn:Ec; [|exact H1].
  assert (Hq : stopQueued recorder = false).
  { unfold createRecorder in Ec. destruct (List.find _ _); [|discriminate].
    now injection Ec as <-. }
  apply invariant_startTimer. unfold Invariant in *. norm.
  eapply core_attach; eauto.
Qed.

Lemma invariant_countdownTick (h : IntervalId) (rem : Z) (cap : option Url) (st : Studio) :
  countingDown st h rem cap -> Invariant st -> Invariant (countdownTick h rem cap st).
Proof.
  intros Hc H. unfold countdownTick.
  destruct (inv_countdown _ _ _ _ _ _ _ H h rem cap Hc) as (Hi & Hcd & Hb & Hu).
  destruct (rem - 1 <=? 0) eqn:E.
  - apply invariant_startRecording; [assumption|reflexivity|].
    unfold Invariant in *. norm. eapply core_last_tick; eassumption.
  - apply Z.leb_gt in E. unfold Invariant in *. norm.
    rewrite Hcd in H. eapply core_tick; eassumption.
Qed.

Lemma invariant_beginCountdown (st : Studio) :
  Invariant st -> Invariant (beginCountdown st).
Proof.
  intros H. unfold beginCountdown. destruct (decide _) as [|Hn]; [assumption|].
  assert (Hcd : st.[countdown] = None) by (destruct st.[countdown]; [destruct Hn; left; discriminate|reflexivity]).
  assert (Hi : st.[recorderState] = idle) by (destruct st.[recorderState]; [reflexivity|destruct Hn; right; discriminate..]).
  unfold Invariant in *. norm. rewrite Hi, Hcd in H. rewrite Hi.
  now apply core_begin with (rs := idle) (cd := None).
Qed.

Lemma invariant_pauseRecording (st : Studio) :
  Invariant st -> Invariant (pauseRecording st).
Proof.
  intros H. unfold pauseRecording.
  destruct st.[recorderRef] as [r|] eqn:Er; [|assumption].
  destruct (decide _) as [Hs|]; [|assumption].
  destruct (st.{recorders} !! r) as [rec|] eqn:El; [|assumption].
  cbn [mbind option_bind]. unfold recorder_pause.
  destruct (rec_state rec) eqn:Es; [assumption| |];
    (assert (X : Invariant (setRecorderState paused
                 (setRecorders (<[r := withRecState rs_paused rec]> st.{recorders}) st)));
     [ unfold Invariant in *; norm; rewrite Er;
       apply core_not_idle with (rs := st.[recorderState]); [|congruence|discriminate];
       rewrite <- Er; eapply core_recorders; [eassumption|];
       intros r1; eapply queuedIn_insert; [eassumption|reflexivity]
     | fields; destruct st.[timerRef] as [t|] eqn:Et; [|exact X];
       unfold Invariant in *; norm; rewrite Et in X;
       eapply core_clear_timer; [eassumption|reflexivity] ]).
Qed.

Lemma invariant_resumeRecording (st : Studio) :
  Invariant st -> Invariant (resumeRecording st).
Proof.
  intros H. unfold resumeRecording.
  destruct st.[recorderRef] as [r|] eqn:Er; [|assumption].
  destruct (decide _) as [Hs|]; [|assumption].
  destruct (st.{recorders} !! r) as [rec|] eqn:El; [|assumption].
  cbn [mbind option_bind]. unfold recorder_resume.
  destruct (rec_state rec) eqn:Es; [assumption| |];
    (apply invariant_startTimer; unfold Invariant in *; norm; rewrite Er;
     apply core_not_idle with (rs := st.[recorderState]); [|congruence|discriminate];
     rewrite <- Er; eapply core_recorders; [eassumption|];
     intros r1; eapply queuedIn_insert; [eassumption|reflexivity]).
Qed.

Lemma invariant_stopRecording (st : Studio) :
  Invariant st -> Invariant (stopRecording st).
Proof.
  intros H. unfold stopRecording.
  destruct st.[recorderRef] as [r|] eqn:Er; [|assumption].
  destruct (decide _) as [Hs|]; [|assumption].
  unfold Invariant in *. norm. eapply core_stop; eauto.
Qed.

Lemma invariant_onstop (r : RecorderId) (rec : MediaRecorder) (st : Studio) :
  st.{recorders} !! r = Some rec -> stopQueued rec = true ->
  Invariant st -> Invariant (onstop r (updRecorder r (withStopQueued false) st)).
Proof.
  intros Hl Hq H. unfold onstop. fields. rewrite list_lookup_alter_eq, Hl.
  cbn [fmap option_fmap option_map].
  apply invariant_resetTimer. unfold Invariant in *. norm.
  eapply core_finalize; [eassumption|]. exists rec. auto.
Qed.

Lemma invariant_handle (e : Event) (st : Studio) : Invariant st -> Invariant (handle e st).
Proof.
  intros H. destruct e; cbn [handle].
  - now apply invariant_prepareStudio.
  - unfold handleSelectSource. destruct st.[isStudioReady]; [|exact H].
    now apply invariant_prepareStudio.
  - unfold handleToggleMicrophone. destruct st.[isStudioReady]; [|exact H].
    now apply invariant_prepareStudio.
  - exact H.
  - exact H.
  - exact H.
  - now apply invariant_beginCountdown.
  - now apply invariant_pauseRecording.
  - now apply invariant_resumeRecording.
  - now apply invariant_stopRecording.
  - unfold downloadRecording. destruct st.[recordedUrl]; exact H.
  - destruct (st.{awaiting} !! p) as [[k|]|]; try exact H.
    now apply invariant_prepareStudio_resume.
  - destruct st.{pendingPlays}; exact H.
  - unfold ondataavailable. destruct (0 <? blob_size data); [|exact H].
    unfold Invariant in *. norm. eapply core_recorders; [eassumption|].
    intros r1. now apply queuedIn_alter.
  - destruct (st.{recorders} !! r) as [rec|] eqn:El; [|exact H].
    destruct (stopQueued rec) eqn:Eq; [|exact H].
    eapply invariant_onstop; eassumption.
  - destruct (st.{intervals} !! h) as [[a cb]|] eqn:El; [|exact H].
    cbn [iv_active iv_callback]. destruct a; [|exact H].
    destruct cb as [|rem cap]; [exact H|].
    now apply invariant_countdownTick.
Qed.

Lemma invariant_dispatch (e : Event) (st : Studio) : Invariant st -> Invariant (dispatch e st).
Proof. intros H. unfold dispatch. now apply invariant_commit, invariant_handle. Qed.

Lemma invariant_run (es : list Event) (st : Studio) : Invariant st -> Invariant (run es st).
Proof.
  revert st. induction es as [|e es IH]; intros st H; [exact H|].
  apply IH. now apply invariant_dispatch.
Qed.

Lemma invariant_reachable (st : Studio) : reachable st -> Invariant st.
Proof.
  intros (supported & es & ->). apply invariant_run. exact core_initial.
Qed.

(** ** The countdown *)

Lemma intervals_prepareStudio source mic st :
  (prepareStudio source mic st).{intervals} = st.{intervals}
  /\ (prepareStudio source mic st).[recordedUrl] = st.[recordedUrl].
Proof. unfold prepareStudio. destruct source; norm; auto. Qed.

Lemma intervals_prepareStudio_resume k result st :
  (prepareStudio_resume k result st).{intervals} = st.{intervals}
  /\ (prepareStudio_resume k result st).[recordedUrl] = st.[recordedUrl].
Proof.
  unfold prepareStudio_resume, prepareStudio_finish, prepareStudio_catch.
  destruct k as [|mic|sid], result as [s|err]; norm; auto.
  destruct mic; norm; auto.
Qed.

(** While a countdown runs, an event other than its own tick leaves the
    intervals and [recordedUrl] alone. *)
Lemma quiet_handle (e : Event) (st : Studio) (h : IntervalId) (rem : Z) (cap : option Url) :
  Invariant st -> countingDown st h rem cap -> isTick h e = false ->
  (handle e st).{intervals} = st.{intervals}
  /\ (handle e st).[recordedUrl] = st.[recordedUrl].
Proof.
  intros H Hc He.
  destruct (inv_countdown _ _ _ _ _ _ _ H h rem cap Hc) as (Hi & Hcd & _).
  destruct (inv_idle _ _ _ _ _ _ _ H Hi) as [Hr Hq].
  destruct e; cbn [handle].
  - apply intervals_prepareStudio.
  - unfold handleSelectSource. destruct st.[isStudioReady]; [|norm; auto].
    destruct (intervals_prepareStudio source st.[includeMicrophone]
                (setCaptureSource source st)) as [-> ->]. norm. auto.
  - unfold handleToggleMicrophone. destruct st.[isStudioReady]; [|norm; auto].
    destruct (intervals_prepareStudio st.[captureSource] nextValue
                (setIncludeMicrophone nextValue st)) as [-> ->]. norm. auto.
  - norm; auto.
  - norm; auto.
  - norm; auto.
  - unfold beginCountdown. rewrite decide_True; [auto|]. left. congruence.
  - unfold pauseRecording. rewrite Hi. destruct st.[recorderRef]; auto.
  - unfold resumeRecording. rewrite Hi. destruct st.[recorderRef]; auto.
  - unfold stopRecording. rewrite Hi. destruct st.[recorderRef]; auto.
  - unfold downloadRecording. destruct st.[recordedUrl] eqn:Eu; norm; auto.
  - destruct (st.{awaiting} !! p) as [[k|]|]; auto.
    destruct (intervals_prepareStudio_resume k result
                (setAwaiting (<[p:=None]> st.{awaiting}) st)) as [-> ->]. norm. auto.
  - destruct st.{pendingPlays}; norm; auto.
  - unfold ondataavailable. destruct (0 <? blob_size data); norm; auto.
  - destruct (st.{recorders} !! r) as [rec|] eqn:El; auto.
    destruct (stopQueued rec) eqn:Eq; auto.
    destruct (Hq r). exists rec. auto.
  - destruct (st.{intervals} !! h0) as [[a cb]|] eqn:El; auto.
    cbn [iv_active iv_callback]. destruct a; auto.
    destruct cb as [|rem' cap']; [unfold elapsedTick; norm; auto|].
    assert (h0 = h) as -> by (eapply (inv_single _ _ _ _ _ _ _ H); eassumption).
    cbn [isTick] in He. rewrite Nat.eqb_refl in He. discriminate.
Qed.

Lemma quiet_dispatch (e : Event) (st : Studio) (h : IntervalId) (rem : Z) (cap : option Url) :
  Invariant st -> countingDown st h rem cap -> isTick h e = false ->
  countingDown (dispatch e st) h rem cap.
Proof.
  intros H Hc He. destruct (quiet_handle e st h rem cap H Hc He) as [Hi Hu].
  unfold countingDown. rewrite dispatch_unchanged, Hi by assumption. exact Hc.
Qed.

(** The tick of a running countdown. *)
Lemma countdown_tick (st : Studio) (h : IntervalId) (rem : Z) (cap : option Url) :
  countingDown st h rem cap ->
  (1 < rem ->
     countingDown (dispatch (Tick h) st) h (rem - 1) cap
     /\ (dispatch (Tick h) st).[countdown] = Some (rem - 1))
  /\ (rem <= 1 ->
        dispatch (Tick h) st
        = commit st.[recordedUrl]
            (startRecording cap
               (setCountdown None
                  (clearInterval h
                     (setIntervals
                        (<[h := {| iv_active := true;
                                   iv_callback := CountdownCallback (rem - 1) cap |}]>
                           st.{intervals}) st))))).
Proof.
  intros Hc. unfold dispatch. cbn [handle]. rewrite Hc. cbn [iv_active iv_callback].
  unfold countdownTick. split; intros Hr.
  - replace (rem - 1 <=? 0) with false by (symmetry; apply Z.leb_gt; lia).
    rewrite commit_unchanged by reflexivity. unfold countingDown, countdownAt. norm.
    split; [|reflexivity].
    apply list_lookup_insert_eq. eapply lookup_lt_Some. exact Hc.
  - replace (rem - 1 <=? 0) with true by (symmetry; apply Z.leb_le; lia).
    reflexivity.
Qed.

Lemma ticksOf_cons h e es :
  ticksOf h (e :: es) = (if isTick h e then 1 else 0) + ticksOf h es.
Proof.
  unfold ticksOf. cbn [List.filter]. destruct (isTick h e); cbn [length]; lia.
Qed.

(** Whatever happens, a running countdown loses one per tick and nothing
    else: as long as fewer ticks than [rem] have come it is still running. *)
Lemma countdown_run (es : list Event) (st : Studio) (h : IntervalId) (rem : Z)
    (cap : option Url) :
  Invariant st -> countingDown st h rem cap -> ticksOf h es < rem ->
  countingDown (run es st) h (rem - ticksOf h es) cap.
Proof.
  revert st rem. induction es as [|e es IH]; intros st rem H Hc Ht.
  - unfold ticksOf. cbn. now rewrite Z.sub_0_r.
  - rewrite ticksOf_cons in *. cbn [run fold_left].
    pose proof (invariant_dispatch e st H) as H'.
    destruct (isTick h e) eqn:He.
    + destruct e; try discriminate. cbn [isTick] in He. apply Nat.eqb_eq in He as ->.
      assert (0 <= ticksOf h es) by (unfold ticksOf; lia).
      destruct (countdown_tick st h rem cap Hc) as [Hdec _].
      destruct Hdec as [Hc' _]; [lia|].
      replace (rem - (1 + ticksOf h es)) with ((rem - 1) - ticksOf h es) by lia.
      apply (IH _ _ H' Hc'). lia.
    + replace (rem - (0 + ticksOf h es)) with (rem - ticksOf h es) by lia.
      apply (IH _ _ H' (quiet_dispatch e st h rem cap H Hc He)). lia.
Qed.

(** Begin-countdown, past its guard, installs a countdown of three ticks
    that closes over the current [recordedUrl]. *)
Lemma beginCountdown_starts (st : Studio) :
  st.[countdown] = None -> st.[recorderState] = idle ->
  countingDown (dispatch BeginCountdown st) (length st.{intervals}) COUNTDOWN_SECONDS
    st.[recordedUrl]
  /\ (dispatch BeginCountdown st).[countdown] = Some COUNTDOWN_SECONDS.
Proof.
  intros Hcd Hi. unfold dispatch. cbn [handle]. unfold beginCountdown.
  rewrite decide_False by (rewrite Hcd, Hi; intros [?|?]; congruence).
  rewrite commit_unchanged by reflexivity.
  unfold countingDown, countdownAt. norm.
  rewrite lookup_app_r, Nat.sub_diag by lia. split; reflexivity.
Qed.

Lemma reachable_run (es : list Event) (st : Studio) : reachable st -> reachable (run es st).
Proof.
  intros (supported & es0 & ->). exists supported, (es0 ++ es).
  unfold run. now rewrite fold_left_app.
Qed.

(** In the idle state the guards of stop, pause and resume fail on
    [recorderState] alone, whatever [recorderRef] holds. *)
Lemma idle_guards_fail (st : Studio) :
  st.[recorderState] = idle ->
  dispatch StopRecording st = st
  /\ dispatch PauseRecording st = st
  /\ dispatch ResumeRecording st = st.
Proof.
  intros H. unfold dispatch. cbn [handle].
  unfold stopRecording, pauseRecording, resumeRecording. rewrite H.
  destruct st.[recorderRef]; repeat split; now apply commit_unchanged.
Qed.

(** Claim C10.  Take any state the event loop can reach in which a
    countdown is running, with [rem] ticks to go.  Then [recorderState] is
    idle, no recorder is attached and the countdown shown is [rem], between 1
    and 3; stop, pause and resume leave the state as it is.  After any events
    whatever, user operations included, of which fewer than [rem] are ticks
    of this countdown, the countdown is still running and has lost exactly
    one per tick.  A tick with more than one to go shows one less; the tick
    with one to go clears the interval and the countdown and calls
    [startRecording] with the current [recordedUrl]. *)
Theorem C10_countdown_runs_out (st : Studio) (h : IntervalId) (rem : Z) (cap : option Url) :
  reachable st -> countingDown st h rem cap ->
  st.[recorderState] = idle
  /\ st.[recorderRef] = None
  /\ st.[countdown] = Some rem
  /\ 1 <= rem <= COUNTDOWN_SECONDS
  /\ cap = st.[recordedUrl]
  /\ dispatch StopRecording st = st
  /\ dispatch PauseRecording st = st
  /\ dispatch ResumeRecording st = st
  /\ (forall es, ticksOf h es < rem ->
        reachable (run es st)
        /\ countingDown (run es st) h (rem - ticksOf h es) cap)
  /\ (1 < rem ->
        countingDown (dispatch (Tick h) st) h (rem - 1) cap
        /\ (dispatch (Tick h) st).[countdown] = Some (rem - 1))
  /\ (rem = 1 ->
        dispatch (Tick h) st
        = commit st.[recordedUrl]
            (startRecording st.[recordedUrl]
               (setCountdown None
                  (clearInterval h
                     (setIntervals
                        (<[h := {| iv_active := true;
                                   iv_callback := CountdownCallback 0 cap |}]>
                           st.{intervals}) st))))).
Proof.
  intros Hreach Hc. pose proof (invariant_reachable st Hreach) as H.
  destruct (inv_countdown _ _ _ _ _ _ _ H h rem cap Hc) as (Hi & Hcd & Hb & Hu).
  destruct (inv_idle _ _ _ _ _ _ _ H Hi) as [Hr _].
  destruct (countdown_tick st h rem cap Hc) as [Hdec Hlast].
  split; [exact Hi|]. split; [exact Hr|]. split; [exact Hcd|]. split; [exact Hb|].
  split; [exact Hu|].
  destruct (idle_guards_fail st Hi) as (G1 & G2 & G3).
  split; [exact G1|]. split; [exact G2|]. split; [exact G3|].
  split.
  { intros es Ht. split; [now apply reachable_run|now apply countdown_run]. }
  split; [exact Hdec|].
  intros ->. rewrite Hlast by lia. rewrite <- Hu. reflexivity.
Qed.

Lemma C10_countdown_runs_out_witness :
  (run [BeginCountdown] (initial anyType)).[recorderState] = idle
  /\ dispatch StopRecording (run [BeginCountdown] (initial anyType))
     = run [BeginCountdown] (initial anyType)
  /\ countingDown
       (run [EnableStudio; Tick 0%nat; StopRecording; PauseRecording; Tick 0%nat; BeginCountdown]
          (run [BeginCountdown] (initial anyType)))
       0%nat 1 None.
Proof.
  assert (Hr : reachable (run [BeginCountdown] (initial anyType)))
    by (exists anyType, [BeginCountdown]; reflexivity).
  assert (Hc : countingDown (run [BeginCountdown] (initial anyType)) 0%nat 3 None)
    by (vm_compute; reflexivity).
  pose proof (C10_countdown_runs_out (run [BeginCountdown] (initial anyType))
                0%nat 3 None Hr Hc) as (H1 & _ & _ & _ & _ & H2 & _ & _ & H3 & _).
  split; [exact H1|]. split; [exact H2|].
  apply (H3 [EnableStudio; Tick 0%nat; StopRecording; PauseRecording; Tick 0%nat;
             BeginCountdown]).
  vm_compute. reflexivity.
Defined.
(** ** Start with no supported format, in the states the page can reach *)

Ltac split_cases :=
  repeat match goal with
         | |- context [match ?x with _ => _ end] => destruct x eqn:?
         end.

(** No event changes what the browser's recorder supports. *)
Lemma capability_startRecording url st :
  (startRecording url st).{isTypeSupported} = st.{isTypeSupported}.
Proof.
  unfold startRecording, createRecorder. split_cases; norm; reflexivity.
Qed.

Lemma capability_prepareStudio source mic st :
  (prepareStudio source mic st).{isTypeSupported} = st.{isTypeSupported}.
Proof. unfold prepareStudio. destruct source; norm; reflexivity. Qed.

Lemma capability_handle (e : Event) (st : Studio) :
  (handle e st).{isTypeSupported} = st.{isTypeSupported}.
Proof.
  destruct e; cbn [handle].
  - apply capability_prepareStudio.
  - unfold handleSelectSource. destruct st.[isStudioReady]; [|reflexivity].
    now rewrite capability_prepareStudio.
  - unfold handleToggleMicrophone. destruct st.[isStudioReady]; [|reflexivity].
    now rewrite capability_prepareStudio.
  - reflexivity.
  - reflexivity.
  - reflexivity.
  - unfold beginCountdown. destruct (decide _); reflexivity.
  - unfold pauseRecording. split_cases; norm; reflexivity.
  - unfold resumeRecording. split_cases; norm; reflexivity.
  - unfold stopRecording. split_cases; norm; reflexivity.
  - unfold downloadRecording. split_cases; reflexivity.
  - destruct (st.{awaiting} !! p) as [[k|]|]; [|reflexivity..].
    destruct k, result; cbn [prepareStudio_resume]; unfold prepareStudio_finish,
      prepareStudio_catch; try destruct mic; norm; reflexivity.
  - destruct st.{pendingPlays}; reflexivity.
  - unfold ondataavailable. destruct (_ <? _); reflexivity.
  - destruct (st.{recorders} !! r) as [rec|]; [|reflexivity].
    destruct (stopQueued rec); [|reflexivity].
    unfold onstop. fields. destruct (alter _ r st.{recorders} !! r); [|reflexivity].
    norm. reflexivity.
  - destruct (st.{intervals} !! h) as [[a cb]|]; [|reflexivity].
    cbn [iv_active iv_callback]. destruct a; [|reflexivity].
    destruct cb as [|rem cap]; [reflexivity|].
    unfold countdownTick. destruct (_ <=? _); [|reflexivity].
    now rewrite capability_startRecording.
Qed.

Lemma capability_dispatch (e : Event) (st : Studio) :
  (dispatch e st).{isTypeSupported} = st.{isTypeSupported}.
Proof.
  unfold dispatch, commit. destruct (decide _); [apply capability_handle|].
  rewrite <- (capability_handle e st). unfold effectCleanup.
  rewrite browser_resetTimer. fields. destruct st.[recordedUrl]; fields;
    now rewrite browser_teardownStream.
Qed.

Lemma capability_run (es : list Event) (st : Studio) :
  (run es st).{isTypeSupported} = st.{isTypeSupported}.
Proof.
  revert st. induction es as [|e es IH]; intros st; [reflexivity|].
  cbn [run fold_left]. fold (run es (dispatch e st)).
  now rewrite IH, capability_dispatch.
Qed.

(** Where no format is supported a start fails, so no recorder is ever
    made, and with no recorder no artifact. *)
Lemma neverRecorded_startRecording url st :
  unsupported st -> neverRecorded st -> neverRecorded (startRecording url st).
Proof.
  intros Hn [Hr Hu]. unfold neverRecorded, startRecording, createRecorder.
  destruct st.[streamRef]; [|now split].
  destruct url; fields; rewrite (find_none_unsupported st Hn); now split.
Qed.

Lemma neverRecorded_prepareStudio source mic st :
  neverRecorded st -> neverRecorded (prepareStudio source mic st).
Proof.
  intros [Hr Hu]. unfold neverRecorded, prepareStudio. destruct source; norm; now split.
Qed.

Lemma neverRecorded_handle (e : Event) (st : Studio) :
  unsupported st -> neverRecorded st -> neverRecorded (handle e st).
Proof.
  intros Hn N. pose proof N as [Hr Hu].
  destruct e; cbn [handle].
  - now apply neverRecorded_prepareStudio.
  - unfold handleSelectSource. destruct st.[isStudioReady]; [|exact N].
    now apply neverRecorded_prepareStudio.
  - unfold handleToggleMicrophone. destruct st.[isStudioReady]; [|exact N].
    now apply neverRecorded_prepareStudio.
  - exact N.
  - exact N.
  - exact N.
  - unfold beginCountdown. destruct (decide _); exact N.
  - unfold pauseRecording. destruct st.[recorderRef]; [|exact N].
    destruct (decide _); [|exact N]. rewrite Hr, lookup_nil. exact N.
  - unfold resumeRecording. destruct st.[recorderRef]; [|exact N].
    destruct (decide _); [|exact N]. rewrite Hr, lookup_nil. exact N.
  - unfold stopRecording. destruct st.[recorderRef]; [|exact N].
    destruct (decide _); [|exact N]. unfold neverRecorded. norm. rewrite Hr. now split.
  - unfold downloadRecording. rewrite Hu. exact N.
  - destruct (st.{awaiting} !! p) as [[k|]|]; [|exact N..].
    unfold neverRecorded.
    destruct k, result; cbn [prepareStudio_resume]; unfold prepareStudio_finish,
      prepareStudio_catch; try destruct mic; norm; now split.
  - destruct st.{pendingPlays}; [exact N|now split].
  - unfold ondataavailable. destruct (_ <? _); [|exact N].
    unfold neverRecorded. fields. rewrite Hr. now split.
  - rewrite Hr, lookup_nil. exact N.
  - destruct (st.{intervals} !! h) as [[a cb]|]; [|exact N].
    cbn [iv_active iv_callback]. destruct a; [|exact N].
    destruct cb as [|rem cap]; [now split|].
    unfold countdownTick. destruct (_ <=? _); [|now split].
    apply neverRecorded_startRecording; [exact Hn|now split].
Qed.

Lemma neverRecorded_dispatch (e : Event) (st : Studio) :
  unsupported st -> neverRecorded st -> neverRecorded (dispatch e st).
Proof.
  intros Hn N. pose proof (neverRecorded_handle e st Hn N) as [Hr Hu].
  unfold dispatch. destruct (state_commit st.[recordedUrl] (handle e st)) as (_ & E & _).
  split; [now rewrite recorders_commit|now rewrite E].
Qed.

Lemma neverRecorded_run (es : list Event) (st : Studio) :
  unsupported st -> neverRecorded st -> neverRecorded (run es st).
Proof.
  revert st. induction es as [|e es IH]; intros st Hn N; [exact N|].
  cbn [run fold_left]. fold (run es (dispatch e st)). apply IH.
  - unfold unsupported. now rewrite capability_dispatch.
  - now apply neverRecorded_dispatch.
Qed.

Lemma neverRecorded_reachable (st : Studio) :
  reachable st -> unsupported st -> neverRecorded st.
Proof.
  intros (supported & es & ->) Hn. apply neverRecorded_run.
  - unfold unsupported in *. now rewrite capability_run in Hn.
  - now split.
Qed.

(** Claim C2.  In every state the page can reach with a stream held and
    none of the three formats supported, there is no finished artifact (one
    would have needed a recorder, hence a supported format), and a countdown
    in progress has the same null artifact in its closure.  Start-recording,
    as the handler of the current render or as the one a countdown holds,
    then only stores the "WebM not supported" message: the state afterwards
    is the state before with [error] replaced, so [recorderState], the
    artifact, the elapsed counter, every other field of the session and
    every object of the browser are unchanged, no recorder is made, no timer
    started and nothing is released; the render that follows runs no effect
    clean-up.  On the last tick of a countdown, where the attempt is made,
    the whole turn is the end of the countdown plus that message. *)
Theorem C2_unsupported_format (st : Studio) (stream : StreamId) :
  reachable st ->
  st.[streamRef] = Some stream ->
  unsupported st ->
  st.[recordedUrl] = None
  /\ startRecording st.[recordedUrl] st = setError (Some Msg.noWebm) st
  /\ commit st.[recordedUrl] (startRecording st.[recordedUrl] st)
     = setError (Some Msg.noWebm) st
  /\ (forall h rem cap, countingDown st h rem cap ->
        cap = None /\ startRecording cap st = setError (Some Msg.noWebm) st)
  /\ (forall h cap, countingDown st h 1 cap ->
        let ended :=
          setCountdown None
            (clearInterval h
               (setIntervals
                  (<[h := {| iv_active := true; iv_callback := CountdownCallback 0 cap |}]>
                     st.{intervals}) st)) in
        startRecording cap ended = setError (Some Msg.noWebm) ended
        /\ dispatch (Tick h) st = setError (Some Msg.noWebm) ended).
Proof.
  intros R Hs Hn. pose proof (invariant_reachable st R) as I.
  destruct (neverRecorded_reachable st R Hn) as [_ Hu].
  assert (F : forall s, s.[streamRef] = Some stream ->
                        s.{isTypeSupported} = st.{isTypeSupported} ->
                        startRecording None s = setError (Some Msg.noWebm) s).
  { intros s Hs' Hf. unfold startRecording, createRecorder. rewrite Hs', Hf.
    now rewrite (find_none_unsupported st Hn). }
  assert (C : forall h rem cap, countingDown st h rem cap -> cap = None).
  { intros h rem cap Hc.
    destruct (inv_countdown _ _ _ _ _ _ _ I h rem cap Hc) as (_ & _ & _ & ->).
    exact Hu. }
  rewrite Hu. split; [reflexivity|].
  split; [now apply F|].
  split; [rewrite F by auto; now apply commit_unchanged|].
  split.
  - intros h rem cap Hc. rewrite (C h rem cap Hc). split; [reflexivity|]. now apply F.
  - intros h cap Hc. cbv zeta. pose proof (C h 1 cap Hc) as ->.
    split; [now apply F|].
    destruct (countdown_tick st h 1 None Hc) as [_ E]. rewrite (E ltac:(lia)). clear E.
    rewrite Hu. change (1 - 1) with 0. rewrite F by auto.
    apply commit_unchanged. exact Hu.
Qed.

Lemma C2_unsupported_format_witness :
  noFormatBeforeStart.[recordedUrl] = None
  /\ (dispatch (Tick 0%nat) noFormatBeforeStart).[error] = Some Msg.noWebm
  /\ (dispatch (Tick 0%nat) noFormatBeforeStart).[recorderState] = idle
  /\ (dispatch (Tick 0%nat) noFormatBeforeStart).{recorders} = [].
Proof.
  assert (R : reachable noFormatBeforeStart).
  { exists noType,
      [ EnableStudio; Settle 0%nat (Fulfilled cameraStream);
        BeginCountdown; Tick 0%nat; Tick 0%nat ]. reflexivity. }
  assert (Hs : noFormatBeforeStart.[streamRef] = Some 0%nat) by (vm_compute; reflexivity).
  assert (Hn : unsupported noFormatBeforeStart) by (intros type _; vm_compute; reflexivity).
  assert (Hc : countingDown noFormatBeforeStart 0%nat 1 None) by (vm_compute; reflexivity).
  destruct (C2_unsupported_format noFormatBeforeStart 0%nat R Hs Hn)
    as (H1 & _ & _ & _ & H5).
  destruct (H5 0%nat None Hc) as [_ E].
  split; [exact H1|]. rewrite E. vm_compute. repeat split.
Defined.

(* ===================================================================== *)
(** * Further properties *)
(* ===================================================================== *)

(** ** The elapsed timer, component by component *)

Lemma elapsedAt_cleared ivs h h' :
  elapsedAt (alter cleared h ivs) h' -> elapsedAt ivs h' /\ h' <> h.
Proof.
  unfold elapsedAt. destruct (decide (h = h')) as [->|Hne].
  - rewrite list_lookup_alter_eq. destruct (ivs !! h'); cbn; discriminate.
  - rewrite list_lookup_alter_ne by assumption. auto.
Qed.

Lemma elapsedAt_cleanedUp tref ivs h' :
  elapsedAt (cleanedUp tref ivs) h' -> elapsedAt ivs h' /\ tref <> Some h'.
Proof.
  destruct tref as [h|]; cbn [cleanedUp].
  - intros H. apply elapsedAt_cleared in H as [H Hne]. split; [exact H|congruence].
  - intros H. split; [exact H|discriminate].
Qed.

Lemma length_cleanedUp tref ivs : length (cleanedUp tref ivs) = length ivs.
Proof. destruct tref; [apply length_alter|reflexivity]. Qed.

Lemma timer_initial : TimerInvariant idle None 0 [].
Proof.
  split; unfold elapsedAt; try discriminate; try reflexivity.
Qed.

Section TimerInvariant.

Variables (rs : RecorderState) (tref : option IntervalId) (el : Z) (ivs : list Interval).
Hypothesis inv : TimerInvariant rs tref el ivs.

(** [resetTimer], and any [recorderState] set next to it. *)
Lemma timer_reset rs' : TimerInvariant rs' None 0 (cleanedUp tref ivs).
Proof.
  destruct inv. split; try discriminate; try reflexivity.
  intros h H. apply elapsedAt_cleanedUp in H as [H Hne]. destruct Hne. auto.
Qed.

(** The manual clear of [pauseRecording]. *)
Lemma timer_clear rs' :
  rs' <> idle -> TimerInvariant rs' None el (cleanedUp tref ivs).
Proof.
  intros Hn. destruct inv. split; try discriminate; auto; try contradiction.
  intros h H. apply elapsedAt_cleanedUp in H as [H Hne]. destruct Hne. auto.
Qed.

(** [startTimer], called with [recorderState] set to recording. *)
Lemma timer_start :
  TimerInvariant recording (Some (length ivs)) 0
    (cleanedUp tref ivs ++ [{| iv_active := true; iv_callback := ElapsedCallback |}]).
Proof.
  destruct inv. split; try discriminate; try reflexivity.
  - intros h [= <-]. split; [|reflexivity]. unfold elapsedAt.
    rewrite lookup_app_r; rewrite length_cleanedUp; [|lia].
    now rewrite Nat.sub_diag.
  - intros h H. unfold elapsedAt in H. apply lookup_snoc_Some in H as [[_ H]|[H _]].
    + apply elapsedAt_cleanedUp in H as [H Hne]. destruct Hne. auto.
    + rewrite length_cleanedUp in H. congruence.
Qed.

(** The tick of the elapsed timer. *)
Lemma timer_tick h : elapsedAt ivs h -> TimerInvariant rs tref (el + 1) ivs.
Proof.
  intros H. destruct inv.
  destruct (ti_ref0 h (ti_owner0 h H)) as [_ Hr].
  split; auto; [lia|]. intros Hi. congruence.
Qed.

(** A countdown interval installed, rewritten or cleared. *)
Lemma timer_snoc rem cap :
  TimerInvariant rs tref el
    (ivs ++ [{| iv_active := true; iv_callback := CountdownCallback rem cap |}]).
Proof.
  destruct inv. split; auto.
  - intros h Ht. destruct (ti_ref0 h Ht) as [H Hr]. split; [|exact Hr].
    now apply lookup_app_l_Some.
  - intros h H. unfold elapsedAt in H. apply lookup_snoc_Some in H as [[_ H]|[_ H]];
      [auto|discriminate].
Qed.

Lemma timer_countdown h rem cap rem' cap' :
  countdownAt ivs h rem cap ->
  TimerInvariant rs tref el
    (<[h := {| iv_active := true; iv_callback := CountdownCallback rem' cap' |}]> ivs)
  /\ TimerInvariant rs tref el
       (alter cleared h
          (<[h := {| iv_active := true; iv_callback := CountdownCallback rem' cap' |}]> ivs)).
Proof.
  intros Hc. destruct inv. unfold countdownAt in Hc.
  assert (A : forall t, elapsedAt ivs t -> t <> h)
    by (intros t Ht ->; unfold elapsedAt in Ht; congruence).
  split; split; auto.
  - intros t Ht. destruct (ti_ref0 t Ht) as [H Hr]. split; [|exact Hr].
    unfold elapsedAt. rewrite list_lookup_insert_ne; [exact H|]. intros ->. exact (A _ H eq_refl).
  - intros t H. unfold elapsedAt in H.
    apply list_lookup_insert_Some in H as [(_ & H & _)|[_ H]]; [discriminate|auto].
  - intros t Ht. destruct (ti_ref0 t Ht) as [H Hr]. split; [|exact Hr].
    unfold elapsedAt. rewrite list_lookup_alter_ne, list_lookup_insert_ne;
      [exact H| |]; intros ->; exact (A _ H eq_refl).
  - intros t H. apply elapsedAt_cleared in H as [H _]. unfold elapsedAt in H.
    apply list_lookup_insert_Some in H as [(_ & H & _)|[_ H]]; [discriminate|auto].
Qed.

End TimerInvariant.

(** ** The attached recorder, component by component *)

Lemma rec_initial : RecorderInvariant idle None [].
Proof. split; [discriminate|congruence]. Qed.

(** Once idle with nothing attached, the recorders do not matter. *)
Lemma rec_idle recs : RecorderInvariant idle None recs.
Proof. split; [discriminate|congruence]. Qed.

(** [startRecording], where it succeeds. *)
Lemma rec_attach recs new :
  rec_state new = rs_recording -> stopQueued new = false ->
  RecorderInvariant recording (Some (length recs)) (recs ++ [new]).
Proof.
  intros Hs Hq. split; [|discriminate].
  intros r [= <-]. exists new. rewrite lookup_app_r, Nat.sub_diag by lia.
  split; [reflexivity|]. split; [exact Hq|]. left. auto.
Qed.

Section RecorderInvariant.

Variables (rs : RecorderState) (rref : option RecorderId) (recs : list MediaRecorder).
Hypothesis inv : RecorderInvariant rs rref recs.

(** A change of the fragments only. *)
Lemma rec_chunks (f : MediaRecorder -> MediaRecorder) r0 :
  (forall x, rec_state (f x) = rec_state x /\ stopQueued (f x) = stopQueued x) ->
  RecorderInvariant rs rref (alter f r0 recs).
Proof.
  intros Hf. destruct inv. split.
  - intros r Hr. destruct (ri_attached0 r Hr) as (rec & Hl & Hq & Ha).
    destruct (decide (r0 = r)) as [->|Hne].
    + exists (f rec). rewrite list_lookup_alter_eq, Hl. destruct (Hf rec) as [-> ->]. auto.
    + exists rec. rewrite list_lookup_alter_ne by assumption. auto.
  - intros Hn H0. destruct (ri_pending0 Hn H0) as [r Hq]. exists r.
    apply queuedIn_alter; [|exact Hq]. intros x. apply Hf.
Qed.

(** [pauseRecording] and [resumeRecording], past their guards. *)
Lemma rec_switch r rec rs' s' :
  rref = Some r -> recs !! r = Some rec -> agree rs' s' ->
  RecorderInvariant rs' (Some r) (<[r := withRecState s' rec]> recs).
Proof.
  intros Hr Hl Ha. destruct inv.
  destruct (ri_attached0 r Hr) as (rec0 & Hl0 & Hq & _).
  assert (rec0 = rec) as -> by congruence.
  split; [|discriminate].
  intros r1 [= <-]. exists (withRecState s' rec).
  rewrite list_lookup_insert_eq by (eapply lookup_lt_Some; eassumption). auto.
Qed.

(** [stopRecording], past its guard. *)
Lemma rec_stop r :
  rref = Some r -> RecorderInvariant rs None (alter recorder_stop r recs).
Proof.
  intros Hr. destruct inv. split; [discriminate|].
  intros Hn _. destruct (ri_attached0 r Hr) as (rec & Hl & _ & Ha).
  exists r, (recorder_stop rec). rewrite list_lookup_alter_eq, Hl.
  split; [reflexivity|]. unfold recorder_stop.
  destruct Ha as [[_ ->]|[_ ->]]; reflexivity.
Qed.

End RecorderInvariant.

(** ** The object URLs, component by component *)

Lemma url_initial : UrlInvariant None [].
Proof. split; [discriminate|]. intros u b H. discriminate. Qed.

Section UrlInvariant.

Variables (url : option Url) (urls : list (option Blob)).
Hypothesis inv : UrlInvariant url urls.

(** [URL.revokeObjectURL(recordedUrl); setRecordedUrl(null)] *)
Lemma url_release u : url = Some u -> UrlInvariant None (<[u := None]> urls).
Proof.
  intros Hu. destruct inv. split; [discriminate|].
  intros u' b H. apply list_lookup_insert_Some in H as [(_ & H & _)|[Hne H]]; [discriminate|].
  specialize (ui_only0 _ _ H). congruence.
Qed.

(** Revoking a URL other than the current one. *)
Lemma url_revoke_other u0 : url <> Some u0 -> UrlInvariant url (<[u0 := None]> urls).
Proof.
  intros Hne. destruct inv. split.
  - intros u Hu. destruct (ui_live0 u Hu) as [b Hb]. exists b.
    rewrite list_lookup_insert_ne; [exact Hb|congruence].
  - intros u b H. apply list_lookup_insert_Some in H as [(_ & H & _)|[_ H]]; [discriminate|].
    eauto.
Qed.

(** [onstop] and the clean-up of the render that follows it. *)
Lemma url_replace b :
  UrlInvariant (Some (length urls))
    (match url with
     | Some u0 => <[u0 := None]> (urls ++ [Some b])
     | None => urls ++ [Some b]
     end).
Proof.
  destruct inv. destruct url as [u0|].
  - destruct (ui_live0 u0 eq_refl) as [b0 Hb0].
    pose proof (lookup_lt_Some _ _ _ Hb0) as Hlt.
    split.
    + intros u [= <-]. exists b. rewrite list_lookup_insert_ne by lia.
      rewrite lookup_app_r, Nat.sub_diag by lia. reflexivity.
    + intros u b' H. apply list_lookup_insert_Some in H as [(_ & H & _)|[Hne H]];
        [discriminate|].
      apply lookup_snoc_Some in H as [[_ H]|[-> _]]; [|reflexivity].
      specialize (ui_only0 _ _ H). congruence.
  - split.
    + intros u [= <-]. exists b. rewrite lookup_app_r, Nat.sub_diag by lia. reflexivity.
    + intros u b' H. apply lookup_snoc_Some in H as [[_ H]|[-> _]]; [|reflexivity].
      specialize (ui_only0 _ _ H). discriminate.
Qed.

End UrlInvariant.

(** ** The three invariants on the states of the component *)

#[local] Hint Rewrite objectUrls_effectCleanup : studio.

Lemma steady_initial supported : Steady (initial supported).
Proof. repeat split; try discriminate; try reflexivity; cbn; congruence. Qed.

Lemma steady_commit (before : option Url) (st : Studio) :
  Steady st -> Steady (commit before st).
Proof.
  intros (T & R & U). unfold commit. destruct (decide _) as [|Hne]; [exact (conj T (conj R U))|].
  unfold Steady. norm. split; [|split].
  - change (TimerInvariant st.[recorderState] None 0 (cleanedUp st.[timerRef] st.{intervals})).
    eapply timer_reset; eassumption.
  - exact R.
  - destruct before as [u0|]; [|exact U].
    apply url_revoke_other; [exact U|congruence].
Qed.

Lemma steady_prepareStudio source mic st :
  Steady st -> Steady (prepareStudio source mic st).
Proof. unfold Steady, prepareStudio. destruct source; norm; auto. Qed.

Lemma steady_prepareStudio_resume k result st :
  Steady st -> Steady (prepareStudio_resume k result st).
Proof.
  unfold Steady, prepareStudio_resume, prepareStudio_finish, prepareStudio_catch.
  destruct k as [|mic|sid], result as [s|err]; norm; auto.
  destruct mic; norm; auto.
Qed.

Lemma steady_startRecording (st : Studio) :
  Steady st -> Steady (startRecording st.[recordedUrl] st).
Proof.
  intros S0. pose proof S0 as (T & R & U). unfold startRecording.
  destruct st.[streamRef] as [stream|]; [|exact S0].
  set (st1 := match st.[recordedUrl] with
              | Some u => setRecordedUrl None (revokeObjectURL u st)
              | None => st
              end).
  assert (H1 : Steady st1).
  { subst st1. destruct st.[recordedUrl] as [u|] eqn:Eu; [|exact S0].
    unfold Steady. norm. split; [exact T|]. split; [exact R|].
    eapply url_release; [eassumption|reflexivity]. }
  destruct H1 as (T1 & R1 & U1).
  destruct (createRecorder stream st1) as [recorder|] eqn:Ec; [|exact (conj T1 (conj R1 U1))].
  assert (Hq : stopQueued recorder = false).
  { unfold createRecorder in Ec. destruct (List.find _ _); [|discriminate].
    now injection Ec as <-. }
  unfold Steady. norm. split; [|split].
  - change (TimerInvariant recording (Some (length st1.{intervals})) 0
              (cleanedUp st1.[timerRef] st1.{intervals}
               ++ [{| iv_active := true; iv_callback := ElapsedCallback |}])).
    eapply timer_start; eassumption.
  - now apply rec_attach.
  - exact U1.
Qed.

Lemma steady_countdownTick (h : IntervalId) (rem : Z) (st : Studio) :
  countingDown st h rem st.[recordedUrl] ->
  Steady st -> Steady (countdownTick h rem st.[recordedUrl] st).
Proof.
  intros Hc (T & R & U). unfold countdownTick.
  destruct (timer_countdown _ _ _ _ T h rem st.[recordedUrl] (rem - 1) st.[recordedUrl] Hc)
    as [T1 T2].
  destruct (rem - 1 <=? 0).
  - match goal with
    | |- Steady (startRecording _ ?s) =>
        change (Steady (startRecording s.[recordedUrl] s))
    end.
    apply steady_startRecording. unfold Steady. norm. auto.
  - unfold Steady. norm. auto.
Qed.

Lemma steady_beginCountdown (st : Studio) : Steady st -> Steady (beginCountdown st).
Proof.
  intros S0. pose proof S0 as (T & R & U). unfold beginCountdown.
  destruct (decide _); [exact S0|].
  unfold Steady. norm. split; [|auto]. now apply timer_snoc.
Qed.

Lemma steady_pauseRecording (st : Studio) : Steady st -> Steady (pauseRecording st).
Proof.
  intros S0. pose proof S0 as (T & R & U). unfold pauseRecording.
  destruct st.[recorderRef] as [r|] eqn:Er; [|exact S0].
  destruct (decide _) as [Hs|]; [|exact S0].
  destruct (st.{recorders} !! r) as [rec|] eqn:El; [|exact S0].
  cbn [mbind option_bind]. unfold recorder_pause.
  assert (X : Steady (setTimerRef None (setIntervals (cleanedUp st.[timerRef] st.{intervals})
                (setRecorderState paused
                   (setRecorders (<[r := withRecState rs_paused rec]> st.{recorders}) st))))).
  { unfold Steady. norm. rewrite Er. split; [|split; [|exact U]].
    - eapply timer_clear; [eassumption|discriminate].
    - eapply rec_switch; [eassumption|reflexivity|eassumption|right; auto]. }
  destruct (rec_state rec); [exact S0| |]; fields;
    (destruct st.[timerRef] as [t|] eqn:Et; [exact X|]);
    unfold Steady in *; norm; rewrite Et in *; exact X.
Qed.

Lemma steady_resumeRecording (st : Studio) : Steady st -> Steady (resumeRecording st).
Proof.
  intros S0. pose proof S0 as (T & R & U). unfold resumeRecording.
  destruct st.[recorderRef] as [r|] eqn:Er; [|exact S0].
  destruct (decide _) as [Hs|]; [|exact S0].
  destruct (st.{recorders} !! r) as [rec|] eqn:El; [|exact S0].
  cbn [mbind option_bind]. unfold recorder_resume.
  destruct (rec_state rec); [exact S0| |];
    (unfold Steady; norm; rewrite Er; split; [|split; [|exact U]];
     [ change (TimerInvariant recording (Some (length st.{intervals})) 0
                 (cleanedUp st.[timerRef] st.{intervals}
                  ++ [{| iv_active := true; iv_callback := ElapsedCallback |}]));
       eapply timer_start; eassumption
     | eapply rec_switch; [eassumption|reflexivity|eassumption|left; auto] ]).
Qed.

Lemma steady_stopRecording (st : Studio) : Steady st -> Steady (stopRecording st).
Proof.
  intros S0. pose proof S0 as (T & R & U). unfold stopRecording.
  destruct st.[recorderRef] as [r|] eqn:Er; [|exact S0].
  destruct (decide _) as [Hs|]; [|exact S0].
  unfold Steady. norm. split; [exact T|]. split; [|exact U].
  eapply rec_stop; [eassumption|reflexivity].
Qed.

Lemma steady_stopped (r : RecorderId) (rec : MediaRecorder) (st : Studio) :
  st.{recorders} !! r = Some rec -> stopQueued rec = true ->
  Invariant st -> Steady st -> Steady (dispatch (RecorderStopped r) st).
Proof.
  intros Hl Hq I (T & R & U).
  assert (Hr : st.[recorderRef] = None).
  { destruct st.[recorderRef] as [r'|] eqn:Er; [|reflexivity].
    destruct (inv_attached _ _ _ _ _ _ _ I r' Er r). exists rec. auto. }
  unfold dispatch, commit. cbn [handle]. rewrite Hl, Hq. unfold onstop. fields.
  rewrite list_lookup_alter_eq, Hl. cbn [fmap option_fmap option_map].
  norm.
  destruct (decide _) as [E|_].
  { exfalso. destruct (ui_live _ _ U _ (eq_sym E)) as [b Hb].
    apply lookup_lt_Some in Hb. lia. }
  unfold Steady. norm. rewrite Hr. split; [|split].
  - change (TimerInvariant idle None 0
              (cleanedUp None (cleanedUp st.[timerRef] st.{intervals}))).
    exact (timer_reset _ _ _ _ (timer_reset _ _ _ _ T idle) idle).
  - apply rec_idle.
  - pose proof (url_replace _ _ U (newBlob (chunks rec) (mimeType rec))) as H.
    destruct st.[recordedUrl]; exact H.
Qed.

Lemma steady_handle (e : Event) (st : Studio) :
  (forall r, e <> RecorderStopped r) ->
  Invariant st -> Steady st -> Steady (handle e st).
Proof.
  intros Hne I S0. pose proof S0 as (T & R & U). destruct e; cbn [handle].
  - now apply steady_prepareStudio.
  - unfold handleSelectSource. destruct st.[isStudioReady]; [|exact S0].
    now apply steady_prepareStudio.
  - unfold handleToggleMicrophone. destruct st.[isStudioReady]; [|exact S0].
    now apply steady_prepareStudio.
  - exact S0.
  - exact S0.
  - exact S0.
  - now apply steady_beginCountdown.
  - now apply steady_pauseRecording.
  - now apply steady_resumeRecording.
  - now apply steady_stopRecording.
  - unfold downloadRecording. destruct st.[recordedUrl] eqn:Eu; [|exact S0]. exact S0.
  - destruct (st.{awaiting} !! p) as [[k|]|]; try exact S0.
    now apply steady_prepareStudio_resume.
  - destruct st.{pendingPlays}; exact S0.
  - unfold ondataavailable. destruct (0 <? blob_size data); [|exact S0].
    unfold Steady. norm. split; [exact T|]. split; [|exact U].
    apply rec_chunks; [exact R|]. intros x; split; reflexivity.
  - destruct (Hne r eq_refl).
  - destruct (st.{intervals} !! h) as [[a cb]|] eqn:El; [|exact S0].
    cbn [iv_active iv_callback]. destruct a; [|exact S0].
    destruct cb as [|rem cap].
    + unfold elapsedTick, Steady. norm. split; [|auto].
      eapply timer_tick; eassumption.
    + destruct (inv_countdown _ _ _ _ _ _ _ I h rem cap El) as (_ & _ & _ & ->).
      now apply steady_countdownTick.
Qed.

Lemma steady_dispatch (e : Event) (st : Studio) :
  Invariant st -> Steady st -> Steady (dispatch e st).
Proof.
  intros I S0.
  assert (D : (forall r, e <> RecorderStopped r) \/ exists r, e = RecorderStopped r).
  { destruct e; try (left; intros; discriminate). right. eauto. }
  destruct D as [D|[r ->]].
  - unfold dispatch. now apply steady_commit, steady_handle.
  - destruct (st.{recorders} !! r) as [rec|] eqn:El.
    + destruct (stopQueued rec) eqn:Eq.
      * eapply steady_stopped; eassumption.
      * unfold dispatch. cbn [handle]. rewrite El, Eq. now apply steady_commit.
    + unfold dispatch. cbn [handle]. rewrite El. now apply steady_commit.
Qed.

Lemma steady_run (es : list Event) (st : Studio) :
  Invariant st -> Steady st -> Steady (run es st).
Proof.
  revert st. induction es as [|e es IH]; intros st I S0; [exact S0|].
  apply IH; [now apply invariant_dispatch|now apply steady_dispatch].
Qed.

Lemma steady_reachable (st : Studio) : reachable st -> Steady st.
Proof.
  intros (supported & es & ->). apply steady_run; [exact core_initial|apply steady_initial].
Qed.

(** ** Display of the elapsed time *)

Lemma two_digits (n : Z) :
  0 <= n < 100 -> padStart 2 48%N (toStringInt n) = [digit (n / 10); digit (n mod 10)].
Proof.
  intros H. destruct n as [|p|p]; [reflexivity| |lia].
  do 7 (destruct p as [p|p|]; try lia; try reflexivity).
Qed.

Lemma digit_inj (a b : Z) : 0 <= a -> 0 <= b -> digit a = digit b -> a = b.
Proof. unfold digit. lia. Qed.

(** X1.  Below one hundred minutes [formatDuration] gives the five code
    units MM:SS, the minutes and the seconds of the minute on two digits
    each, and no two counts in that range are shown alike. *)
Theorem X1_formatDuration_mm_ss (seconds : Z) :
  0 <= seconds < 6000 ->
  formatDuration seconds
  = [digit (seconds / 600); digit (seconds / 60 mod 10); 58%N;
     digit (seconds mod 60 / 10); digit (seconds mod 10)]
  /\ (forall other, 0 <= other < 6000 ->
        formatDuration other = formatDuration seconds -> other = seconds).
Proof.
  assert (F : forall s, 0 <= s < 6000 ->
            formatDuration s
            = [digit (s / 600); digit (s / 60 mod 10); 58%N;
               digit (s mod 60 / 10); digit (s mod 10)]).
  { intros s Hs. unfold formatDuration.
    rewrite Z.rem_mod_nonneg by lia.
    rewrite !two_digits by (Z.div_mod_to_equations; lia).
    replace (s / 60 / 10) with (s / 600) by (Z.div_mod_to_equations; lia).
    replace (s mod 60 mod 10) with (s mod 10) by (Z.div_mod_to_equations; lia).
    reflexivity. }
  intros H. split; [now apply F|].
  intros other Ho E. rewrite (F _ H), (F _ Ho) in E.
  injection E as E1 E2 E3 E4.
  apply digit_inj in E1; [|Z.div_mod_to_equations; lia..].
  apply digit_inj in E2; [|Z.div_mod_to_equations; lia..].
  apply digit_inj in E3; [|Z.div_mod_to_equations; lia..].
  apply digit_inj in E4; [|Z.div_mod_to_equations; lia..].
  Z.div_mod_to_equations. lia.
Qed.

Lemma X1_formatDuration_mm_ss_witness :
  formatDuration 75 = js "01:15".
Proof.
  apply (proj1 (X1_formatDuration_mm_ss 75 ltac:(lia))).
Defined.

(** ** The recorder's format *)

(** X2.  [createRecorder] takes the first of the three formats, in the
    order written, that the browser supports: the formats before it are
    not supported.  It fails exactly when none is.  The recorder it returns
    is bound to the given stream, has no fragment and is not started. *)
Theorem X2_createRecorder_first_supported (stream : StreamId) (st : Studio) :
  match createRecorder stream st with
  | Some recorder =>
      exists before after,
        supportedTypes = before ++ mimeType recorder :: after
        /\ st.{isTypeSupported} (mimeType recorder) = true
        /\ Forall (fun type => st.{isTypeSupported} type = false) before
        /\ rec_stream recorder = stream
        /\ chunks recorder = []
        /\ rec_state recorder = rs_inactive
        /\ stopQueued recorder = false
        /\ videoBitsPerSecond recorder = 4000000
  | None => Forall (fun type => st.{isTypeSupported} type = false) supportedTypes
  end.
Proof.
  unfold createRecorder, supportedTypes. cbn [List.find].
  destruct (st.{isTypeSupported} "video/webm;codecs=vp9,opus") eqn:E1.
  { exists [], ["video/webm;codecs=vp8,opus"; "video/webm"]. repeat split; auto. }
  destruct (st.{isTypeSupported} "video/webm;codecs=vp8,opus") eqn:E2.
  { exists ["video/webm;codecs=vp9,opus"], ["video/webm"]. repeat split; auto. }
  destruct (st.{isTypeSupported} "video/webm") eqn:E3.
  { exists ["video/webm;codecs=vp9,opus"; "video/webm;codecs=vp8,opus"], [].
    repeat split; auto. }
  repeat constructor; assumption.
Qed.

(** ** The exported name and the export *)

Lemma replaceRuns_shorter s :
  (length (replaceRuns s) <= length s)%nat /\ (length (skipRun s) <= length s)%nat.
Proof.
  induction s as [|c rest [IH1 IH2]]; [split; reflexivity|].
  rewrite replaceRuns_cons, skipRun_cons.
  destruct (allowedChar c); cbn [length]; split; lia.
Qed.

(** X3.  The base name of the exported file is never empty and is made of
    code units of the class only, whatever the title; replacing the runs of
    a title twice gives what replacing them once gives, the base name of a
    base name is that base name, and replacing never lengthens a title. *)
Theorem X3_baseName_safe (title : jsstring) :
  baseName title <> []
  /\ allAllowed (baseName title)
  /\ replaceRuns (replaceRuns title) = replaceRuns title
  /\ baseName (baseName title) = baseName title
  /\ (length (replaceRuns title) <= length title)%nat.
Proof.
  assert (Id : forall s, allAllowed s -> replaceRuns s = s).
  { intros s H. rewrite <- (app_nil_r s) at 1.
    rewrite replaceRuns_word by assumption. apply app_nil_r. }
  assert (A : allAllowed (baseName title)).
  { rewrite baseName_cases. destruct (decide _); [|apply replaceRuns_in_class].
    unfold allAllowed. repeat constructor. }
  assert (N : baseName title <> []).
  { rewrite baseName_cases. destruct (decide _) as [|Hne]; [discriminate|].
    intros E. apply Hne. now apply replaceRuns_nil_iff. }
  split; [exact N|]. split; [exact A|].
  split; [apply Id, replaceRuns_in_class|].
  split; [|apply replaceRuns_shorter].
  unfold baseName at 1. rewrite (Id _ A).
  destruct (baseName title); [contradiction|reflexivity].
Qed.

(** X4.  The export changes nothing of the session and none of the streams,
    recorders, intervals and object URLs; it saves one file, under the
    artifact's URL and the name made from the title, when there is an
    artifact, and saves nothing when there is none. *)
Theorem X4_download_only_saves (st : Studio) :
  session (dispatch DownloadRecording st) = session st
  /\ (dispatch DownloadRecording st).{streams} = st.{streams}
  /\ (dispatch DownloadRecording st).{recorders} = st.{recorders}
  /\ (dispatch DownloadRecording st).{intervals} = st.{intervals}
  /\ (dispatch DownloadRecording st).{objectUrls} = st.{objectUrls}
  /\ (dispatch DownloadRecording st).{downloads}
     = st.{downloads}
       ++ match st.[recordedUrl] with
          | Some url => [(url, fileName st.[projectTitle])]
          | None => []
          end
  /\ (st.[recordedUrl] = None -> dispatch DownloadRecording st = st).
Proof.
  assert (E : dispatch DownloadRecording st = downloadRecording st).
  { apply dispatch_unchanged. cbn [handle]. unfold downloadRecording.
    destruct st.[recordedUrl] eqn:Eu; [|exact Eu]. fields. exact Eu. }
  rewrite E. unfold downloadRecording.
  destruct st.[recordedUrl] as [u|]; fields.
  - repeat split; try reflexivity. discriminate.
  - rewrite app_nil_r. repeat split; reflexivity.
Qed.

(** ** Acquisition of the stream *)

Lemma dispatch_prepareStudio e source mic st :
  handle e st = prepareStudio source mic st ->
  dispatch e st = prepareStudio source mic st.
Proof.
  intros E. rewrite dispatch_unchanged; [exact E|]. rewrite E.
  unfold prepareStudio. destruct source; fields; now rewrite session_teardownStream.
Qed.

(** X5.  Enabling the studio, whatever the state: the error is dropped, the
    studio is not ready, the stream held so far is released (each of its
    tracks stopped, the reference null), and one request is pending, for the
    camera or for the screen as the configuration says.  Nothing of the
    recording is touched, so a recording under way keeps its state while its
    stream is stopped. *)
Theorem X5_enable_releases_and_requests (st : Studio) :
  let st' := dispatch EnableStudio st in
  st'.[error] = None
  /\ st'.[isStudioReady] = false
  /\ st'.[streamRef] = None
  /\ (forall sid, st.[streamRef] = Some sid ->
        st'.{streams} !! sid = map stopTrack <$> st.{streams} !! sid)
  /\ length st'.{streams} = length st.{streams}
  /\ st'.{awaiting}
     = st.{awaiting}
       ++ [Some match st.[captureSource] with
                | camera => AwaitCamera
                | screen => AwaitDisplay st.[includeMicrophone]
                end]
  /\ st'.[recorderState] = st.[recorderState]
  /\ st'.[recorderRef] = st.[recorderRef]
  /\ st'.[recordedUrl] = st.[recordedUrl]
  /\ st'.[elapsedSeconds] = st.[elapsedSeconds]
  /\ st'.{recorders} = st.{recorders}
  /\ st'.{intervals} = st.{intervals}.
Proof.
  cbv zeta.
  rewrite (dispatch_prepareStudio EnableStudio st.[captureSource] st.[includeMicrophone] st)
    by reflexivity.
  unfold prepareStudio.
  destruct st.[captureSource]; fields;
    rewrite ?session_teardownStream, ?browser_teardownStream; fields;
    (do 3 (split; [reflexivity|]));
    (split; [intros sid E; rewrite E; apply list_lookup_alter_eq|]);
    (split; [destruct st.[streamRef]; [apply length_alter|reflexivity]|]);
    repeat split; reflexivity.
Qed.

(** X6.  A pending request for the camera or the screen is rejected, in
    whatever state the page then is.  The error becomes the message of the
    rejection when that is an [Error] with a message, and otherwise the
    fallback of the source that was requested, which need not be the source
    selected by now.  The stream held at that moment is released, each of
    its tracks stopped, and no stream object is created.  The ready flag is
    left as it is: the handler of the rejection never clears it, so it is
    false when nothing happened since the request, and stays true when
    another request was granted in between.  The source selected, the
    state shown and the artifact are not touched. *)
Theorem X6_acquisition_rejected (st : Studio) (p : nat) (k : Continuation) (err : Thrown) :
  st.{awaiting} !! p = Some (Some k) ->
  (forall screenStream, k <> AwaitMicrophone screenStream) ->
  let requested :=
    match k with
    | AwaitCamera => camera
    | _ => screen
    end in
  let fallback :=
    match requested with
    | camera => Msg.cameraFallback
    | screen => Msg.screenFallback
    end in
  let st' := dispatch (Settle p (Rejected err)) st in
  st'.[error]
  = Some match err with
         | ErrorObject message => if String.eqb message "" then fallback else message
         | OtherValue => fallback
         end
  /\ st'.[streamRef] = None
  /\ (forall sid, st.[streamRef] = Some sid ->
        st'.{streams} !! sid = map stopTrack <$> st.{streams} !! sid)
  /\ length st'.{streams} = length st.{streams}
  /\ st'.[isStudioReady] = st.[isStudioReady]
  /\ st'.[captureSource] = st.[captureSource]
  /\ st'.[recorderState] = st.[recorderState]
  /\ st'.[recordedUrl] = st.[recordedUrl]
  /\ st'.{awaiting} = <[p := None]> st.{awaiting}.
Proof.
  intros Hp Hk. cbv zeta.
  assert (H : handle (Settle p (Rejected err)) st
              = prepareStudio_catch match k with AwaitCamera => camera | _ => screen end err
                  (setAwaiting (<[p := None]> st.{awaiting}) st)).
  { cbn [handle]. rewrite Hp. destruct k as [|mic|sid]; [reflexivity..|].
    now destruct (Hk sid). }
  rewrite dispatch_unchanged; rewrite H; unfold prepareStudio_catch;
    rewrite ?session_teardownStream, ?browser_teardownStream; fields; [|reflexivity].
  split; [destruct k; reflexivity|].
  split; [reflexivity|].
  split; [intros sid E; rewrite E; apply list_lookup_alter_eq|].
  split; [destruct st.[streamRef]; [apply length_alter|reflexivity]|].
  repeat split; reflexivity.
Qed.

(** Two requests pending, the second granted, then the first rejected: the
    studio holds no stream and shows the error, and is still ready. *)
Lemma X6_acquisition_rejected_witness :
  let st := run [EnableStudio; EnableStudio; Settle 1%nat (Fulfilled cameraStream)]
              (initial anyType) in
  let st' := dispatch (Settle 0%nat (Rejected OtherValue)) st in
  st'.[error] = Some Msg.cameraFallback
  /\ st'.[streamRef] = None
  /\ st'.[isStudioReady] = true.
Proof.
  intros st.
  assert (Hp : st.{awaiting} !! 0%nat = Some (Some AwaitCamera)) by (vm_compute; reflexivity).
  assert (Hr : st.[isStudioReady] = true) by (vm_compute; reflexivity).
  assert (Hk : forall screenStream : nat, AwaitCamera <> AwaitMicrophone screenStream)
    by (intros; discriminate).
  destruct (X6_acquisition_rejected st 0%nat AwaitCamera OtherValue Hp Hk)
    as (H1 & H2 & _ & _ & H5 & _).
  split; [exact H1|]. split; [exact H2|]. rewrite <- Hr. exact H5.
Defined.

(** X7.  Sharing the screen with the microphone asked for, both requests
    granted: the studio is ready, without error, and holds the stream of the
    screen, whose tracks are those the screen gave followed by the audio
    tracks of the microphone's stream, and no other track of it. *)
Theorem X7_screen_with_microphone (st : Studio) (screenStream micStream : MediaStream) :
  st.[captureSource] = screen ->
  st.[includeMicrophone] = true ->
  let p := length st.{awaiting} in
  let sid := length st.{streams} in
  let st' := run [EnableStudio;
                  Settle p (Fulfilled screenStream);
                  Settle (S p) (Fulfilled micStream)] st in
  st'.[isStudioReady] = true
  /\ st'.[error] = None
  /\ st'.[streamRef] = Some sid
  /\ st'.{video_srcObject} = Some sid
  /\ st'.{streams} !! sid = Some (screenStream ++ getAudioTracks micStream)
  /\ st'.{awaiting} = st.{awaiting} ++ [None; None].
Proof.
  intros Hs Hm. cbv zeta. unfold run. cbn [fold_left].
  rewrite (dispatch_prepareStudio EnableStudio screen true st)
    by (cbn [handle]; unfold handleEnableStudio; now rewrite Hs, Hm).
  set (st1 := prepareStudio screen true st).
  assert (A1 : st1.{awaiting} = st.{awaiting} ++ [Some (AwaitDisplay true)]).
  { subst st1. unfold prepareStudio. fields. now rewrite browser_teardownStream. }
  assert (L1 : length st1.{streams} = length st.{streams}).
  { subst st1. unfold prepareStudio. fields. rewrite browser_teardownStream. fields.
    destruct st.[streamRef]; [apply length_alter|reflexivity]. }
  assert (U1 : st1.[recordedUrl] = st.[recordedUrl]).
  { subst st1. unfold prepareStudio. fields. now rewrite session_teardownStream. }
  assert (E1 : st1.[error] = None).
  { subst st1. unfold prepareStudio. fields. now rewrite session_teardownStream. }
  set (st2 := suspend (AwaitMicrophone (length st.{streams}))
                (setStreams (st1.{streams} ++ [screenStream])
                   (setAwaiting (st.{awaiting} ++ [None]) st1))).
  assert (D2 : dispatch (Settle (length st.{awaiting}) (Fulfilled screenStream)) st1 = st2).
  { rewrite dispatch_unchanged; cbn [handle]; rewrite A1, list_lookup_middle by reflexivity;
      rewrite insert_app_r_alt, Nat.sub_diag by lia;
      cbn [prepareStudio_resume allocStream]; fields; rewrite ?L1; reflexivity. }
  rewrite D2.
  assert (A2 : st2.{awaiting}
               = (st.{awaiting} ++ [None]) ++ [Some (AwaitMicrophone (length st.{streams}))]).
  { reflexivity. }
  assert (D3 : dispatch (Settle (S (length st.{awaiting})) (Fulfilled micStream)) st2
               = prepareStudio_finish (length st.{streams})
                   (addTracks (length st.{streams}) (getAudioTracks micStream)
                      (setAwaiting (st.{awaiting} ++ [None; None]) st2))).
  { rewrite dispatch_unchanged; cbn [handle]; rewrite A2;
      rewrite list_lookup_middle by (rewrite length_app; cbn; lia);
      rewrite insert_app_r_alt by (rewrite length_app; cbn; lia);
      replace (S (length st.{awaiting}) - length (st.{awaiting} ++ [None]))%nat with 0%nat
        by (rewrite length_app; cbn; lia);
      cbn [prepareStudio_resume]; rewrite <- ?app_assoc; reflexivity. }
  rewrite D3. clear D2 D3 A2. subst st2. unfold prepareStudio_finish. fields.
  rewrite E1. do 4 (split; [reflexivity|]). split; [|reflexivity].
  rewrite list_lookup_alter_eq, <- L1, list_lookup_middle by reflexivity. reflexivity.
Qed.

Lemma X7_screen_with_microphone_witness :
  let st := setCaptureSource screen (initial anyType) in
  let st' := run [EnableStudio;
                  Settle 0 (Fulfilled [mkTrack videoTrack true]);
                  Settle 1 (Fulfilled [mkTrack videoTrack true; mkTrack audioTrack true])] st in
  st'.{streams} !! 0%nat = Some [mkTrack videoTrack true; mkTrack audioTrack true].
Proof.
  exact (proj1 (proj2 (proj2 (proj2 (proj2
    (X7_screen_with_microphone (setCaptureSource screen (initial anyType))
       [mkTrack videoTrack true]
       [mkTrack videoTrack true; mkTrack audioTrack true]
       eq_refl eq_refl)))))).
Defined.

Lemma dispatch_prepareStudio_after e source mic st0 st :
  handle e st = prepareStudio source mic st0 ->
  st0.[recordedUrl] = st.[recordedUrl] ->
  dispatch e st = prepareStudio source mic st0.
Proof.
  intros E U. rewrite dispatch_unchanged; [exact E|]. rewrite E, <- U.
  unfold prepareStudio. destruct source; fields; now rewrite session_teardownStream.
Qed.

(** X8.  Choosing a source or switching the microphone while the studio is
    not ready only records the setting; while it is ready, it records the
    setting and enables the studio anew, as the button does after the
    setting is recorded. *)
Theorem X8_setting_change (st : Studio) (source : CaptureSource) (nextValue : bool) :
  dispatch (SelectSource source) st
  = (if st.[isStudioReady] then dispatch EnableStudio (setCaptureSource source st)
     else setCaptureSource source st)
  /\ dispatch (ToggleMicrophone nextValue) st
     = (if st.[isStudioReady] then dispatch EnableStudio (setIncludeMicrophone nextValue st)
        else setIncludeMicrophone nextValue st).
Proof.
  split.
  - destruct st.[isStudioReady] eqn:R.
    + rewrite (dispatch_prepareStudio EnableStudio source st.[includeMicrophone]
                 (setCaptureSource source st)) by reflexivity.
      apply dispatch_prepareStudio_after; [|reflexivity].
      cbn [handle]. unfold handleSelectSource. now rewrite R.
    + rewrite dispatch_unchanged; cbn [handle]; unfold handleSelectSource;
        now rewrite R.
  - destruct st.[isStudioReady] eqn:R.
    + rewrite (dispatch_prepareStudio EnableStudio st.[captureSource] nextValue
                 (setIncludeMicrophone nextValue st)) by reflexivity.
      apply dispatch_prepareStudio_after; [|reflexivity].
      cbn [handle]. unfold handleToggleMicrophone. now rewrite R.
    + rewrite dispatch_unchanged; cbn [handle]; unfold handleToggleMicrophone;
        now rewrite R.
Qed.



(** ** Release of the stream and of the timer *)

(** X10.  Releasing the stream leaves no stream reference and every track of
    the stream that was held stopped; resetting the timer leaves no timer
    reference, the timer that was held cleared, and the elapsed time at
    zero.  Doing either a second time changes nothing. *)
Theorem X10_release_idempotent (st : Studio) :
  (teardownStream st).[streamRef] = None
  /\ (forall sid (tracks : MediaStream),
        st.[streamRef] = Some sid -> st.{streams} !! sid = Some tracks ->
        exists stopped : MediaStream, (teardownStream st).{streams} !! sid = Some stopped
                        /\ length stopped = length tracks
                        /\ Forall (fun t => live t = false) stopped)
  /\ teardownStream (teardownStream st) = teardownStream st
  /\ (resetTimer st).[timerRef] = None
  /\ (resetTimer st).[elapsedSeconds] = 0
  /\ (forall h iv, st.[timerRef] = Some h -> st.{intervals} !! h = Some iv ->
        (resetTimer st).{intervals} !! h = Some (cleared iv))
  /\ resetTimer (resetTimer st) = resetTimer st.
Proof.
  split; [now rewrite session_teardownStream|].
  split.
  { intros sid tracks E L. exists (map stopTrack tracks).
    split; [rewrite browser_teardownStream, E; fields;
            now rewrite list_lookup_alter_eq, L|].
    split; [apply length_map|]. apply Forall_map. now apply Forall_true. }
  split.
  { unfold teardownStream. destruct st.[streamRef]; reflexivity. }
  split; [now rewrite session_resetTimer|].
  split; [now rewrite session_resetTimer|].
  split.
  { intros h iv E L. rewrite browser_resetTimer, E. fields.
    now rewrite list_lookup_alter_eq, L. }
  unfold resetTimer. destruct st.[timerRef] eqn:E; fields; rewrite ?E; reflexivity.
Qed.

(** ** Guards of the controls *)

(** X11.  Pausing does nothing unless the studio is recording, resuming
    nothing unless it is paused, stopping nothing while it is idle, and
    none of the three does anything while no recorder is attached: the
    state is left as it was, in every field. *)
Theorem X11_controls_guarded (st : Studio) :
  (st.[recorderState] <> recording -> dispatch PauseRecording st = st)
  /\ (st.[recorderState] <> paused -> dispatch ResumeRecording st = st)
  /\ (st.[recorderState] = idle -> dispatch StopRecording st = st)
  /\ (st.[recorderRef] = None ->
        dispatch PauseRecording st = st
        /\ dispatch ResumeRecording st = st
        /\ dispatch StopRecording st = st).
Proof.
  assert (P : st.[recorderState] <> recording -> pauseRecording st = st).
  { intros H. unfold pauseRecording. destruct st.[recorderRef]; [|reflexivity].
    now rewrite decide_False. }
  assert (R : st.[recorderState] <> paused -> resumeRecording st = st).
  { intros H. unfold resumeRecording. destruct st.[recorderRef]; [|reflexivity].
    now rewrite decide_False. }
  assert (S0 : st.[recorderState] = idle -> stopRecording st = st).
  { intros H. unfold stopRecording. destruct st.[recorderRef]; [|reflexivity].
    rewrite decide_False; [reflexivity|]. intros N. now apply N. }
  assert (D : forall e, handle e st = st -> dispatch e st = st).
  { intros e E. rewrite dispatch_unchanged; rewrite E; reflexivity. }
  split; [intros H; apply D, P, H|].
  split; [intros H; apply D, R, H|].
  split; [intros H; apply D, S0, H|].
  intros H. repeat split; apply D; cbn [handle];
    unfold pauseRecording, resumeRecording, stopRecording; now rewrite H.
Qed.

(** ** What holds in every state the page can reach *)

(** X12.  In a state the page can reach, the timer reference names a
    running elapsed-time interval and the studio is recording; a running
    elapsed-time interval is the one the reference names, so there is at
    most one; while a countdown runs no elapsed-time interval does, and
    there is one countdown at most. *)
Theorem X12_one_timer (st : Studio) :
  reachable st ->
  (forall h, st.[timerRef] = Some h ->
     elapsedAt st.{intervals} h /\ st.[recorderState] = recording)
  /\ (forall h, elapsedAt st.{intervals} h -> st.[timerRef] = Some h)
  /\ (forall h h', elapsedAt st.{intervals} h -> elapsedAt st.{intervals} h' -> h' = h)
  /\ (forall h rem cap h', countingDown st h rem cap -> ~ elapsedAt st.{intervals} h')
  /\ (forall h rem cap h' rem' cap',
        countingDown st h rem cap -> countingDown st h' rem' cap' -> h' = h).
Proof.
  intros R. pose proof (invariant_reachable st R) as I.
  destruct (steady_reachable st R) as (T & _ & _).
  split; [exact (ti_ref _ _ _ _ T)|].
  split; [exact (ti_owner _ _ _ _ T)|].
  split.
  { intros h h' H H'. apply (ti_owner _ _ _ _ T) in H, H'. congruence. }
  split.
  { intros h rem cap h' C E.
    destruct (inv_countdown _ _ _ _ _ _ _ I h rem cap C) as (Hi & _).
    apply (ti_owner _ _ _ _ T) in E. apply (ti_ref _ _ _ _ T) in E as [_ E].
    congruence. }
  exact (inv_single _ _ _ _ _ _ _ I).
Qed.

Lemma X12_one_timer_witness :
  (run toRecording (initial anyType)).[timerRef] = Some 1%nat.
Proof.
  assert (R : reachable (run toRecording (initial anyType))).
  { exists anyType, toRecording. reflexivity. }
  assert (E : elapsedAt (run toRecording (initial anyType)).{intervals} 1%nat)
    by (vm_compute; reflexivity).
  exact (proj1 (proj2 (X12_one_timer _ R)) 1%nat E).
Defined.

(** X13.  In a state the page can reach, an object URL resolves to a blob
    exactly when it is the URL of the current artifact: the artifact can be
    played and saved, and every other URL the page created has been
    revoked. *)
Theorem X13_only_artifact_url_live (st : Studio) (u : Url) :
  reachable st ->
  is_Some (resolveUrl u st) <-> st.[recordedUrl] = Some u.
Proof.
  intros R. destruct (steady_reachable st R) as (_ & _ & U).
  unfold resolveUrl. split.
  - intros [b E]. apply (ui_only _ _ U u b).
    destruct (st.{objectUrls} !! u) as [[b'|]|]; cbn in E; congruence.
  - intros E. destruct (ui_live _ _ U u E) as [b ->]. cbn. eauto.
Qed.

Lemma X13_only_artifact_url_live_witness :
  is_Some (resolveUrl 0%nat exportReady) <-> exportReady.[recordedUrl] = Some 0%nat.
Proof.
  assert (R : reachable exportReady).
  { exists anyType,
      (toRecording ++ [StopRecording; RecorderStopped 0%nat;
                       EditProjectTitle (js "My Project!! 2024")]).
    vm_compute. reflexivity. }
  exact (X13_only_artifact_url_live exportReady 0%nat R).
Defined.

(** X14.  In a state the page can reach, while a recorder is attached the
    studio is not idle and the recorder is in the state the studio shows;
    so pause, resume and stop reach the recorder without an exception.
    Pause, when recording, gives paused, clears the timer and keeps the
    elapsed time; resume, when paused, gives recording with a new timer;
    stop detaches the recorder, leaves its [stop] event due, releases the
    stream, and leaves the state shown as it was. *)
Theorem X14_controls_take_effect (st : Studio) (r : RecorderId) :
  reachable st ->
  st.[recorderRef] = Some r ->
  st.[recorderState] <> idle
  /\ (exists rec, st.{recorders} !! r = Some rec /\ stopQueued rec = false
                  /\ agree st.[recorderState] (rec_state rec))
  /\ (st.[recorderState] = recording ->
        let st' := dispatch PauseRecording st in
        st'.[recorderState] = paused
        /\ st'.[timerRef] = None
        /\ rec_state <$> st'.{recorders} !! r = Some rs_paused
        /\ st'.[elapsedSeconds] = st.[elapsedSeconds])
  /\ (st.[recorderState] = paused ->
        let st' := dispatch ResumeRecording st in
        st'.[recorderState] = recording
        /\ st'.[timerRef] = Some (length st.{intervals})
        /\ elapsedAt st'.{intervals} (length st.{intervals})
        /\ rec_state <$> st'.{recorders} !! r = Some rs_recording)
  /\ (let st' := dispatch StopRecording st in
      queuedIn st'.{recorders} r
      /\ st'.[recorderRef] = None
      /\ st'.[streamRef] = None
      /\ st'.[isStudioReady] = false
      /\ st'.[recorderState] = st.[recorderState]
      /\ st'.[recordedUrl] = st.[recordedUrl]).
Proof.
  intros R Hr. pose proof (invariant_reachable st R) as I.
  destruct (steady_reachable st R) as (T & Rc & _).
  destruct (ri_attached _ _ _ Rc r Hr) as (rec & Hrec & Hq & Ha).
  assert (Hn : st.[recorderState] <> idle).
  { intros Hi. destruct (inv_idle _ _ _ _ _ _ _ I Hi) as [E _]. congruence. }
  assert (Hlt : (r < length st.{recorders})%nat) by (eapply lookup_lt_Some; eassumption).
  split; [exact Hn|]. split; [eauto|].
  split; [|split].
  - intros Hs. cbv zeta.
    assert (Hrs : rec_state rec = rs_recording).
    { destruct Ha as [[_ ?]|[? _]]; congruence. }
    assert (E : pauseRecording st
                = match st.[timerRef] with
                  | Some h => setTimerRef None (clearInterval h
                                (setRecorderState paused
                                   (setRecorders (<[r := withRecState rs_paused rec]>
                                                    st.{recorders}) st)))
                  | None => setRecorderState paused
                              (setRecorders (<[r := withRecState rs_paused rec]>
                                               st.{recorders}) st)
                  end).
    { unfold pauseRecording. rewrite Hr, decide_True, Hrec by assumption.
      cbn [mbind option_bind]. unfold recorder_pause. rewrite Hrs. reflexivity. }
    rewrite dispatch_unchanged; cbn [handle]; rewrite E.
    + destruct st.[timerRef] eqn:Et; fields; rewrite ?Et;
        rewrite list_lookup_insert_eq by exact Hlt; repeat split; reflexivity.
    + destruct st.[timerRef]; reflexivity.
  - intros Hs. cbv zeta.
    assert (Hrs : rec_state rec = rs_paused).
    { destruct Ha as [[? _]|[_ ?]]; congruence. }
    assert (Ht : st.[timerRef] = None).
    { destruct st.[timerRef] as [h|]; [|reflexivity].
      destruct (ti_ref _ _ _ _ T h eq_refl) as [_ ?]. congruence. }
    assert (E : resumeRecording st
                = startTimer (setRecorderState recording
                                (setRecorders (<[r := withRecState rs_recording rec]>
                                                 st.{recorders}) st))).
    { unfold resumeRecording. rewrite Hr, decide_True, Hrec by assumption.
      cbn [mbind option_bind]. unfold recorder_resume. rewrite Hrs. reflexivity. }
    rewrite dispatch_unchanged; cbn [handle]; rewrite E;
      rewrite ?session_startTimer, ?browser_startTimer; fields; [|reflexivity].
    rewrite Ht. unfold elapsedAt.
    rewrite list_lookup_middle by reflexivity.
    rewrite list_lookup_insert_eq by exact Hlt. repeat split; reflexivity.
  - cbv zeta.
    assert (Hact : rec_state rec <> rs_inactive).
    { destruct Ha as [[_ ?]|[_ ?]]; congruence. }
    assert (E : stopRecording st
                = setCountdown None (setIsStudioReady false (teardownStream
                    (setRecorderRef None (updRecorder r recorder_stop st))))).
    { unfold stopRecording. now rewrite Hr, decide_True by assumption. }
    rewrite dispatch_unchanged; cbn [handle]; rewrite E; fields;
      rewrite ?session_teardownStream, ?browser_teardownStream; fields;
      [|reflexivity].
    split; [|repeat split; reflexivity].
    exists (recorder_stop rec). rewrite list_lookup_alter_eq, Hrec. split; [reflexivity|].
    unfold recorder_stop. destruct (rec_state rec); [congruence|reflexivity..].
Qed.

Lemma X14_controls_take_effect_witness :
  (dispatch PauseRecording twoSecondsIn).[recorderState] = paused
  /\ (dispatch PauseRecording twoSecondsIn).[elapsedSeconds] = 2.
Proof.
  assert (R : reachable twoSecondsIn).
  { exists anyType, (toRecording ++ [Tick 1%nat; Tick 1%nat]). reflexivity. }
  assert (Hr : twoSecondsIn.[recorderRef] = Some 0%nat) by (vm_compute; reflexivity).
  assert (Hs : twoSecondsIn.[recorderState] = recording) by (vm_compute; reflexivity).
  assert (He : twoSecondsIn.[elapsedSeconds] = 2) by (vm_compute; reflexivity).
  destruct (X14_controls_take_effect twoSecondsIn 0%nat R Hr) as (_ & _ & P & _).
  destruct (P Hs) as (P1 & _ & _ & P4).
  split; [exact P1|]. rewrite <- He. exact P4.
Defined.

(** X15.  In a state the page can reach, when the studio is not idle and no
    recorder is attached, stop has been pressed and the recorder's [stop]
    event is due: record, pause, resume and stop then do nothing, and the
    arrival of that event brings the studio to idle with an artifact whose
    URL resolves.  The studio never stays outside idle without either a
    recorder attached or that event due. *)
Theorem X15_stop_pending (st : Studio) :
  reachable st ->
  st.[recorderState] <> idle ->
  st.[recorderRef] = None ->
  dispatch BeginCountdown st = st
  /\ dispatch PauseRecording st = st
  /\ dispatch ResumeRecording st = st
  /\ dispatch StopRecording st = st
  /\ exists r, queuedIn st.{recorders} r
               /\ (dispatch (RecorderStopped r) st).[recorderState] = idle
               /\ (dispatch (RecorderStopped r) st).[recordedUrl]
                  = Some (length st.{objectUrls})
               /\ is_Some (resolveUrl (length st.{objectUrls})
                             (dispatch (RecorderStopped r) st)).
Proof.
  intros R Hn Hr. destruct (steady_reachable st R) as (_ & Rc & _).
  assert (D : forall e, handle e st = st -> dispatch e st = st).
  { intros e E. rewrite dispatch_unchanged; rewrite E; reflexivity. }
  split.
  { apply D. cbn [handle]. unfold beginCountdown. rewrite decide_True; auto. }
  split; [apply D; cbn [handle]; unfold pauseRecording; now rewrite Hr|].
  split; [apply D; cbn [handle]; unfold resumeRecording; now rewrite Hr|].
  split; [apply D; cbn [handle]; unfold stopRecording; now rewrite Hr|].
  destruct (ri_pending _ _ _ Rc Hn Hr) as (r & rec & Hrec & Hq).
  exists r. split; [exists rec; auto|].
  destruct (finalize_recording st r rec Hrec Hq) as (F1 & F2 & F3).
  split; [exact F1|]. split; [exact F2|]. rewrite F3. eauto.
Qed.

Lemma X15_stop_pending_witness :
  exists r, queuedIn (run (toRecording ++ [StopRecording]) (initial anyType)).{recorders} r.
Proof.
  assert (R : reachable (run (toRecording ++ [StopRecording]) (initial anyType))).
  { exists anyType, (toRecording ++ [StopRecording]). reflexivity. }
  assert (Hn : (run (toRecording ++ [StopRecording]) (initial anyType)).[recorderState]
               <> idle) by (vm_compute; discriminate).
  assert (Hr : (run (toRecording ++ [StopRecording]) (initial anyType)).[recorderRef]
               = None) by (vm_compute; reflexivity).
  destruct (X15_stop_pending _ R Hn Hr) as (_ & _ & _ & _ & r & Q & _).
  exists r. exact Q.
Defined.

(** ** The elapsed time *)

Lemma elapsed_prepareStudio source mic st :
  (prepareStudio source mic st).[elapsedSeconds] = st.[elapsedSeconds].
Proof. unfold prepareStudio. destruct source; fields; now rewrite session_teardownStream. Qed.

Lemma elapsed_startRecording url st :
  (startRecording url st).[elapsedSeconds] = st.[elapsedSeconds]
  \/ (startRecording url st).[elapsedSeconds] = 0.
Proof.
  unfold startRecording. destruct st.[streamRef]; [|left; reflexivity].
  destruct (createRecorder _ _); [right; now rewrite session_startTimer|].
  left. destruct url; reflexivity.
Qed.

Lemma elapsed_handle (e : Event) (st : Studio) :
  (handle e st).[elapsedSeconds] = st.[elapsedSeconds]
  \/ (handle e st).[elapsedSeconds] = 0
  \/ exists h, e = Tick h /\ elapsedAt st.{intervals} h
               /\ (handle e st).[elapsedSeconds] = st.[elapsedSeconds] + 1.
Proof.
  destruct e; cbn [handle].
  - left. apply elapsed_prepareStudio.
  - left. unfold handleSelectSource.
    destruct st.[isStudioReady]; [now rewrite elapsed_prepareStudio|reflexivity].
  - left. unfold handleToggleMicrophone.
    destruct st.[isStudioReady]; [now rewrite elapsed_prepareStudio|reflexivity].
  - left. reflexivity.
  - left. reflexivity.
  - left. reflexivity.
  - left. unfold beginCountdown. destruct (decide _); reflexivity.
  - left. apply pauseRecording_keeps_elapsed.
  - unfold resumeRecording. destruct st.[recorderRef]; [|left; reflexivity].
    destruct (decide _); [|left; reflexivity].
    destruct (_ ≫= _); [|left; reflexivity].
    right. left. now rewrite session_startTimer.
  - left. unfold stopRecording. destruct st.[recorderRef]; [|reflexivity].
    destruct (decide _); [|reflexivity]. fields. now rewrite session_teardownStream.
  - left. unfold downloadRecording. destruct st.[recordedUrl]; reflexivity.
  - left. destruct (st.{awaiting} !! p) as [[k|]|]; [|reflexivity..].
    destruct k, result; cbn [prepareStudio_resume]; unfold prepareStudio_catch;
      try destruct mic; fields; rewrite ?session_teardownStream; reflexivity.
  - left. destruct st.{pendingPlays}; reflexivity.
  - left. unfold ondataavailable. destruct (_ <? _); reflexivity.
  - destruct (st.{recorders} !! r) as [rec|] eqn:E; [|left; reflexivity].
    destruct (stopQueued rec); [|left; reflexivity].
    unfold onstop. fields.
    destruct (alter _ r st.{recorders} !! r); [|left; reflexivity].
    right. left. fields. now rewrite session_resetTimer.
  - destruct (st.{intervals} !! h) as [[a cb]|] eqn:E; [|left; reflexivity].
    cbn [iv_active iv_callback]. destruct a; [|left; reflexivity].
    destruct cb as [|rem cap].
    + right. right. exists h. repeat split. exact E.
    + unfold countdownTick. destruct (_ <=? _); [|left; reflexivity].
      destruct (elapsed_startRecording cap
                  (setCountdown None (clearInterval h
                     (setIntervals (<[h := {| iv_active := true;
                                              iv_callback := CountdownCallback (rem - 1) cap |}]>
                                      st.{intervals}) st)))) as [->| ->];
        [left; reflexivity|right; left; reflexivity].
Qed.

(** X16.  In a state the page can reach the elapsed time is never negative
    and is zero while the studio is idle.  One event leaves it as it is,
    puts it back to zero, or adds one; it adds one only as the tick of the
    timer the reference names, while recording.  While the studio is paused
    no tick of any interval changes anything. *)
Theorem X16_elapsed_counter (st : Studio) :
  reachable st ->
  0 <= st.[elapsedSeconds]
  /\ (st.[recorderState] = idle -> st.[elapsedSeconds] = 0)
  /\ (forall e,
        (dispatch e st).[elapsedSeconds] = st.[elapsedSeconds]
        \/ (dispatch e st).[elapsedSeconds] = 0
        \/ exists h, e = Tick h /\ st.[timerRef] = Some h
                     /\ st.[recorderState] = recording
                     /\ (dispatch e st).[elapsedSeconds] = st.[elapsedSeconds] + 1)
  /\ (st.[recorderState] = paused -> forall h, dispatch (Tick h) st = st).
Proof.
  intros R. pose proof (invariant_reachable st R) as I.
  destruct (steady_reachable st R) as (T & _ & _).
  split; [exact (ti_nonneg _ _ _ _ T)|].
  split; [exact (ti_idle _ _ _ _ T)|].
  split.
  - intros e. unfold dispatch, commit.
    destruct (decide _) as [_|_]; [|right; left; now rewrite session_effectCleanup].
    destruct (elapsed_handle e st) as [E|[E|(h & -> & Ha & E)]]; [auto..|].
    right. right. exists h.
    pose proof (ti_owner _ _ _ _ T h Ha) as Ht.
    destruct (ti_ref _ _ _ _ T h Ht) as [_ Hrec]. auto.
  - intros Hp h. rewrite dispatch_unchanged; cbn [handle];
      destruct (st.{intervals} !! h) as [[a cb]|] eqn:E; try reflexivity;
      cbn [iv_active iv_callback]; destruct a; try reflexivity; exfalso.
    all: destruct cb as [|rem cap];
      [ pose proof (ti_owner _ _ _ _ T h E) as Ht;
        destruct (ti_ref _ _ _ _ T h Ht) as [_ Hrec]; congruence
      | destruct (inv_countdown _ _ _ _ _ _ _ I h rem cap E) as (Hi & _); congruence ].
Qed.

Lemma X16_elapsed_counter_witness :
  0 <= twoSecondsIn.[elapsedSeconds]
  /\ ((dispatch (Tick 1%nat) twoSecondsIn).[elapsedSeconds] = twoSecondsIn.[elapsedSeconds]
      \/ (dispatch (Tick 1%nat) twoSecondsIn).[elapsedSeconds] = 0
      \/ (dispatch (Tick 1%nat) twoSecondsIn).[elapsedSeconds]
         = twoSecondsIn.[elapsedSeconds] + 1).
Proof.
  assert (R : reachable twoSecondsIn).
  { exists anyType, (toRecording ++ [Tick 1%nat; Tick 1%nat]). reflexivity. }
  destruct (X16_elapsed_counter twoSecondsIn R) as (H0 & _ & H & _).
  split; [exact H0|].
  destruct (H (Tick 1%nat)) as [E|[E|(h & _ & _ & _ & E)]]; auto.
Defined.

(** ** The effect clean-up and a recording that replaces an artifact *)

Lemma streams_effectCleanup u st :
  (effectCleanup u st).{streams}
  = match st.[streamRef] with
    | Some sid => alter (map stopTrack) sid st.{streams}
    | None => st.{streams}
    end.
Proof.
  unfold effectCleanup. rewrite browser_resetTimer. fields.
  destruct u; fields; now rewrite browser_teardownStream.
Qed.

Lemma startRecording_started url st stream type :
  st.[streamRef] = Some stream ->
  List.find st.{isTypeSupported} supportedTypes = Some type ->
  startRecording url st
  = startTimer (setRecorderState recording (setRecorderRef (Some (length st.{recorders}))
      (setRecorders (st.{recorders}
                     ++ [{| rec_stream := stream; mimeType := type;
                            videoBitsPerSecond := 4000000;
                            rec_state := rs_recording; stopQueued := false;
                            chunks := [] |}])
         match url with
         | Some u => setRecordedUrl None (revokeObjectURL u st)
         | None => st
         end))).
Proof.
  intros Hs Hf. unfold startRecording. rewrite Hs. unfold createRecorder.
  destruct url; fields; rewrite Hf; reflexivity.
Qed.

(** The state in which the handler of the last tick of a countdown leaves
    the page, before the render that follows. *)
Lemma last_tick_handled (st : Studio) (h : IntervalId) (cap : option Url)
    (stream : StreamId) (type : string) :
  countingDown st h 1 cap ->
  st.[recordedUrl] = cap ->
  st.[streamRef] = Some stream ->
  List.find st.{isTypeSupported} supportedTypes = Some type ->
  let st1 := handle (Tick h) st in
  dispatch (Tick h) st = commit st.[recordedUrl] st1
  /\ st1.[recorderState] = recording
  /\ st1.[recorderRef] = Some (length st.{recorders})
  /\ rec_stream <$> st1.{recorders} !! length st.{recorders} = Some stream
  /\ st1.[recordedUrl] = None
  /\ st1.[elapsedSeconds] = 0
  /\ st1.[isStudioReady] = st.[isStudioReady]
  /\ st1.[streamRef] = Some stream
  /\ st1.{streams} = st.{streams}
  /\ st1.[timerRef] = Some (length st.{intervals})
  /\ elapsedAt st1.{intervals} (length st.{intervals})
  /\ length st1.{intervals} = S (length st.{intervals})
  /\ st1.{objectUrls}
     = match cap with
       | Some u => <[u := None]> st.{objectUrls}
       | None => st.{objectUrls}
       end.
Proof.
  intros Hc Hu Hs Hf. cbv zeta. split; [reflexivity|].
  cbn [handle]. rewrite Hc. cbn [iv_active iv_callback]. unfold countdownTick.
  replace (1 - 1 <=? 0) with true by reflexivity.
  erewrite startRecording_started; [|exact Hs|exact Hf].
  clear Hc. unfold elapsedAt.
  destruct cap as [u|]; norm; rewrite ?length_alter, ?length_insert;
    (do 2 (split; [reflexivity|]));
    (split; [now rewrite list_lookup_middle|]);
    (do 3 (split; [reflexivity || exact Hu|]));
    (split; [exact Hs|]);
    (do 2 (split; [reflexivity|]));
    (split; [|split; [|reflexivity]]).
  all: destruct st.[timerRef];
    rewrite ?length_app, ?length_alter, ?length_insert, ?list_lookup_middle
      by (rewrite ?length_alter, ?length_insert; reflexivity);
    cbn [length]; try reflexivity; lia.
Qed.

(** X17.  The last tick of a countdown, with a stream held and a supported
    format: the studio is recording on a new recorder and shows no
    artifact.  When there was no artifact the stream is kept and the new
    timer runs.  When there was one, its URL is revoked, and because the
    artifact changed the effect clean-up runs after the handler: the stream
    just handed to the recorder is released with its tracks stopped, and the
    timer just started is cleared, while the studio stays ready and
    recording. *)
Theorem X17_recording_over_artifact (st : Studio) (h : IntervalId) (cap : option Url)
    (stream : StreamId) (type : string) :
  countingDown st h 1 cap ->
  st.[recordedUrl] = cap ->
  st.[streamRef] = Some stream ->
  List.find st.{isTypeSupported} supportedTypes = Some type ->
  let st' := dispatch (Tick h) st in
  st'.[recorderState] = recording
  /\ st'.[recorderRef] = Some (length st.{recorders})
  /\ (rec_stream <$> st'.{recorders} !! length st.{recorders}) = Some stream
  /\ st'.[recordedUrl] = None
  /\ st'.[elapsedSeconds] = 0
  /\ st'.[isStudioReady] = st.[isStudioReady]
  /\ match cap with
     | None =>
         st'.[streamRef] = Some stream
         /\ st'.{streams} = st.{streams}
         /\ st'.[timerRef] = Some (length st.{intervals})
         /\ elapsedAt st'.{intervals} (length st.{intervals})
     | Some url =>
         st'.[streamRef] = None
         /\ st'.{streams} !! stream = map stopTrack <$> st.{streams} !! stream
         /\ st'.[timerRef] = None
         /\ st'.{intervals} !! length st.{intervals}
            = Some {| iv_active := false; iv_callback := ElapsedCallback |}
         /\ resolveUrl url st' = None
     end.
Proof.
  intros Hc Hu Hs Hf. cbv zeta.
  destruct (last_tick_handled st h cap stream type Hc Hu Hs Hf)
    as (D & F1 & F2 & F3 & F4 & F5 & F6 & F7 & F8 & F9 & F10 & F11 & F12).
  rewrite D. clear D. generalize dependent (handle (Tick h) st). intros st1.
  intros F1 F2 F3 F4 F5 F6 F7 F8 F9 F10 F11 F12. unfold commit. rewrite Hu.
  destruct cap as [u|].
  - rewrite decide_False by (rewrite F4; discriminate).
    rewrite streams_effectCleanup, intervals_effectCleanup, session_effectCleanup,
      recorders_effectCleanup. fields.
    rewrite F7, F8, F9.
    do 7 (split; [assumption || reflexivity|]).
    split; [apply list_lookup_alter_eq|].
    split; [reflexivity|].
    split; [rewrite list_lookup_alter_eq, F10; reflexivity|].
    unfold resolveUrl. rewrite objectUrls_effectCleanup, F12.
    destruct (decide (u < length st.{objectUrls})%nat) as [Hlt|Hge].
    + rewrite list_lookup_insert_eq by (rewrite length_insert; exact Hlt). reflexivity.
    + rewrite lookup_ge_None_2 by (rewrite !length_insert; lia). reflexivity.
  - rewrite decide_True by exact F4.
    do 6 (split; [assumption|]). auto.
Qed.

Lemma X17_recording_over_artifact_witness :
  let st := run (toRecording
                 ++ [StopRecording; RecorderStopped 0%nat; EnableStudio;
                     Settle 1%nat (Fulfilled cameraStream);
                     BeginCountdown; Tick 2%nat; Tick 2%nat])
              (initial anyType) in
  (dispatch (Tick 2%nat) st).[recorderState] = recording
  /\ (dispatch (Tick 2%nat) st).[streamRef] = None
  /\ (dispatch (Tick 2%nat) st).[timerRef] = None.
Proof.
  intros st.
  assert (Hc : countingDown st 2%nat 1 (Some 0%nat)) by (vm_compute; reflexivity).
  assert (Hu : st.[recordedUrl] = Some 0%nat) by (vm_compute; reflexivity).
  assert (Hs : st.[streamRef] = Some 1%nat) by (vm_compute; reflexivity).
  assert (Hf : List.find st.{isTypeSupported} supportedTypes
               = Some "video/webm;codecs=vp9,opus") by (vm_compute; reflexivity).
  destruct (X17_recording_over_artifact st 2%nat (Some 0%nat) 1%nat
              "video/webm;codecs=vp9,opus" Hc Hu Hs Hf)
    as (H1 & _ & _ & _ & _ & _ & H7 & _ & H9 & _).
  split; [exact H1|]. split; [exact H7|exact H9].
Defined.

(** X18.  The effect clean-up, in a state the page can reach and for
    whatever URL it was installed with: afterwards no stream and no timer
    are held, the elapsed time is zero, the URL no longer resolves, and no
    elapsed-time interval runs.  It stops no recorder, and leaves the state
    shown, the ready flag, the recorder attached and a countdown in progress
    as they were: the countdown's interval keeps running. *)
Theorem X18_effect_cleanup (st : Studio) (url : option Url) :
  reachable st ->
  let st' := effectCleanup url st in
  st'.[streamRef] = None
  /\ st'.[timerRef] = None
  /\ st'.[elapsedSeconds] = 0
  /\ (forall u, url = Some u -> resolveUrl u st' = None)
  /\ (forall h, ~ elapsedAt st'.{intervals} h)
  /\ st'.{recorders} = st.{recorders}
  /\ st'.[recorderState] = st.[recorderState]
  /\ st'.[recorderRef] = st.[recorderRef]
  /\ st'.[isStudioReady] = st.[isStudioReady]
  /\ st'.[countdown] = st.[countdown]
  /\ (forall h rem cap, countingDown st h rem cap -> countingDown st' h rem cap).
Proof.
  intros R. cbv zeta. pose proof (invariant_reachable st R) as I.
  destruct (steady_reachable st R) as (T & _ & _).
  rewrite session_effectCleanup, recorders_effectCleanup. fields.
  do 3 (split; [reflexivity|]).
  split.
  { intros u ->. unfold resolveUrl. rewrite objectUrls_effectCleanup.
    destruct (decide (u < length st.{objectUrls})%nat) as [Hlt|Hge].
    - now rewrite list_lookup_insert_eq.
    - rewrite lookup_ge_None_2 by (rewrite length_insert; lia). reflexivity. }
  split.
  { intros h. rewrite intervals_effectCleanup.
    change (~ elapsedAt (cleanedUp st.[timerRef] st.{intervals}) h).
    intros E. apply elapsedAt_cleanedUp in E as [E Hne].
    apply Hne. now apply (ti_owner _ _ _ _ T). }
  do 5 (split; [reflexivity|]).
  intros h rem cap C. unfold countingDown, countdownAt in *.
  rewrite intervals_effectCleanup.
  destruct st.[timerRef] as [t|] eqn:Et; [|exact C].
  rewrite list_lookup_alter_ne; [exact C|]. intros ->.
  destruct (inv_timerRef _ _ _ _ _ _ _ I h) as [a Ha]; [exact Et|]. congruence.
Qed.

Lemma X18_effect_cleanup_witness :
  (effectCleanup None staleErrorBeforeStart).[isStudioReady]
  = staleErrorBeforeStart.[isStudioReady]
  /\ countingDown (effectCleanup None staleErrorBeforeStart) 0%nat 1 None.
Proof.
  assert (R : reachable staleErrorBeforeStart).
  { exists anyType,
      [ EnableStudio; Settle 0%nat (Fulfilled cameraStream); PlayRejected;
        BeginCountdown; Tick 0%nat; Tick 0%nat ]. reflexivity. }
  assert (C : countingDown staleErrorBeforeStart 0%nat 1 None) by (vm_compute; reflexivity).
  destruct (X18_effect_cleanup staleErrorBeforeStart None R)
    as (_ & _ & _ & _ & _ & _ & _ & _ & H9 & _ & H11).
  split; [exact H9|]. apply H11. exact C.
Defined.

(** ** The buttons and the guards of their handlers *)

(** X19.  The handlers of pause, resume, stop and export refuse by
    themselves whatever their buttons refuse: were a disabled one of these
    buttons pressed, nothing would change.  The handler of record does not:
    it never looks at the ready flag, so with the studio not ready, idle and
    no countdown in progress, a press would start the countdown; only the
    disabled button stands in the way. *)
Theorem X19_buttons_and_guards (st : Studio) :
  (forall c, c <> recordButton -> disabled c st = true -> dispatch (onClick c st) st = st)
  /\ (st.[isStudioReady] = false -> st.[recorderState] = idle -> st.[countdown] = None ->
        disabled recordButton st = true
        /\ (dispatch (onClick recordButton st) st).[countdown] = Some COUNTDOWN_SECONDS
        /\ countingDown (dispatch (onClick recordButton st) st) (length st.{intervals})
             COUNTDOWN_SECONDS st.[recordedUrl]).
Proof.
  assert (D : forall e, handle e st = st -> dispatch e st = st).
  { intros e E. rewrite dispatch_unchanged; rewrite E; reflexivity. }
  split.
  - intros c Hc Hd. destruct c; [contradiction| | |]; cbn [disabled onClick] in *.
    + apply bool_decide_eq_true_1 in Hd.
      rewrite decide_False by congruence. apply D. cbn [handle].
      unfold pauseRecording. destruct st.[recorderRef]; [|reflexivity].
      rewrite decide_False by congruence. reflexivity.
    + apply bool_decide_eq_true_1 in Hd. apply D. cbn [handle].
      unfold stopRecording. destruct st.[recorderRef]; [|reflexivity].
      rewrite decide_False by (intros N; now apply N). reflexivity.
    + apply D. cbn [handle]. unfold downloadRecording.
      destruct st.[recordedUrl]; [discriminate|reflexivity].
  - intros Hr Hi Hcd. cbn [disabled onClick]. rewrite Hr.
    split; [reflexivity|].
    destruct (beginCountdown_starts st Hcd Hi) as [C E]. split; [exact E|exact C].
Qed.

(** X20.  The camera granted and the preview then refused to play: the
    studio is ready all the same and holds the stream, untouched, which is
    also the source of the preview; the refusal only stores its message. *)
Theorem X20_preview_failure_keeps_ready (st : Studio) (granted : MediaStream) :
  st.[captureSource] = camera ->
  let p := length st.{awaiting} in
  let sid := length st.{streams} in
  let st' := run [EnableStudio; Settle p (Fulfilled granted); PlayRejected] st in
  st'.[isStudioReady] = true
  /\ st'.[error] = Some Msg.autoplay
  /\ st'.[streamRef] = Some sid
  /\ st'.{video_srcObject} = Some sid
  /\ st'.{streams} !! sid = Some granted
  /\ st'.{pendingPlays} = st.{pendingPlays}.
Proof.
  intros Hs. cbv zeta. unfold run. cbn [fold_left].
  rewrite (dispatch_prepareStudio EnableStudio camera st.[includeMicrophone] st)
    by (cbn [handle]; unfold handleEnableStudio; now rewrite Hs).
  set (st1 := prepareStudio camera st.[includeMicrophone] st).
  assert (A1 : st1.{awaiting} = st.{awaiting} ++ [Some AwaitCamera]).
  { subst st1. unfold prepareStudio. fields. now rewrite browser_teardownStream. }
  assert (L1 : length st1.{streams} = length st.{streams}).
  { subst st1. unfold prepareStudio. fields. rewrite browser_teardownStream. fields.
    destruct st.[streamRef]; [apply length_alter|reflexivity]. }
  assert (P1 : st1.{pendingPlays} = st.{pendingPlays}).
  { subst st1. unfold prepareStudio. fields. now rewrite browser_teardownStream. }
  set (st2 := prepareStudio_finish (length st.{streams})
                (setStreams (st1.{streams} ++ [granted])
                   (setAwaiting (st.{awaiting} ++ [None]) st1))).
  assert (D2 : dispatch (Settle (length st.{awaiting}) (Fulfilled granted)) st1 = st2).
  { rewrite dispatch_unchanged; cbn [handle]; rewrite A1, list_lookup_middle by reflexivity;
      rewrite insert_app_r_alt, Nat.sub_diag by lia;
      cbn [prepareStudio_resume allocStream]; fields; rewrite ?L1; reflexivity. }
  rewrite D2. clear D2.
  assert (P2 : st2.{pendingPlays} = S st.{pendingPlays}).
  { subst st2. unfold prepareStudio_finish. fields. now rewrite P1. }
  rewrite dispatch_unchanged; cbn [handle]; rewrite P2; [|reflexivity].
  subst st2. unfold prepareStudio_finish. fields.
  do 4 (split; [reflexivity|]). split; [|reflexivity].
  rewrite <- L1. now apply list_lookup_middle.
Qed.

Lemma X20_preview_failure_keeps_ready_witness :
  (run [EnableStudio; Settle 0 (Fulfilled cameraStream); PlayRejected]
     (initial anyType)).[isStudioReady] = true.
Proof.
  exact (proj1 (X20_preview_failure_keeps_ready (initial anyType) cameraStream eq_refl)).
Defined.
